(** * Upload gate of the secure-transfer server

    A shallow embedding of [server/utils/fileValidation.js] (type detection,
    corruption heuristics, structure checks, entropy criticality) and of the
    [uploadHandler] route of [server/routes/api.js], together with a model of
    the handshake session store.

    Byte values, lengths and counters are integers. The entropy loop of
    [calculateShannonEntropy] is computed as the engine computes it, in
    binary64, every operation rounded to the nearest number of 53
    significant bits. The other numbers of the route, the scores and the
    entropy features that it compares, combines and passes on, are real
    numbers, and the ratios of counters in the corruption heuristics are
    exact rationals. *)

From Stdlib Require Import ZArith List String Ascii Bool QArith Reals Lra Lia.
From Stdlib Require Import Sorted Permutation.
From stdpp Require Import gmap strings.
Import ListNotations.
Local Open Scope Z_scope.

(** ** Numbers *)

Definition Rltb (x y : R) : bool := if Rlt_dec x y then true else false.
Definition Rgtb (x y : R) : bool := if Rgt_dec x y then true else false.
Definition Rgeb (x y : R) : bool := if Rge_dec x y then true else false.
Definition Reqb (x y : R) : bool := if Req_dec_T x y then true else false.

(** The logarithm to base two. *)
Definition log2 (x : R) : R := (ln x / ln 2)%R.

(** *** Binary64

    A JavaScript number is a binary64: 53 significant bits, and the result
    of an operation is the exact result rounded to the nearest such number,
    ties to the even one. The range of the exponent is left unbounded:
    the numbers of the entropy loop (shares of a length below [2^53], their
    logarithms and sums of at most as many terms) stay far inside it. *)

Definition pow2 (e : Z) : R := powerRZ 2 e.

(** The exponent [e] of a number that is not zero: [2^e <= |x| < 2^(e+1)]. *)
Definition exponent (x : R) : Z := Int_part (log2 (Rabs x)).

(** The nearest integer, the even one of two that are as near. *)
Definition nearestEven (r : R) : Z :=
  let f := Int_part r in
  let d := (r - IZR f)%R in
  if Rltb d (1 / 2) then f
  else if Rgtb d (1 / 2) then f + 1
  else if Z.even f then f else f + 1.

(** The nearest multiple of the unit in the last place, [2^(e-52)]. *)
Definition round64 (x : R) : R :=
  if Reqb x 0 then 0%R
  else
    let ulp := pow2 (exponent x - 52) in
    (IZR (nearestEven (x / ulp)) * ulp)%R.

(** [Math.log2], read as the logarithm rounded once. The approximation
    of the engine returns the exponent on a power of two, as this does, and
    stays within one unit in the last place of it elsewhere. *)
Definition Math_log2 (x : R) : R := round64 (log2 x).

(** [a / b > threshold] on two counters. *)
Definition ratio (a b : Z) : Q := (inject_Z a / inject_Z b)%Q.
Definition Qgtb (x y : Q) : bool := negb (Qle_bool x y).

(** ** Buffers *)

Definition Buffer := list Z.

Definition blen (buffer : Buffer) : Z := Z.of_nat (length buffer).

(** [buffer[i]]; an index out of range reads [undefined], which equals no
    byte value. *)
Definition byteAt (buffer : Buffer) (i : nat) : Z := nth i buffer (-1).

(** [buffer.slice(a, b)] for [0 <= a <= b]. *)
Definition slice (buffer : Buffer) (a b : nat) : Buffer :=
  firstn (b - a) (skipn a buffer).

(** [buffer.slice(-k)] *)
Definition sliceLast (buffer : Buffer) (k : nat) : Buffer :=
  skipn (length buffer - k) buffer.

(** [Buffer.equals] *)
Fixpoint bufferEquals (a b : Buffer) : bool :=
  match a, b with
  | [], [] => true
  | x :: a', y :: b' => (x =? y) && bufferEquals a' b'
  | _, _ => false
  end.

(** ** Magic bytes *)

Definition FILE_SIGNATURES : list (string * option (list Z)) :=
  [ ("image/jpeg", Some [0xFF; 0xD8; 0xFF]);
    ("image/png", Some [0x89; 0x50; 0x4E; 0x47; 0x0D; 0x0A; 0x1A; 0x0A]);
    ("image/gif", Some [0x47; 0x49; 0x46; 0x38]);
    ("image/webp", Some [0x52; 0x49; 0x46; 0x46]);
    ("application/pdf", Some [0x25; 0x50; 0x44; 0x46]);
    ("application/msword", Some [0xD0; 0xCF; 0x11; 0xE0]);
    ("application/vnd.openxmlformats-officedocument.wordprocessingml.document",
       Some [0x50; 0x4B; 0x03; 0x04]);
    ("application/zip", Some [0x50; 0x4B; 0x03; 0x04]);
    ("application/x-rar-compressed", Some [0x52; 0x61; 0x72; 0x21]);
    ("application/x-7z-compressed", Some [0x37; 0x7A; 0xBC; 0xAF; 0x27; 0x1C]);
    ("application/x-msdownload", Some [0x4D; 0x5A]);
    ("application/x-executable", Some [0x7F; 0x45; 0x4C; 0x46]);
    ("text/plain", None) ].

(** The inner loop of [detectFileType]: every signature byte is found at
    its index. *)
Definition signatureMatches (buffer : Buffer) (signature : list Z) : bool :=
  forallb (fun i => byteAt buffer i =? nth i signature 0)
          (seq 0 (length signature)).

Fixpoint firstSignature (table : list (string * option (list Z)))
    (buffer : Buffer) : string :=
  match table with
  | [] => "application/octet-stream"
  | (_, None) :: rest => firstSignature rest buffer
  | (mimeType, Some signature) :: rest =>
      if (Z.of_nat (length signature) <=? blen buffer)
         && signatureMatches buffer signature
      then mimeType
      else firstSignature rest buffer
  end.

(** [detectFileType]: [null] on an empty buffer. *)
Definition detectFileType (buffer : Buffer) : option string :=
  match buffer with
  | [] => None
  | _ => Some (firstSignature FILE_SIGNATURES buffer)
  end.

(** ** Shannon entropy *)

(** [counts.set(byte, (counts.get(byte) || 0) + 1)] on a [Map], which keeps
    its keys in insertion order. *)
Fixpoint countsSet (counts : list (Z * Z)) (byte : Z) : list (Z * Z) :=
  match counts with
  | [] => [(byte, 1)]
  | (k, v) :: rest =>
      if k =? byte then (k, v + 1) :: rest
      else (k, v) :: countsSet rest byte
  end.

Definition byteCounts (buffer : Buffer) : list (Z * Z) :=
  fold_left countsSet buffer [].

(** One turn of the loop: [const p = count / len] and
    [entropy -= p * Math.log2(p)], a division, a logarithm, a product and
    a subtraction of binary64 numbers. *)
Definition entropyStep (len : R) (entropy : R) (count : Z) : R :=
  let p := round64 (IZR count / len) in
  round64 (entropy - round64 (p * Math_log2 p)).

Definition calculateShannonEntropy (buffer : Buffer) : R :=
  match buffer with
  | [] => 0%R
  | _ =>
      fold_left (entropyStep (IZR (blen buffer)))
                (map snd (byteCounts buffer)) 0%R
  end.

(** ** Findings *)

(** An entry of [issues]. The messages that print a number with [toFixed]
    keep the number itself. *)
Inductive Issue : Type :=
  | Text (message : string)
  | NullByteConcentration (nullByteRatio : Q)
  | ExtremelyHighEntropy (entropy : R)
  | UnusuallyLowEntropy (entropy : R) (detectedType : string)
  | HighEntropyVariance (variance : R).

(** ** Criticality *)

Record Criticality : Type := mkCriticality {
  level : Z;
  c_riskScore : R;
  reasons : list Issue;
  c_entropy : R;
  c_detectedType : option string
}.

(** The chain of entropy tests of [classifyFileCriticality]: the level and
    the reason pushed with it. The literals 7.2 and 7.9 stand for the
    binary64 next above each, and no binary64 lies in between: on the
    entropy, a binary64, the tests against the decimals answer the same. *)
Definition entropyBand (entropy : R) : Z * string :=
  if Reqb entropy 0 then (4, "Empty or fully corrupted file")
  else if Rltb entropy 4.5
    then (3, "Very low entropy — truncated or broken file structure")
  else if Rgeb entropy 4.5 && Rltb entropy 7.2
    then (0, "Normal entropy — likely safe")
  else if Rgeb entropy 7.2 && Rltb entropy 7.9
    then (2, "High entropy — encrypted/compressed/suspicious")
  else if Rgeb entropy 7.9
    then (4, "Extremely high entropy — malware-like randomness")
  else (1, "Unexpected entropy pattern").

Definition classifyFileCriticality (buffer : Buffer) (filename : string)
    (originalMimeType : string) : Criticality :=
  let detectedType := detectFileType buffer in
  let entropy := calculateShannonEntropy buffer in
  let '(level, reason) := entropyBand entropy in
  let riskScore := IZR level in
  mkCriticality level riskScore [Text reason] entropy detectedType.

(** ** File names *)

Definition lowerAscii (c : ascii) : ascii :=
  let n := nat_of_ascii c in
  if (Nat.leb 65 n && Nat.leb n 90)%bool then ascii_of_nat (n + 32) else c.

(** [String.prototype.toLowerCase], on ASCII letters. *)
Fixpoint toLowerCase (s : string) : string :=
  match s with
  | EmptyString => EmptyString
  | String c rest => String (lowerAscii c) (toLowerCase rest)
  end.

(** [s.split('.').pop()]: what follows the last dot, the whole string when
    there is none. *)
Fixpoint lastSegment (s : string) (current : string) : string :=
  match s with
  | EmptyString => current
  | String c rest =>
      if Ascii.eqb c "."%char then lastSegment rest EmptyString
      else lastSegment rest (current +:+ String c EmptyString)
  end.

Definition extensionOf (filename : string) : string :=
  toLowerCase (lastSegment filename EmptyString).

Fixpoint containsDot (s : string) : bool :=
  match s with
  | EmptyString => false
  | String c rest => Ascii.eqb c "."%char || containsDot rest
  end.

(** [/\.(txt|log|json|xml|html|css|js)$/i.test(filename)] *)
Definition textExtension (filename : string) : bool :=
  containsDot filename &&
  existsb (String.eqb (extensionOf filename))
          ["txt"; "log"; "json"; "xml"; "html"; "css"; "js"]%string.

(** A non-empty string is truthy. *)
Definition truthy (s : string) : bool :=
  match s with EmptyString => false | _ => true end.

(** What [typeMismatches[extension]] evaluates to: a listed type, a member
    inherited from [Object.prototype] (truthy, equal to no string), or
    [undefined]. *)
Inductive Lookup : Type :=
  | Listed (expectedType : string)
  | Inherited
  | Undefined.

Definition typeMismatches (extension : string) : Lookup :=
  if String.eqb extension "jpg" then Listed "image/jpeg"
  else if String.eqb extension "jpeg" then Listed "image/jpeg"
  else if String.eqb extension "png" then Listed "image/png"
  else if String.eqb extension "gif" then Listed "image/gif"
  else if String.eqb extension "pdf" then Listed "application/pdf"
  else if String.eqb extension "zip" then Listed "application/zip"
  else if String.eqb extension "exe" then Listed "application/x-msdownload"
  else if String.eqb extension "dll" then Listed "application/x-msdownload"
  else if String.eqb extension "constructor" then Inherited
  else if String.eqb extension "__proto__" then Inherited
  else Undefined.

(** ** Repeated patterns *)

Inductive LoopExit : Type :=
  | Returned (answer : bool)
  | Completed (matches totalChecked : Z).

(** The values of [i] in
    [for (i = patternLen; i < buffer.length - patternLen; i += patternLen)]. *)
Definition chunkStarts (patternLen len : nat) : list nat :=
  List.filter (fun i => Nat.ltb (i + patternLen) len)
         (map (fun k => (k * patternLen)%nat) (seq 1 len)).

Fixpoint patternLoop (buffer pattern : Buffer) (patternLen : nat)
    (starts : list nat) (matches totalChecked : Z) : LoopExit :=
  match starts with
  | [] => Completed matches totalChecked
  | i :: rest =>
      let chunk := slice buffer i (i + patternLen) in
      let totalChecked := totalChecked + 1 in
      if bufferEquals chunk pattern then
        let matches := matches + 1 in
        if (3 <? matches) && Qgtb (ratio matches totalChecked) (1 # 2)
        then Returned true
        else patternLoop buffer pattern patternLen rest matches totalChecked
      else if 5 <? matches then Returned true
      else patternLoop buffer pattern patternLen rest 0 totalChecked
  end.

Fixpoint repeatedFor (buffer : Buffer) (patternLens : list nat) : bool :=
  match patternLens with
  | [] => false
  | patternLen :: rest =>
      if Nat.ltb (length buffer) (patternLen * 3) then repeatedFor buffer rest
      else
        let pattern := slice buffer 0 patternLen in
        match patternLoop buffer pattern patternLen
                (chunkStarts patternLen (length buffer)) 0 0 with
        | Returned answer => answer
        | Completed matches totalChecked =>
            if (10 <? matches) && (0 <? totalChecked)
               && Qgtb (ratio matches totalChecked) (2 # 5)
            then true
            else repeatedFor buffer rest
        end
  end.

Definition countByte (buffer : Buffer) (byte : Z) : Z :=
  Z.of_nat (length (List.filter (Z.eqb byte) buffer)).

Definition checkRepeatedPattern (buffer : Buffer) : bool :=
  if blen buffer <? 8 then false
  else if repeatedFor buffer [1; 2; 3; 4]%nat then true
  else if 20 <? blen buffer then
    Qgtb (ratio (countByte buffer (byteAt buffer 0)) (blen buffer)) (7 # 10)
  else false.

(** ** Collaborators outside the module *)

(** [getEntropyFeatures] of [utils/entropy.js]. *)
Record EntropyFeatures : Type := mkEntropyFeatures {
  ef_entropy : R;
  entropy_variance : R;
  entropy_ratio : R
}.

(** [sharp(buffer).metadata()]; a missing dimension is [None]. *)
Record Metadata : Type := mkMetadata {
  width : option Z;
  height : option Z
}.

(** [!x] on an optional number. *)
Definition missing (x : option Z) : bool :=
  match x with
  | None => true
  | Some n => n =? 0
  end.

(** The file-feature record sent to the anomaly service. *)
Record FileFeatures : Type := mkFileFeatures {
  file_size : Z;
  file_entropy : R;
  file_type_risk : R;
  encryption_strength : Z;
  upload_duration : R;
  compression_ratio : R;
  metadata_anomaly : R;
  transfer_speed : R;
  packet_loss : R;
  concurrent_uploads : Z
}.

Record IdsResult : Type := mkIdsResult {
  anomaly_score : R;
  verdict : string;
  error : option string
}.

(** The functions the module imports and does not define: the entropy
    features, the three format parsers and the anomaly service. A parser or
    the service that throws returns [inl] of the error message. *)
Record Externals : Type := mkExternals {
  getEntropyFeatures : Buffer -> EntropyFeatures;
  sharpMetadata : Buffer -> string + Metadata;
  (** [pdfParse(buffer)]: the page count of the parsed data, if any *)
  pdfParse : Buffer -> string + option Z;
  (** [new AdmZip(buffer)] and [getEntries()]: the number of entries and
      the error of [entries[0].getData()], if it throws *)
  admZip : Buffer -> string + (nat * option string);
  (** [callIDS('/predict/file', features)] *)
  callIDS : FileFeatures -> string + (R * string)
}.

Section FileValidation.

Variable ext : Externals.

(** ** Corruption heuristics *)

Record CorruptionCheck : Type := mkCorruptionCheck {
  cc_isCorrupted : bool;
  cc_issues : list Issue;
  cc_entropy : R;
  cc_detectedType : option string
}.

Definition nullByteIssues (buffer : Buffer) (filename : string)
  : list Issue :=
  if truthy filename && textExtension filename then
    if existsb (Z.eqb 0) buffer && (blen buffer <? 10000)
    then [Text "Contains null bytes (possible corruption)"]
    else []
  else [].

Definition repeatedPatternIssues (buffer : Buffer) : list Issue :=
  if 20 <? blen buffer then
    let sampleSize := Z.min 1000 (blen buffer) in
    let sample := slice buffer 0 (Z.to_nat sampleSize) in
    if checkRepeatedPattern sample
    then [Text "Suspicious repeated pattern detected (possible corruption or padding)"]
    else []
  else [].

Definition nullRatioIssues (buffer : Buffer) : list Issue :=
  if 50 <? blen buffer then
    let nullByteCount := countByte buffer 0 in
    let nullByteRatio := ratio nullByteCount (blen buffer) in
    if Qgtb nullByteRatio (1 # 5)
    then [NullByteConcentration nullByteRatio]
    else []
  else [].

Definition startsWith (s pre : string) : bool := String.prefix pre s.

Definition entropyIssues (buffer : Buffer) : list Issue :=
  let entropyFeatures := getEntropyFeatures ext buffer in
  (if Rgtb (ef_entropy entropyFeatures) 7.8 && (512 <? blen buffer)
   then [ExtremelyHighEntropy (ef_entropy entropyFeatures)] else [])
  ++
  (if Rltb (ef_entropy entropyFeatures) 2.5 && (500 <? blen buffer) then
     match detectFileType buffer with
     | Some detectedType =>
         if negb (startsWith detectedType "text/")
            && negb (String.eqb detectedType "application/octet-stream")
         then [UnusuallyLowEntropy (ef_entropy entropyFeatures) detectedType]
         else []
     | None => []
     end
   else [])
  ++
  (if Rgtb (entropy_variance entropyFeatures) 2.0 && (1000 <? blen buffer)
   then [HighEntropyVariance (entropy_variance entropyFeatures)] else []).

Definition detectCorruption (buffer : Buffer) (filename : string)
  : CorruptionCheck :=
  let issues :=
    nullByteIssues buffer filename ++ repeatedPatternIssues buffer
    ++ nullRatioIssues buffer ++ entropyIssues buffer in
  mkCorruptionCheck
    (negb (Nat.eqb (length issues) 0))
    issues
    (ef_entropy (getEntropyFeatures ext buffer))
    (detectFileType buffer).

(** ** Format parsers *)

(** The [try { sharp(buffer).metadata() } catch] block shared by the three
    image branches. *)
Definition sharpIssues (buffer : Buffer) (format : string) : list Issue :=
  match sharpMetadata ext buffer with
  | inr metadata =>
      if missing (width metadata) || missing (height metadata)
      then [Text (format +:+ " has invalid dimensions")]
      else []
  | inl message => [Text (format +:+ " parse error: " +:+ message)]
  end.

Definition validateImage (buffer : Buffer) (detectedType : string)
  : list Issue :=
  (if String.eqb detectedType "image/jpeg"
      || String.eqb detectedType "image/jpg" then
     (if 10 <? blen buffer then
        let lastBytes := sliceLast buffer 2 in
        if negb (byteAt lastBytes 0 =? 0xFF)
           || negb (byteAt lastBytes 1 =? 0xD9)
        then [Text "JPEG file appears truncated (missing end marker)"]
        else []
      else [])
     ++ sharpIssues buffer "JPEG"
   else [])
  ++
  (if String.eqb detectedType "image/png" then
     (if 8 <? blen buffer then
        let iendMarker := [0x49; 0x45; 0x4E; 0x44; 0xAE; 0x42; 0x60; 0x82] in
        let endsWithIEND := bufferEquals (sliceLast buffer 8) iendMarker in
        if negb endsWithIEND then
          let pngStart := slice buffer 0 8 in
          let validPngStart :=
            [0x89; 0x50; 0x4E; 0x47; 0x0D; 0x0A; 0x1A; 0x0A] in
          if bufferEquals pngStart validPngStart
          then [Text "PNG file may be truncated or corrupted"]
          else []
        else []
      else [])
     ++ sharpIssues buffer "PNG"
   else [])
  ++
  (if String.eqb detectedType "image/gif"
   then sharpIssues buffer "GIF"
   else []).

Definition validatePDF (buffer : Buffer) : list Issue :=
  match pdfParse ext buffer with
  | inr numpages =>
      if missing numpages
      then [Text "PDF has no pages or invalid structure"]
      else []
  | inl message => [Text ("PDF parse error: " +:+ message)]
  end.

Definition validateZIP (buffer : Buffer) : list Issue :=
  match admZip ext buffer with
  | inr (entries, firstEntry) =>
      (if Nat.eqb entries 0 then [Text "ZIP file is empty"] else [])
      ++
      (if Nat.ltb 0 entries then
         match firstEntry with
         | Some message => [Text ("ZIP entry read error: " +:+ message)]
         | None => []
         end
       else [])
  | inl message => [Text ("ZIP parse error: " +:+ message)]
  end.

(** ** Structure *)

Definition extensionIssues (detectedType : option string)
    (filename : string) : list Issue :=
  let extension := extensionOf filename in
  match detectedType with
  | Some detected =>
      if truthy detected && truthy extension then
        let mismatch :=
          match typeMismatches extension with
          | Listed expectedType => negb (String.eqb detected expectedType)
          | Inherited => true
          | Undefined => false
          end in
        if mismatch && negb (String.eqb detected "application/octet-stream")
        then [Text ("File extension (." +:+ extension
                    +:+ ") does not match detected type (" +:+ detected
                    +:+ ")")]
        else []
      else []
  | None => []
  end.

Definition checkFileStructure (buffer : Buffer) (filename : string)
  : list Issue :=
  if negb (truthy filename) then []
  else
    let detectedType := detectFileType buffer in
    extensionIssues detectedType filename
    ++
    match detectedType with
    | Some detected =>
        (if startsWith detected "image/"
         then validateImage buffer detected else [])
        ++
        (if String.eqb detected "application/pdf"
         then validatePDF buffer else [])
        ++
        (if String.eqb detected "application/zip"
         then validateZIP buffer else [])
    | None => []
    end.

(** ** The assessment *)

Record Validation : Type := mkValidation {
  isValid : bool;
  isCorrupted : bool;
  isSuspicious : bool;
  riskScore : R;
  issues : list Issue;
  detectedType : option string;
  entropy : R;
  recommendations : list string;
  (** set only once the criticality has been computed *)
  criticalityLevel : option Z
}.

Definition validateFile (buffer : Buffer) (filename : string)
    (originalMimeType : string) : Validation :=
  match buffer with
  | [] =>
      mkValidation false false false 0%R [Text "File is empty"] None 0%R []
                   None
  | _ =>
      let corruptionCheck := detectCorruption buffer filename in
      let structureIssues := checkFileStructure buffer filename in
      let isCorrupted1 :=
        if Nat.ltb 0 (length structureIssues) then true
        else cc_isCorrupted corruptionCheck in
      let criticality :=
        classifyFileCriticality buffer filename originalMimeType in
      let issues :=
        cc_issues corruptionCheck ++ structureIssues
        ++ reasons criticality in
      if 2 <=? level criticality then
        mkValidation false true true (c_riskScore criticality) issues
          (detectFileType buffer) (c_entropy criticality)
          ["File should be rejected due to high criticality level"]%string
          (Some (level criticality))
      else if level criticality =? 1 then
        mkValidation true isCorrupted1 true (c_riskScore criticality) issues
          (detectFileType buffer) (c_entropy criticality)
          ["File has minor anomalies – treat with caution"]%string
          (Some (level criticality))
      else
        mkValidation true isCorrupted1 false (c_riskScore criticality) issues
          (detectFileType buffer) (c_entropy criticality) []
          (Some (level criticality))
  end.

End FileValidation.

(** ** The upload route *)

Record UploadedFile : Type := mkUploadedFile {
  buffer : option Buffer;
  size : Z;
  originalname : string;
  mimetype : string
}.

Record Request : Type := mkRequest {
  file : option UploadedFile;
  userId : string;
  ip : option string;
  remoteAddress : option string;
  (** [req.app.get('wss')]: the [readyState] of every connected client *)
  wss : option (list Z)
}.

(** The two shapes of [details] an alert is created with: by the
    criticality gate, and by the gate that follows the anomaly service. *)
Inductive AlertDetails : Type :=
  | CriticalityDetails (filename : string) (file_size : Z)
      (issues : list Issue) (detected_type : option string) (entropy : R)
      (risk_score : R) (blocked : bool) (reason : string)
      (isCorrupted isSuspicious isValid : bool)
  | IdsDetails (ids : IdsResult) (isCorrupted isSuspicious : bool)
      (riskScore : R) (issues : list Issue) (detectedType : option string)
      (filename : string) (file_size : Z) (blocked : bool) (reason : string).

Record Alert : Type := mkAlert {
  a_userId : string;
  severity : string;
  threat_type : string;
  confidence : R;
  source_ip : option string;
  ml_score : R;
  details : AlertDetails
}.

Record Transfer : Type := mkTransfer {
  t_userId : string;
  t_filename : string;
  t_size : Z;
  t_status : string;
  progress : Z;
  encryption_method : string;
  entropy_features : EntropyFeatures;
  ids_result : IdsResult
}.

(** What the route can change: the two collections, the requests that
    reached the anomaly service and the alerts pushed to open sockets. *)
Record Store : Type := mkStore {
  alerts : list Alert;
  transfers : list Transfer;
  idsRequests : list FileFeatures;
  wsMessages : list Alert
}.

Inductive Message : Type :=
  | Joined (issues : list Issue)
  | Fixed (text : string).

Inductive Body : Type :=
  | ErrorBody (error : string)
  | BlockedByCriticality (status : string) (issues : list Issue)
      (risk_score : R) (detected_type : option string) (entropy : R)
      (message : Message)
  | BlockedByIds (status : string) (ids : IdsResult) (issues : list Issue)
      (risk_score : R) (detected_type : option string) (message : Message)
  | Stored (doc : Transfer) (status : string) (details : IdsResult).

Record Response : Type := mkResponse {
  code : Z;
  body : Body
}.

(** [a || b] on optional strings. *)
Definition orElse (a b : option string) : option string :=
  match a with
  | Some s => if truthy s then a else b
  | None => b
  end.

Definition maxSize : Z := 100 * 1024 * 1024.

Section UploadRoute.

Variable ext : Externals.

Definition criticalityAlert (req : Request) (f : UploadedFile)
    (fileValidation : Validation) : Alert :=
  mkAlert (userId req)
    (if Rgtb (riskScore fileValidation) 0.7 then "critical" else "high")
    (if isCorrupted fileValidation then "CorruptedFile" else "SuspiciousFile")
    (Rmin (riskScore fileValidation) 1.0)
    (orElse (orElse (ip req) (remoteAddress req)) (Some "unknown"%string))
    (Rmin (riskScore fileValidation) 1.0)
    (CriticalityDetails (originalname f) (size f) (issues fileValidation)
       (detectedType fileValidation) (entropy fileValidation)
       (riskScore fileValidation) true
       (if isCorrupted fileValidation then "File appears corrupted"
        else "File has suspicious characteristics")
       (isCorrupted fileValidation) (isSuspicious fileValidation)
       (isValid fileValidation)).

(** The message goes to every client whose [readyState] is [OPEN]. *)
Definition broadcast (req : Request) (alert : Alert) : list Alert :=
  match wss req with
  | Some clients => map (fun _ => alert) (List.filter (Z.eqb 1) clients)
  | None => []
  end.

Definition fileFeaturesOf (f : UploadedFile) (buf : Buffer)
    (fileValidation : Validation) : FileFeatures :=
  let entropyFeatures := getEntropyFeatures ext buf in
  let fileTypeRisk := if isSuspicious fileValidation then 0.6%R else 0.2%R in
  let fileTypeRisk :=
    if Rgtb (riskScore fileValidation) 0.3 then 0.8%R else fileTypeRisk in
  mkFileFeatures (size f) (ef_entropy entropyFeatures) fileTypeRisk 256
    1.0%R (entropy_ratio entropyFeatures)
    (entropy_variance entropyFeatures + riskScore fileValidation * 10)%R
    (IZR (size f) / 1000)%R 0.0%R 1.

(** The [try { callIDS } catch] block: the result of the service combined
    with the local risk, or the stand-in result when the call throws. *)
Definition idsAnalysis (fileValidation : Validation)
    (fileFeatures : FileFeatures) : IdsResult :=
  match callIDS ext fileFeatures with
  | inr (score, label) =>
      if Rgtb (riskScore fileValidation) 0.3 then
        let combined := Rmax score (riskScore fileValidation) in
        mkIdsResult combined
          (if Rgtb combined 0.5 then "suspicious" else label) None
      else mkIdsResult score label None
  | inl _ =>
      if Rgtb (riskScore fileValidation) 0.3 then
        mkIdsResult (riskScore fileValidation) "suspicious"
          (Some "IDS service unavailable but file validation detected issues"%string)
      else
        mkIdsResult 0.8%R "suspicious" (Some "IDS service unavailable"%string)
  end.

Definition idsAlert (req : Request) (f : UploadedFile)
    (fileValidation : Validation) (idsResult : IdsResult) : Alert :=
  mkAlert (userId req) "high"
    (if isCorrupted fileValidation then "CorruptedFile" else "SuspiciousFile")
    (Rmax (anomaly_score idsResult) (riskScore fileValidation))
    (ip req)
    (Rmax (anomaly_score idsResult) (riskScore fileValidation))
    (IdsDetails idsResult (isCorrupted fileValidation)
       (isSuspicious fileValidation) (riskScore fileValidation)
       (issues fileValidation) (detectedType fileValidation)
       (originalname f) (size f) true
       (if isCorrupted fileValidation then "File appears corrupted"
        else "File flagged as suspicious by IDS and validation")).

(** The part of [uploadHandler] inside [try]. No collaborator of the model
    throws there except [callIDS], which has its own [catch]. *)
Definition decideUpload (req : Request) (f : UploadedFile) (buf : Buffer)
    (db : Store) : Response * Store :=
  let fileValidation := validateFile ext buf (originalname f) (mimetype f) in
  let criticalityLevel :=
    match criticalityLevel fileValidation with
    | Some l => l
    | None => 0
    end in
  let shouldReject := 2 <=? criticalityLevel in
  if shouldReject then
    let alert := criticalityAlert req f fileValidation in
    (mkResponse 403
       (BlockedByCriticality "corrupted" (issues fileValidation)
          (riskScore fileValidation) (detectedType fileValidation)
          (entropy fileValidation) (Joined (issues fileValidation))),
     mkStore (alerts db ++ [alert]) (transfers db) (idsRequests db)
             (wsMessages db ++ broadcast req alert))
  else
    let entropyFeatures := getEntropyFeatures ext buf in
    let fileFeatures := fileFeaturesOf f buf fileValidation in
    let idsResult := idsAnalysis fileValidation fileFeatures in
    if String.eqb (verdict idsResult) "suspicious"
       || isCorrupted fileValidation
       || Rgtb (riskScore fileValidation) 0.5
    then
      (mkResponse 403
         (BlockedByIds
            (if isCorrupted fileValidation then "corrupted" else "suspicious")
            idsResult (issues fileValidation) (riskScore fileValidation)
            (detectedType fileValidation)
            (if isCorrupted fileValidation
             then Joined (issues fileValidation)
             else Fixed "File was flagged as suspicious by intrusion detection system and was not stored")),
       mkStore (alerts db ++ [idsAlert req f fileValidation idsResult])
               (transfers db) (idsRequests db ++ [fileFeatures])
               (wsMessages db))
    else
      let doc :=
        mkTransfer (userId req) (originalname f) (size f) "completed" 100
                   "AES-GCM" entropyFeatures idsResult in
      (mkResponse 200 (Stored doc "normal" idsResult),
       mkStore (alerts db) (transfers db ++ [doc])
               (idsRequests db ++ [fileFeatures]) (wsMessages db)).

Definition uploadHandler (req : Request) (db : Store) : Response * Store :=
  match file req with
  | None => (mkResponse 400 (ErrorBody "No file provided"), db)
  | Some f =>
      match buffer f with
      | None => (mkResponse 400 (ErrorBody "File is empty or invalid"), db)
      | Some buf =>
          if blen buf =? 0
          then (mkResponse 400 (ErrorBody "File is empty or invalid"), db)
          else if maxSize <? size f
          then (mkResponse 400 (ErrorBody "File size exceeds 100MB limit"), db)
          else decideUpload req f buf db
      end
  end.

End UploadRoute.

(** ** Handshake sessions *)

Module Handshake.

(** [Handshakes/initHandshake.js], [Handshakes/validateHandshake.js] and
    [models/Handshake.js] are not among the sources: the route only imports
    them. This module follows sections 3, 4.1, 4.3 and 7 of the
    specification instead. *)

(** Modelled from the spec: raw key material, the missing
    [models/Handshake.js] leaving its representation open. *)
Definition Key := list Z.

(** Modelled from the spec: the five states of section 3. *)
Inductive SessionState : Type :=
  | INIT | PENDING | VALIDATED | FAILED | EXPIRED.

(** Modelled from the spec: the session record of section 3, in place of
    the missing [models/Handshake.js]. *)
Record HandshakeSession : Type := mkSession {
  clientPublicKey : Key;
  serverPublicKey : Key;
  serverPrivateKey : Key;
  state : SessionState;
  createdAt : Z;
  expiresAt : Z;
  derivedSessionKey : option Key
}.

(** Modelled from the spec: the handshake errors of section 7. *)
Inductive HandshakeError : Type :=
  | InvalidKeyMaterial
  | SessionNotFound
  | SessionExpired
  | InvalidSessionState.

(** Modelled from the spec: what [handshakeValidate] returns in section 6,
    the session key with the verdict, the suspicious result, or an error. *)
Inductive ValidateResult : Type :=
  | SessionKey (sessionKey : Key) (anomalyScore : option R) (label : string)
  | SuspiciousResult
  | Failure (e : HandshakeError).

(** Modelled from the spec: the two outcomes of the fusion decision. *)
Inductive Outcome : Type := ACCEPT | REJECT.

(** Modelled from the spec: the key agreement, the key derivation, the
    anomaly oracle and the constants of the fusion policy, which sections
    4.1 and 4.3 name and [Handshakes/validateHandshake.js] would fix. *)
Record Policy : Type := mkPolicy {
  wellFormed : Key -> bool;
  sharedSecret : Key -> Key -> Key;
  deriveKey : Key -> Key;
  (** the oracle on the features of a session at a time; [None] when it is
      unreachable or timed out *)
  oracle : HandshakeSession -> Z -> Key -> option (R * string);
  localProxy : HandshakeSession -> option Key -> R;
  conservativeFloor : R;
  acceptanceThreshold : R;
  timeout : Z
}.

(** Modelled from the spec: a state transition that sets or erases the
    derived key, as section 4.1 asks of the missing [validate]. *)
Definition setState (s : HandshakeSession) (st : SessionState)
    (key : option Key) : HandshakeSession :=
  mkSession (clientPublicKey s) (serverPublicKey s) (serverPrivateKey s) st
            (createdAt s) (expiresAt s) key.

Section Machine.

Variable policy : Policy.

(** Modelled from the spec: the fusion rule of section 4.3 for a handshake,
    which has no criticality level. *)
Definition fuse (proxy : R) (answer : option (R * string)) : Outcome :=
  match answer with
  | Some (score, label) =>
      if Rgtb (Rmax proxy score) (acceptanceThreshold policy)
         || String.eqb label "suspicious"
      then REJECT else ACCEPT
  | None =>
      if Rgtb (Rmax proxy (conservativeFloor policy))
              (acceptanceThreshold policy)
      then REJECT else ACCEPT
  end.

(** Modelled from the spec: [init] of section 4.1, the body of the missing
    [Handshakes/initHandshake.js], with the identifier and the server key
    pair drawn by the caller. *)
Definition init (now : Z) (handshakeId : string) (serverPublic serverPrivate
    clientPublic : Key) (sessions : gmap string HandshakeSession)
  : option (string * Key) * gmap string HandshakeSession :=
  if wellFormed policy clientPublic then
    (Some (handshakeId, serverPublic),
     <[handshakeId :=
         mkSession clientPublic serverPublic serverPrivate PENDING now
                   (now + timeout policy) None]> sessions)
  else (None, sessions).

(** Modelled from the spec: [validate] of section 4.1, the body of the
    missing [Handshakes/validateHandshake.js]. *)
Definition validate (now : Z) (handshakeId : string)
    (signature : option Key) (sessions : gmap string HandshakeSession)
  : ValidateResult * gmap string HandshakeSession :=
  match sessions !! handshakeId with
  | None => (Failure SessionNotFound, sessions)
  | Some s =>
      match state s with
      | PENDING =>
          if expiresAt s <=? now then
            (Failure SessionExpired,
             <[handshakeId := setState s EXPIRED None]> sessions)
          else
            let secret :=
              sharedSecret policy (serverPrivateKey s) (clientPublicKey s) in
            let key := deriveKey policy secret in
            let answer := oracle policy s now key in
            match fuse (localProxy policy s signature) answer with
            | REJECT =>
                (SuspiciousResult,
                 <[handshakeId := setState s FAILED None]> sessions)
            | ACCEPT =>
                (SessionKey key (fst <$> answer)
                   (match answer with
                    | Some (_, label) => label
                    | None => "unavailable"
                    end),
                 <[handshakeId := setState s VALIDATED (Some key)]> sessions)
            end
      | EXPIRED => (Failure SessionExpired, sessions)
      | _ => (Failure InvalidSessionState, sessions)
      end
  end.

(** Modelled from the spec: a run of calls of the missing [validate] on
    one session, oldest first. *)
Fixpoint validateAll (calls : list (Z * option Key)) (handshakeId : string)
    (sessions : gmap string HandshakeSession)
  : list ValidateResult * gmap string HandshakeSession :=
  match calls with
  | [] => ([], sessions)
  | (now, signature) :: rest =>
      let '(r, sessions1) := validate now handshakeId signature sessions in
      let '(rs, sessions2) := validateAll rest handshakeId sessions1 in
      (r :: rs, sessions2)
  end.

End Machine.

(** Modelled from the spec: whether a result of the missing [validate]
    hands a session key to the caller. *)
Definition released (r : ValidateResult) : bool :=
  match r with
  | SessionKey _ _ _ => true
  | _ => false
  end.

End Handshake.

(** ** The alert routes *)

Module AlertsApi.

(** A document of the alert collection: what [Alert.create] was given,
    with the identifier, the creation time and the [resolved] flag the
    collection keeps for it. *)
Record AlertDoc : Type := mkAlertDoc {
  doc_id : string;
  createdAt : Z;
  resolved : bool;
  fields : Alert
}.

(** The object the routes answer with for one alert. *)
Record AlertJson : Type := mkAlertJson {
  id : string;
  user_id : string;
  j_severity : string;
  j_threat_type : string;
  j_confidence : R;
  j_source_ip : option string;
  created_at : Z;
  j_resolved : bool;
  j_ml_score : R;
  j_details : AlertDetails
}.

Definition toJson (a : AlertDoc) : AlertJson :=
  mkAlertJson (doc_id a) (a_userId (fields a)) (severity (fields a))
    (threat_type (fields a)) (confidence (fields a)) (source_ip (fields a))
    (createdAt a) (resolved a) (ml_score (fields a)) (details (fields a)).

(** The filter [{ userId: req.user.id }]. *)
Definition owns (userId : string) (a : AlertDoc) : bool :=
  String.eqb (a_userId (fields a)) userId.

(** The filter [{ _id: req.params.id, userId: req.user.id }]. *)
Definition selects (alertId userId : string) (a : AlertDoc) : bool :=
  String.eqb (doc_id a) alertId && owns userId a.

(** [.sort({ createdAt: -1 })], as an insertion sort; documents created at
    the same time keep the order of the collection. *)
Fixpoint insertNewest (a : AlertDoc) (sorted : list AlertDoc)
  : list AlertDoc :=
  match sorted with
  | [] => [a]
  | b :: rest =>
      if createdAt b <=? createdAt a then a :: b :: rest
      else b :: insertNewest a rest
  end.

Fixpoint newestFirst (docs : list AlertDoc) : list AlertDoc :=
  match docs with
  | [] => []
  | a :: rest => insertNewest a (newestFirst rest)
  end.

(** [updateOne(filter, { $set: { resolved: true } })]: the first document
    the filter selects is updated. *)
Fixpoint resolveFirst (select : AlertDoc -> bool) (docs : list AlertDoc)
  : list AlertDoc :=
  match docs with
  | [] => []
  | a :: rest =>
      if select a
      then mkAlertDoc (doc_id a) (createdAt a) true (fields a) :: rest
      else a :: resolveFirst select rest
  end.

(** What a route does: it answers, it answers 404, or its query throws and
    no answer is sent. *)
Inductive Reply (A : Type) : Type :=
  | Answer (value : A)
  | NotFound
  | Thrown.

Arguments Answer {A} value.
Arguments NotFound {A}.
Arguments Thrown {A}.

Section Routes.

(** Whether the collection can read a path parameter as an identifier; a
    query on [_id] throws when it cannot. *)
Variable castsToObjectId : string -> bool.

(** [GET /alerts] *)
Definition getAlerts (userId : string) (docs : list AlertDoc)
  : list AlertJson :=
  map toJson (firstn 100 (newestFirst (List.filter (owns userId) docs))).

(** [GET /alerts/:id] *)
Definition getAlertById (alertId userId : string) (docs : list AlertDoc)
  : Reply AlertJson :=
  if castsToObjectId alertId then
    match List.find (selects alertId userId) docs with
    | Some a => Answer (toJson a)
    | None => NotFound
    end
  else Thrown.

(** [PATCH /alerts/:id/resolve]: the answer [{ ok: true }] and the
    collection it leaves. *)
Definition resolveAlert (alertId userId : string) (docs : list AlertDoc)
  : Reply bool * list AlertDoc :=
  if castsToObjectId alertId
  then (Answer true, resolveFirst (selects alertId userId) docs)
  else (Thrown, docs).

End Routes.

End AlertsApi.

(** ** Vocabulary of the statements *)

(** The number of bytes a table of counts accounts for. *)
Definition countsTotal (counts : list (Z * Z)) : Z :=
  fold_right Z.add 0 (map snd counts).

(** [Buffer.from(text)] on ASCII text. *)
Definition bytesOf (text : string) : Buffer :=
  map (fun c => Z.of_nat (nat_of_ascii c)) (list_ascii_of_string text).

(** ** Sample inputs *)

(** Collaborators for the samples: entropy features that agree with the
    classifier, parsers that reject what they are given, and an anomaly
    service that answers [(score, label)]. *)
Definition sampleFeatures (buffer : Buffer) : EntropyFeatures :=
  mkEntropyFeatures (calculateShannonEntropy buffer) 0
                    (calculateShannonEntropy buffer / 8).

Definition answering (score : R) (label : string) : Externals :=
  mkExternals sampleFeatures
    (fun _ => inl "Input buffer contains unsupported image format"%string)
    (fun _ => inl "pdfParse is not a function"%string)
    (fun _ => inl "Invalid or unsupported zip format"%string)
    (fun _ => inr (score, label)).

(** The same collaborators with the anomaly service down. *)
Definition unreachable : Externals :=
  mkExternals sampleFeatures
    (fun _ => inl "Input buffer contains unsupported image format"%string)
    (fun _ => inl "pdfParse is not a function"%string)
    (fun _ => inl "Invalid or unsupported zip format"%string)
    (fun _ => inl "connect ECONNREFUSED"%string).

(** 64 bytes that open with the JPEG signature [FF D8 FF] and do not close
    with [FF D9]: 32 byte values, each twice. *)
Definition truncatedJpeg : Buffer :=
  [0xFF; 0xD8; 0xFF; 0xD8]
  ++ flat_map (fun b => [b; b]) (map Z.of_nat (seq 1 30)).

(** 32 different bytes, no signature. *)
Definition plainBinary : Buffer := map Z.of_nat (seq 1 32).

(** 32 bytes: eight values twice, sixteen values once. *)
Definition boundaryBinary : Buffer :=
  flat_map (fun b => [b; b]) (map Z.of_nat (seq 1 8))
  ++ map Z.of_nat (seq 9 16).

(** The 39 bytes of a one-line text file. *)
Definition validText : Buffer :=
  bytesOf "This is a valid text file for testing." ++ [10].

Definition emptyStore : Store := mkStore [] [] [] [].

Definition uploadOf (buf : Buffer) (name mime : string) : Request :=
  mkRequest (Some (mkUploadedFile (Some buf) (blen buf) name mime))
            "user-1" (Some "127.0.0.1"%string) None None.

(** ** What an alert carries *)

Definition alertIssues (a : Alert) : list Issue :=
  match details a with
  | CriticalityDetails _ _ issues _ _ _ _ _ _ _ _ => issues
  | IdsDetails _ _ _ _ issues _ _ _ _ _ => issues
  end.

Definition alertDetectedType (a : Alert) : option string :=
  match details a with
  | CriticalityDetails _ _ _ detected _ _ _ _ _ _ _ => detected
  | IdsDetails _ _ _ _ _ detected _ _ _ _ => detected
  end.

Definition alertEntropy (a : Alert) : option R :=
  match details a with
  | CriticalityDetails _ _ _ _ entropy _ _ _ _ _ _ => Some entropy
  | IdsDetails _ _ _ _ _ _ _ _ _ _ => None
  end.

Definition alertIds (a : Alert) : option IdsResult :=
  match details a with
  | CriticalityDetails _ _ _ _ _ _ _ _ _ _ _ => None
  | IdsDetails ids _ _ _ _ _ _ _ _ _ => Some ids
  end.

(** ** The fusion rule in the words of the specification *)

(** [REJECT] when the combined score crosses the threshold, or the level is
    at least 2, or the label of the oracle is the suspicious one. *)
Definition specReject (threshold localProxy oracleScore : R) (level : Z)
    (label : string) : Prop :=
  (Rmax localProxy oracleScore > threshold)%R
  \/ 2 <= level
  \/ label = "suspicious"%string.

(** The same rule when the call to the oracle failed: the floor stands for
    the score of the oracle, and there is no label. *)
Definition specRejectOnFailure (threshold floor localProxy : R) (level : Z)
  : Prop :=
  (Rmax localProxy floor > threshold)%R \/ 2 <= level.

(** A handshake policy and a pending session for the samples. *)
Definition samplePolicy : Handshake.Policy :=
  Handshake.mkPolicy
    (fun key => Nat.eqb (length key) 32)
    (fun private public => map (fun p => Z.lxor (fst p) (snd p))
                               (combine private public))
    (fun secret => rev secret)
    (fun _ _ _ => Some (0.1%R, "normal"%string))
    (fun _ _ => 0%R)
    0.8%R 0.5%R 300.

Definition sampleSessions : gmap string Handshake.HandshakeSession :=
  <["hs-1"%string :=
      Handshake.mkSession (repeat 7 32) (repeat 9 32) (repeat 5 32)
        Handshake.PENDING 0 300 None]> ∅.

(** What a table of counts records for one byte value. *)
Definition tally (counts : list (Z * Z)) (byte : Z) : Z :=
  fold_right (fun kv sum => if fst kv =? byte then snd kv + sum else sum)
             0 counts.

(** The number of different byte values in a buffer: the size of the table
    of counts. *)
Definition distinctBytes (buffer : Buffer) : nat :=
  length (byteCounts buffer).

(** The sum of a list of counts, as a real number. *)
Definition sumCounts (counts : list Z) : R :=
  fold_right (fun c sum => (IZR c + sum)%R) 0%R counts.

(** Half the distance from 1 to the next binary64: the largest relative
    error of one rounding. *)
Definition unitRoundoff : R := pow2 (-53).

(** The term [- p log2 p] and the entropy of a table of counts in exact
    arithmetic, which the loop approximates. *)
Definition exactTerm (p : R) : R := (- (p * log2 p))%R.

Definition exactEntropy (len : R) (counts : list Z) : R :=
  fold_right (fun c sum => (exactTerm (IZR c / len) + sum)%R) 0%R counts.

(** ** Helpers of the module that no function calls *)

(** [extensionRisk]: 3, 2, 0 or 1 by the extension of the name. *)
Definition extensionRisk (filename : string) : Z :=
  let ext :=
    toLowerCase
      (if containsDot filename
       then "." +:+ lastSegment filename EmptyString
       else EmptyString) in
  let highRisk :=
    [".exe"; ".bat"; ".cmd"; ".sh"; ".dll"; ".bin"; ".scr"; ".enc"; ".dat";
     ".tmp"; ".raw"]%string in
  let mediumRisk := [".pdf"; ".zip"; ".rar"; ".7z"]%string in
  let lowRisk := [".png"; ".jpg"; ".jpeg"; ".txt"]%string in
  if existsb (String.eqb ext) highRisk then 3
  else if existsb (String.eqb ext) mediumRisk then 2
  else if existsb (String.eqb ext) lowRisk then 0
  else 1.

(** Whether [marker] opens [buffer]. *)
Fixpoint opensWith (buffer marker : Buffer) : bool :=
  match marker, buffer with
  | [], _ => true
  | m :: marker', b :: buffer' => (b =? m) && opensWith buffer' marker'
  | _ :: _, [] => false
  end.

(** [buffer.includes(marker)] *)
Fixpoint bufferIncludes (buffer marker : Buffer) : bool :=
  opensWith buffer marker
  || match buffer with
     | [] => false
     | _ :: rest => bufferIncludes rest marker
     end.

(** [hasMalformedHeader] *)
Definition hasMalformedHeader (buffer : Buffer) (filename : string) : bool :=
  if blen buffer <? 8 then false
  else if (byteAt buffer 0 =? 0x89) && (byteAt buffer 1 =? 0x50)
          && (byteAt buffer 2 =? 0x4e) && (byteAt buffer 3 =? 0x47)
          && negb (bufferIncludes buffer (bytesOf "IEND"))
  then true
  else if (byteAt buffer 0 =? 0xff) && (byteAt buffer 1 =? 0xd8)
          && ((blen buffer <? 2)
              || negb (byteAt buffer (length buffer - 2) =? 0xff)
              || negb (byteAt buffer (length buffer - 1) =? 0xd9))
  then true
  else if (byteAt buffer 0 =? 0x25) && (byteAt buffer 1 =? 0x50)
          && (byteAt buffer 2 =? 0x44) && (byteAt buffer 3 =? 0x46)
          && negb (bufferIncludes buffer (bytesOf "%%EOF"))
  then true
  else false.

(** The number of sockets that are open when the route runs. *)
Definition openClients (req : Request) : nat :=
  match wss req with
  | Some clients => length (List.filter (Z.eqb 1) clients)
  | None => 0%nat
  end.

(** One alert is listed before another when it is no older. *)
Definition newerFirst (a b : AlertsApi.AlertDoc) : Prop :=
  AlertsApi.createdAt b <= AlertsApi.createdAt a.

(** The answer for an alert once it is resolved. *)
Definition markResolved (j : AlertsApi.AlertJson) : AlertsApi.AlertJson :=
  AlertsApi.mkAlertJson (AlertsApi.id j) (AlertsApi.user_id j)
    (AlertsApi.j_severity j) (AlertsApi.j_threat_type j)
    (AlertsApi.j_confidence j) (AlertsApi.j_source_ip j)
    (AlertsApi.created_at j) true (AlertsApi.j_ml_score j)
    (AlertsApi.j_details j).

(** A small collection: two alerts of one user around one of another. *)
Definition sampleAlert (user : string) : Alert :=
  mkAlert user "high" "SuspiciousFile" 1 (Some "unknown"%string) 1
    (CriticalityDetails "a.bin" 3 [] None 0 4 true
       "File has suspicious characteristics" false true false).

Definition sampleAlerts : list AlertsApi.AlertDoc :=
  [ AlertsApi.mkAlertDoc "a1" 10 false (sampleAlert "alice");
    AlertsApi.mkAlertDoc "b1" 20 false (sampleAlert "bob");
    AlertsApi.mkAlertDoc "a2" 30 false (sampleAlert "alice") ].

Definition everyId (alertId : string) : bool := true.

(** * Properties *)

(** ** Comparisons *)

Lemma Rltb_true (x y : R) : (x < y)%R -> Rltb x y = true.
Proof. intros H. unfold Rltb. destruct (Rlt_dec x y); [reflexivity | lra]. Qed.

Lemma Rltb_false (x y : R) : (y <= x)%R -> Rltb x y = false.
Proof. intros H. unfold Rltb. destruct (Rlt_dec x y); [lra | reflexivity]. Qed.

Lemma Rgtb_true (x y : R) : (x > y)%R -> Rgtb x y = true.
Proof. intros H. unfold Rgtb. destruct (Rgt_dec x y); [reflexivity | lra]. Qed.

Lemma Rgtb_false (x y : R) : (x <= y)%R -> Rgtb x y = false.
Proof. intros H. unfold Rgtb. destruct (Rgt_dec x y); [lra | reflexivity]. Qed.

Lemma Rgtb_iff (x y : R) : Rgtb x y = true <-> (x > y)%R.
Proof.
  unfold Rgtb. destruct (Rgt_dec x y); split; intros; try discriminate;
    try reflexivity; try assumption; lra.
Qed.

Lemma Rgeb_true (x y : R) : (x >= y)%R -> Rgeb x y = true.
Proof. intros H. unfold Rgeb. destruct (Rge_dec x y); [reflexivity | lra]. Qed.

Lemma Rgeb_false (x y : R) : (x < y)%R -> Rgeb x y = false.
Proof. intros H. unfold Rgeb. destruct (Rge_dec x y); [lra | reflexivity]. Qed.

Lemma Reqb_true (x y : R) : x = y -> Reqb x y = true.
Proof.
  intros H. unfold Reqb. destruct (Req_dec_T x y); [reflexivity | contradiction].
Qed.

Lemma Reqb_false (x y : R) : x <> y -> Reqb x y = false.
Proof.
  intros H. unfold Reqb. destruct (Req_dec_T x y); [contradiction | reflexivity].
Qed.

(** ** Logarithms in base two *)

Lemma ln2_pos : (0 < ln 2)%R.
Proof. pose proof ln_lt_2. lra. Qed.

Lemma log2_1 : log2 1 = 0%R.
Proof. unfold log2. rewrite ln_1. pose proof ln2_pos. field. lra. Qed.

Lemma log2_pow2 (n : nat) : log2 (2 ^ n) = INR n.
Proof.
  unfold log2. rewrite ln_pow by lra. pose proof ln2_pos. field. lra.
Qed.

Lemma log2_div (x y : R) :
  (0 < x)%R -> (0 < y)%R -> log2 (x / y) = (log2 x - log2 y)%R.
Proof.
  intros Hx Hy. unfold log2, Rdiv.
  rewrite ln_mult by (try assumption; apply Rinv_0_lt_compat; assumption).
  rewrite ln_Rinv by assumption. pose proof ln2_pos. field. lra.
Qed.

Lemma log2_nonpos (p : R) : (0 < p <= 1)%R -> (log2 p <= 0)%R.
Proof.
  intros [Hp Hle]. unfold log2. pose proof ln2_pos as H2.
  assert (ln p <= 0)%R as Hln.
  { destruct Hle as [Hlt | ->]; [| rewrite ln_1; lra].
    pose proof (ln_increasing p 1 Hp Hlt) as H. rewrite ln_1 in H. lra. }
  apply Rmult_le_reg_r with (ln 2); [assumption |].
  unfold Rdiv. rewrite Rmult_assoc, Rinv_l by lra. lra.
Qed.

(** [p / q < log2 a] as soon as [2 ^ p < a ^ q]. *)
Lemma log2_above (a : R) (p q : nat) :
  (0 < a)%R -> (0 < q)%nat -> (2 ^ p < a ^ q)%R ->
  (INR p / INR q < log2 a)%R.
Proof.
  intros Ha Hq Hlt. pose proof ln2_pos as H2.
  assert (0 < INR q)%R as Hq' by (apply lt_0_INR; assumption).
  assert (ln (2 ^ p) < ln (a ^ q))%R as Hln.
  { apply ln_increasing; [apply pow_lt; lra | assumption]. }
  rewrite !ln_pow in Hln by lra. unfold log2.
  apply Rmult_lt_reg_r with (INR q * ln 2)%R; [nra |].
  replace (INR p / INR q * (INR q * ln 2))%R with (INR p * ln 2)%R
    by (field; lra).
  replace (ln a / ln 2 * (INR q * ln 2))%R with (INR q * ln a)%R
    by (field; lra).
  assumption.
Qed.

(** [log2 a < p / q] as soon as [a ^ q < 2 ^ p]. *)
Lemma log2_below (a : R) (p q : nat) :
  (0 < a)%R -> (0 < q)%nat -> (a ^ q < 2 ^ p)%R ->
  (log2 a < INR p / INR q)%R.
Proof.
  intros Ha Hq Hlt. pose proof ln2_pos as H2.
  assert (0 < INR q)%R as Hq' by (apply lt_0_INR; assumption).
  assert (ln (a ^ q) < ln (2 ^ p))%R as Hln.
  { apply ln_increasing; [apply pow_lt; lra | assumption]. }
  rewrite !ln_pow in Hln by lra. unfold log2.
  apply Rmult_lt_reg_r with (INR q * ln 2)%R; [nra |].
  replace (INR p / INR q * (INR q * ln 2))%R with (INR p * ln 2)%R
    by (field; lra).
  replace (ln a / ln 2 * (INR q * ln 2))%R with (INR q * ln a)%R
    by (field; lra).
  assumption.
Qed.

(** ** Powers of two *)

Lemma pow2_pos (e : Z) : (0 < pow2 e)%R.
Proof. apply powerRZ_lt. lra. Qed.

Lemma pow2_add (a b : Z) : pow2 (a + b) = (pow2 a * pow2 b)%R.
Proof. apply powerRZ_add. lra. Qed.

Lemma pow2_exp (e : Z) : pow2 e = exp (IZR e * ln 2).
Proof.
  unfold pow2. rewrite powerRZ_Rpower by lra. reflexivity.
Qed.

Lemma pow2_le (a b : Z) : a <= b -> (pow2 a <= pow2 b)%R.
Proof.
  intros H. rewrite !pow2_exp.
  destruct (Z.eq_dec a b) as [-> | Hne]; [lra |].
  left. apply exp_increasing. apply Rmult_lt_compat_r; [apply ln2_pos |].
  apply IZR_lt. lia.
Qed.

Lemma pow2_lt (a b : Z) : a < b -> (pow2 a < pow2 b)%R.
Proof.
  intros H. rewrite !pow2_exp.
  apply exp_increasing. apply Rmult_lt_compat_r; [apply ln2_pos |].
  apply IZR_lt. lia.
Qed.

Lemma pow2_lt_inv (a b : Z) : (pow2 a < pow2 b)%R -> a < b.
Proof.
  intros H. destruct (Z_lt_le_dec a b) as [Hlt | Hle]; [exact Hlt |].
  pose proof (pow2_le b a Hle). lra.
Qed.

Lemma pow2_IZR (n : Z) : 0 <= n -> pow2 n = IZR (2 ^ n).
Proof.
  intros H. unfold pow2. rewrite <- (Z2Nat.id n H) at 1.
  rewrite <- pow_powerRZ. rewrite <- (Z2Nat.id n H) at 2.
  rewrite <- pow_IZR. reflexivity.
Qed.

Lemma pow2_quot (a b : Z) : (pow2 a / pow2 b)%R = pow2 (a - b).
Proof.
  pose proof (pow2_pos b). replace a with ((a - b) + b) at 1 by lia.
  rewrite pow2_add. field. lra.
Qed.

Lemma log2_pow2Z (e : Z) : log2 (pow2 e) = IZR e.
Proof.
  unfold log2. rewrite pow2_exp, ln_exp. field.
  pose proof ln2_pos. lra.
Qed.

(** ** Rounding to binary64 *)

Lemma Int_part_IZR (k : Z) : Int_part (IZR k) = k.
Proof.
  destruct (base_Int_part (IZR k)) as [H1 H2].
  apply le_IZR in H1.
  assert (IZR (Int_part (IZR k)) > IZR (k - 1))%R as H3
    by (rewrite minus_IZR; lra).
  apply Rgt_lt, lt_IZR in H3. lia.
Qed.

(** The exponent brackets the number between two powers of two. *)
Lemma exponent_spec (x : R) :
  x <> 0%R -> (pow2 (exponent x) <= Rabs x < pow2 (exponent x + 1))%R.
Proof.
  intros Hx. unfold exponent.
  assert (0 < Rabs x)%R as Hpos by (apply Rabs_pos_lt; exact Hx).
  destruct (base_Int_part (log2 (Rabs x))) as [H1 H2].
  set (f := Int_part (log2 (Rabs x))) in *.
  pose proof ln2_pos as Hl2.
  assert (Rabs x = exp (log2 (Rabs x) * ln 2)) as Habs.
  { unfold log2. replace (ln (Rabs x) / ln 2 * ln 2)%R with (ln (Rabs x))
      by (field; lra).
    symmetry. apply exp_ln. exact Hpos. }
  rewrite !pow2_exp, plus_IZR. split.
  - rewrite Habs. destruct H1 as [H1 | H1].
    + left. apply exp_increasing. apply Rmult_lt_compat_r; lra.
    + rewrite H1. lra.
  - rewrite Habs. apply exp_increasing. apply Rmult_lt_compat_r; lra.
Qed.

Lemma nearestEven_near (r : R) :
  (Rabs (IZR (nearestEven r) - r) <= 1 / 2)%R.
Proof.
  unfold nearestEven. destruct (base_Int_part r) as [H1 H2].
  set (f := Int_part r) in *. unfold Rltb, Rgtb.
  destruct (Rlt_dec (r - IZR f) (1 / 2)) as [Hlt | Hge].
  - rewrite Rabs_left1 by lra. lra.
  - destruct (Rgt_dec (r - IZR f) (1 / 2)) as [Hgt | Hle].
    + rewrite plus_IZR. rewrite Rabs_right by lra. lra.
    + destruct (Z.even f).
      * rewrite Rabs_left1 by lra. lra.
      * rewrite plus_IZR. rewrite Rabs_right by lra. lra.
Qed.

Lemma nearestEven_IZR (k : Z) : nearestEven (IZR k) = k.
Proof.
  unfold nearestEven. rewrite Int_part_IZR. unfold Rltb.
  destruct (Rlt_dec (IZR k - IZR k) (1 / 2)) as [H | H]; [reflexivity | lra].
Qed.

(** Rounding to an integer never passes an integer. *)
Lemma nearestEven_le (r : R) (k : Z) : (r <= IZR k)%R -> nearestEven r <= k.
Proof.
  intros H. unfold nearestEven. destruct (base_Int_part r) as [H1 H2].
  set (f := Int_part r) in *.
  assert (f <= k) as Hfk by (apply le_IZR; lra).
  unfold Rltb, Rgtb.
  destruct (Rlt_dec (r - IZR f) (1 / 2)); [exact Hfk |].
  assert (f < k).
  { apply lt_IZR. lra. }
  destruct (Rgt_dec (r - IZR f) (1 / 2)); [lia |].
  destruct (Z.even f); lia.
Qed.

Lemma round64_0 : round64 0 = 0%R.
Proof.
  unfold round64, Reqb. destruct (Req_dec_T 0 0); [reflexivity | contradiction].
Qed.

Lemma round64_nonzero (x : R) :
  x <> 0%R ->
  round64 x = (IZR (nearestEven (x / pow2 (exponent x - 52)))
               * pow2 (exponent x - 52))%R.
Proof.
  intros H. unfold round64, Reqb.
  destruct (Req_dec_T x 0); [contradiction | reflexivity].
Qed.

(** One rounding moves a number by at most the unit round-off times the
    number. *)
Lemma round64_error (x : R) :
  (Rabs (round64 x - x) <= unitRoundoff * Rabs x)%R.
Proof.
  destruct (Req_dec_T x 0) as [-> | Hx].
  - rewrite round64_0, Rminus_diag, Rabs_R0. lra.
  - rewrite (round64_nonzero x Hx).
    set (ulp := pow2 (exponent x - 52)).
    assert (0 < ulp)%R as Hulp by apply pow2_pos.
    pose proof (nearestEven_near (x / ulp)) as Hn.
    replace (IZR (nearestEven (x / ulp)) * ulp - x)%R
      with ((IZR (nearestEven (x / ulp)) - x / ulp) * ulp)%R
      by (field; lra).
    rewrite Rabs_mult, (Rabs_right ulp) by lra.
    destruct (exponent_spec x Hx) as [Hlo _].
    assert (unitRoundoff * pow2 (exponent x) = ulp / 2)%R as Hu.
    { unfold unitRoundoff, ulp.
      replace (exponent x - 52) with ((-53) + exponent x + 1) by lia.
      rewrite !pow2_add. unfold pow2 at 5. simpl powerRZ. lra. }
    apply Rle_trans with (1 / 2 * ulp)%R.
    + apply Rmult_le_compat_r; lra.
    + apply Rle_trans with (unitRoundoff * pow2 (exponent x))%R; [lra |].
      apply Rmult_le_compat_l; [left; apply pow2_pos | exact Hlo].
Qed.

(** An integer of fewer than 54 bits times a power of two is a binary64
    and is left as it is. *)
Lemma round64_exact (m q : Z) :
  Z.abs m < 2 ^ 53 -> round64 (IZR m * pow2 q) = (IZR m * pow2 q)%R.
Proof.
  intros Hm. destruct (Z.eq_dec m 0) as [-> | Hm0].
  - rewrite Rmult_0_l. apply round64_0.
  - pose proof (pow2_pos q) as Hq.
    assert (IZR m <> 0)%R as Hmr by (apply not_0_IZR; exact Hm0).
    assert (IZR m * pow2 q <> 0)%R as Hx by (apply Rmult_integral_contrapositive_currified; lra).
    rewrite (round64_nonzero _ Hx).
    set (x := (IZR m * pow2 q)%R) in *.
    destruct (exponent_spec x Hx) as [Hlo _].
    assert (exponent x < 53 + q) as He.
    { apply pow2_lt_inv. eapply Rle_lt_trans; [exact Hlo |].
      unfold x. rewrite Rabs_mult, (Rabs_right (pow2 q)) by lra.
      rewrite pow2_add. apply Rmult_lt_compat_r; [exact Hq |].
      rewrite pow2_IZR by lia. rewrite <- abs_IZR. apply IZR_lt. exact Hm. }
    set (n := q - (exponent x - 52)).
    assert (0 <= n) as Hn by (unfold n; lia).
    assert (x / pow2 (exponent x - 52) = IZR (m * 2 ^ n))%R as Hquot.
    { rewrite mult_IZR, <- pow2_IZR by exact Hn. unfold n.
      rewrite <- (pow2_quot q (exponent x - 52)). unfold x. field.
      pose proof (pow2_pos (exponent (IZR m * pow2 q) - 52)). lra. }
    rewrite Hquot, nearestEven_IZR, mult_IZR, <- pow2_IZR by exact Hn.
    rewrite Rmult_assoc, <- pow2_add. unfold n, x. f_equal. f_equal. lia.
Qed.

Lemma round64_IZR (m : Z) : Z.abs m < 2 ^ 53 -> round64 (IZR m) = IZR m.
Proof.
  intros H. pose proof (round64_exact m 0 H) as E.
  unfold pow2 in E. simpl powerRZ in E. rewrite Rmult_1_r in E. exact E.
Qed.

Lemma round64_pow2 (e : Z) : round64 (pow2 e) = pow2 e.
Proof.
  pose proof (round64_exact 1 e) as H. rewrite Rmult_1_l in H.
  apply H. reflexivity.
Qed.

Lemma Math_log2_pow2 (e : Z) : Z.abs e < 2 ^ 53 -> Math_log2 (pow2 e) = IZR e.
Proof.
  intros H. unfold Math_log2. rewrite log2_pow2Z. apply round64_IZR. exact H.
Qed.

Lemma unitRoundoff_small : (0 < unitRoundoff < 1 / 1000000000000000)%R.
Proof.
  unfold unitRoundoff. split; [apply pow2_pos |].
  unfold pow2. change (-53) with (- (53)). rewrite powerRZ_neg'.
  replace (powerRZ 2 53) with (IZR (2 ^ 53)) by (symmetry; apply (pow2_IZR 53); lia).
  replace (2 ^ 53) with 9007199254740992 by reflexivity.
  lra.
Qed.

Lemma round64_pos (x : R) : (0 < x)%R -> (0 < round64 x)%R.
Proof.
  intros H. pose proof (round64_error x) as E. pose proof unitRoundoff_small.
  rewrite (Rabs_right x) in E by lra.
  unfold Rabs in E. destruct (Rcase_abs (round64 x - x)); nra.
Qed.

Lemma round64_nonneg (x : R) : (0 <= x)%R -> (0 <= round64 x)%R.
Proof.
  intros [H | <-]; [left; apply round64_pos; exact H | rewrite round64_0; lra].
Qed.

Lemma round64_neg (x : R) : (x < 0)%R -> (round64 x < 0)%R.
Proof.
  intros H. pose proof (round64_error x) as E. pose proof unitRoundoff_small.
  rewrite (Rabs_left x) in E by lra.
  unfold Rabs in E. destruct (Rcase_abs (round64 x - x)); nra.
Qed.

Lemma round64_nonpos (x : R) : (x <= 0)%R -> (round64 x <= 0)%R.
Proof.
  intros [H | ->]; [left; apply round64_neg; exact H | rewrite round64_0; lra].
Qed.

(** The error of a rounding in relative form, for a number of known
    sign. *)
Lemma round64_within (x : R) :
  (0 <= x)%R ->
  ((1 - unitRoundoff) * x <= round64 x <= (1 + unitRoundoff) * x)%R.
Proof.
  intros H. pose proof (round64_error x) as E.
  rewrite (Rabs_right x) in E by lra.
  unfold Rabs in E. destruct (Rcase_abs (round64 x - x)); lra.
Qed.

Lemma round64_within_neg (x : R) :
  (x <= 0)%R ->
  ((1 + unitRoundoff) * x <= round64 x <= (1 - unitRoundoff) * x)%R.
Proof.
  intros H. pose proof (round64_error x) as E.
  rewrite (Rabs_left1 x) in E by lra.
  unfold Rabs in E. destruct (Rcase_abs (round64 x - x)); lra.
Qed.

(** A positive number that does not exceed 1 is not rounded above 1. *)
Lemma round64_le_1 (x : R) : (0 < x <= 1)%R -> (round64 x <= 1)%R.
Proof.
  intros [Hpos Hle].
  assert (x <> 0)%R as Hx by lra.
  rewrite (round64_nonzero x Hx).
  destruct (exponent_spec x Hx) as [Hlo Hhi].
  rewrite (Rabs_right x) in Hlo, Hhi by lra.
  set (e := exponent x) in *.
  assert (e <= 0) as He.
  { assert (e < 1); [| lia]. apply pow2_lt_inv.
    eapply Rle_lt_trans; [exact Hlo |]. unfold pow2. simpl. lra. }
  pose proof (pow2_pos (e - 52)) as Hulp.
  assert (1 = IZR (2 ^ (52 - e)) * pow2 (e - 52))%R as H1.
  { rewrite <- pow2_IZR by lia. rewrite <- pow2_add.
    replace (52 - e + (e - 52)) with 0 by lia. reflexivity. }
  apply Rle_trans with (IZR (2 ^ (52 - e)) * pow2 (e - 52))%R; [| lra].
  apply Rmult_le_compat_r; [lra |].
  apply IZR_le, nearestEven_le.
  apply Rmult_le_reg_r with (pow2 (e - 52)); [exact Hulp |].
  rewrite <- H1. unfold Rdiv. rewrite Rmult_assoc, Rinv_l by lra. lra.
Qed.

(** ** The table of byte counts *)

Lemma countsSet_total (counts : list (Z * Z)) (byte : Z) :
  countsTotal (countsSet counts byte) = countsTotal counts + 1.
Proof.
  induction counts as [| [k v] rest IH]; simpl; [reflexivity |].
  destruct (k =? byte); unfold countsTotal in *; simpl in *; lia.
Qed.

Lemma countsSet_positive (counts : list (Z * Z)) (byte : Z) :
  Forall (fun kv => 0 < snd kv) counts ->
  Forall (fun kv => 0 < snd kv) (countsSet counts byte).
Proof.
  induction counts as [| [k v] rest IH]; simpl; intros H.
  - constructor; [simpl; lia | constructor].
  - inversion H as [| ? ? Hv Hrest]; subst. simpl in Hv.
    destruct (k =? byte); constructor; simpl; auto; lia.
Qed.

Lemma fold_countsSet (buffer : Buffer) (counts : list (Z * Z)) :
  Forall (fun kv => 0 < snd kv) counts ->
  Forall (fun kv => 0 < snd kv) (fold_left countsSet buffer counts)
  /\ countsTotal (fold_left countsSet buffer counts)
     = countsTotal counts + blen buffer.
Proof.
  revert counts. induction buffer as [| b rest IH]; intros counts H; simpl.
  - split; [assumption | unfold blen; simpl; lia].
  - destruct (IH (countsSet counts b) (countsSet_positive counts b H))
      as [Hpos Htot].
    split; [assumption |].
    rewrite Htot, countsSet_total. unfold blen. simpl length. lia.
Qed.

Lemma count_within_total (counts : list (Z * Z)) :
  Forall (fun kv => 0 < snd kv) counts ->
  Forall (fun c => 0 < c <= countsTotal counts) (map snd counts).
Proof.
  induction 1 as [| [k v] rest Hv Hrest IH]; simpl; constructor.
  - unfold countsTotal. simpl in *.
    assert (0 <= fold_right Z.add 0 (map snd rest)).
    { clear IH. induction Hrest as [| [k' v'] r Hv' _ IHr]; simpl in *; lia. }
    lia.
  - eapply Forall_impl; [exact IH |].
    intros c [Hc Hle]. unfold countsTotal in *. simpl in *. lia.
Qed.

Lemma byteCounts_bounds (buffer : Buffer) :
  Forall (fun c => 0 < c <= blen buffer) (map snd (byteCounts buffer)).
Proof.
  destruct (fold_countsSet buffer [] (List.Forall_nil _)) as [Hpos Htot].
  pose proof (count_within_total _ Hpos) as H.
  unfold byteCounts. rewrite Htot in H. exact H.
Qed.

Lemma byteCounts_repeat (b : Z) (n : nat) (k : Z) :
  fold_left countsSet (repeat b n) [(b, k)] = [(b, k + Z.of_nat n)].
Proof.
  revert k. induction n as [| n IH]; intros k; simpl.
  - f_equal. f_equal. lia.
  - rewrite Z.eqb_refl, IH. f_equal. f_equal. lia.
Qed.

Lemma identical_repeat (b : Z) (buffer : Buffer) :
  Forall (eq b) buffer -> buffer = repeat b (length buffer).
Proof.
  induction 1 as [| x rest Hx _ IH]; simpl; [reflexivity |].
  subst x. f_equal. exact IH.
Qed.

(** The table is the frequency table of the buffer: one entry per byte
    value that occurs, holding its number of occurrences. *)

Lemma countsSet_tally (counts : list (Z * Z)) (byte k : Z) :
  tally (countsSet counts byte) k
  = tally counts k + (if byte =? k then 1 else 0).
Proof.
  induction counts as [| [k0 v] rest IH]; simpl.
  - destruct (byte =? k); lia.
  - destruct (k0 =? byte) eqn:Hk; simpl.
    + apply Z.eqb_eq in Hk. subst k0. destruct (byte =? k); lia.
    + rewrite IH. destruct (k0 =? k); lia.
Qed.

Lemma countsSet_keys (counts : list (Z * Z)) (byte k : Z) :
  In k (map fst (countsSet counts byte))
  <-> In k (map fst counts) \/ k = byte.
Proof.
  induction counts as [| [k0 v] rest IH]; simpl.
  - intuition.
  - destruct (k0 =? byte) eqn:Hk; simpl.
    + apply Z.eqb_eq in Hk. subst k0. intuition.
    + rewrite IH. intuition.
Qed.

Lemma countsSet_NoDup (counts : list (Z * Z)) (byte : Z) :
  List.NoDup (map fst counts) ->
  List.NoDup (map fst (countsSet counts byte)).
Proof.
  induction counts as [| [k0 v] rest IH]; simpl; intros H.
  - constructor; [intros [] | constructor].
  - inversion H as [| ? ? Hnotin Hrest]; subst.
    destruct (k0 =? byte) eqn:Hk; simpl.
    + constructor; assumption.
    + apply Z.eqb_neq in Hk. constructor; [| apply IH; assumption].
      rewrite countsSet_keys. intros [Hin | Heq]; [contradiction | congruence].
Qed.

Lemma tally_absent (counts : list (Z * Z)) (k : Z) :
  ~ In k (map fst counts) -> tally counts k = 0.
Proof.
  induction counts as [| [k0 v] rest IH]; simpl; intros H; [reflexivity |].
  destruct (k0 =? k) eqn:Hk.
  - apply Z.eqb_eq in Hk. exfalso. apply H. left. exact Hk.
  - apply IH. intros Hin. apply H. right. exact Hin.
Qed.

Lemma tally_entry (counts : list (Z * Z)) (k v : Z) :
  List.NoDup (map fst counts) -> In (k, v) counts -> tally counts k = v.
Proof.
  induction counts as [| [k0 v0] rest IH]; simpl; intros Hnd Hin;
    [contradiction |].
  inversion Hnd as [| ? ? Hnotin Hrest]; subst.
  destruct Hin as [Heq | Hin].
  - inversion Heq; subst. rewrite Z.eqb_refl, (tally_absent rest k Hnotin).
    lia.
  - destruct (k0 =? k) eqn:Hk.
    + apply Z.eqb_eq in Hk. subst k0. exfalso. apply Hnotin.
      apply (in_map fst) in Hin. exact Hin.
    + apply IH; assumption.
Qed.

Lemma tally_present (counts : list (Z * Z)) (k : Z) :
  tally counts k <> 0 -> exists v, In (k, v) counts.
Proof.
  induction counts as [| [k0 v0] rest IH]; simpl; intros H;
    [contradiction |].
  destruct (k0 =? k) eqn:Hk.
  - apply Z.eqb_eq in Hk. subst k0. exists v0. left. reflexivity.
  - destruct (IH H) as [v Hv]. exists v. right. exact Hv.
Qed.

Lemma fold_countsSet_tally (buffer : Buffer) (counts : list (Z * Z))
    (k : Z) :
  tally (fold_left countsSet buffer counts) k
  = tally counts k + countByte buffer k.
Proof.
  revert counts. induction buffer as [| b rest IH]; intros counts.
  - unfold countByte. simpl. lia.
  - cbn [fold_left]. rewrite IH, countsSet_tally. unfold countByte.
    cbn [List.filter]. rewrite (Z.eqb_sym k b).
    destruct (b =? k); simpl length; lia.
Qed.

Lemma fold_countsSet_NoDup (buffer : Buffer) (counts : list (Z * Z)) :
  List.NoDup (map fst counts) ->
  List.NoDup (map fst (fold_left countsSet buffer counts)).
Proof.
  revert counts. induction buffer as [| b rest IH]; intros counts H;
    [exact H |].
  cbn [fold_left]. apply IH, countsSet_NoDup, H.
Qed.

Lemma byteCounts_frequencies (buffer : Buffer) :
  List.NoDup (map fst (byteCounts buffer))
  /\ forall byte count,
       In (byte, count) (byteCounts buffer)
       <-> (count = countByte buffer byte /\ 0 < count).
Proof.
  assert (List.NoDup (map fst (byteCounts buffer))) as Hnd
    by (apply fold_countsSet_NoDup; constructor).
  split; [exact Hnd |].
  intros byte count.
  pose proof (fold_countsSet_tally buffer [] byte) as Htally.
  fold (byteCounts buffer) in Htally.
  change (tally [] byte) with 0 in Htally. rewrite Z.add_0_l in Htally.
  destruct (fold_countsSet buffer [] (List.Forall_nil _)) as [Hpos _].
  fold (byteCounts buffer) in Hpos.
  split.
  - intros Hin. rewrite <- Htally, (tally_entry _ byte count Hnd Hin).
    split; [reflexivity |].
    rewrite List.Forall_forall in Hpos. apply (Hpos (byte, count) Hin).
  - intros [-> Hcount].
    destruct (tally_present (byteCounts buffer) byte) as [v Hv]; [lia |].
    rewrite <- Htally, (tally_entry _ byte v Hnd Hv). exact Hv.
Qed.

(** ** Entropy *)

Lemma ln_below_line (y : R) : (0 < y)%R -> (ln y <= y - 1)%R.
Proof.
  intros Hy. pose proof (exp_ineq1_le (ln y)) as H.
  rewrite exp_ln in H by assumption. lra.
Qed.

Lemma ln2_half : (1 / 2 <= ln 2)%R.
Proof.
  pose proof (ln_below_line (1 / 2)) as H.
  replace (1 / 2)%R with (/ 2)%R in H by lra.
  rewrite ln_Rinv in H by lra. lra.
Qed.

(** The logarithm of a share after its rounding, against the logarithm of
    the share. *)
Lemma log2_perturbed (x a : R) :
  (0 < x)%R ->
  ((1 - unitRoundoff) * x <= a <= (1 + unitRoundoff) * x)%R ->
  (log2 x - 3 * unitRoundoff <= log2 a <= log2 x + 3 * unitRoundoff)%R.
Proof.
  intros Hx [Hlo Hhi]. pose proof unitRoundoff_small as [Hu0 Hu1].
  set (u := unitRoundoff) in *.
  assert (0 < a)%R as Ha by nra.
  pose proof ln2_pos as H2. pose proof ln2_half as Hh.
  assert (ln a - ln x <= u)%R as Hup.
  { assert (0 < a / x)%R as Hq by (apply Rdiv_lt_0_compat; lra).
    pose proof (ln_below_line _ Hq) as H.
    unfold Rdiv in H. rewrite ln_mult, ln_Rinv in H
      by (try apply Rinv_0_lt_compat; lra).
    assert (a * / x <= 1 + u)%R.
    { apply Rmult_le_reg_r with x; [lra |].
      rewrite Rmult_assoc, Rinv_l by lra. lra. }
    lra. }
  assert (ln x - ln a <= (3 / 2) * u)%R as Hdown.
  { assert (0 < x / a)%R as Hq by (apply Rdiv_lt_0_compat; lra).
    pose proof (ln_below_line _ Hq) as H.
    unfold Rdiv in H. rewrite ln_mult, ln_Rinv in H
      by (try apply Rinv_0_lt_compat; lra).
    assert (x * / a <= 1 + (3 / 2) * u)%R.
    { apply Rmult_le_reg_r with a; [lra |].
      rewrite Rmult_assoc, Rinv_l by lra. nra. }
    lra. }
  unfold log2. split.
  - apply Rmult_le_reg_r with (ln 2); [exact H2 |].
    replace (ln a / ln 2 * ln 2)%R with (ln a) by (field; lra).
    replace ((ln x / ln 2 - 3 * u) * ln 2)%R
      with (ln x - 3 * u * ln 2)%R by (field; lra).
    nra.
  - apply Rmult_le_reg_r with (ln 2); [exact H2 |].
    replace (ln a / ln 2 * ln 2)%R with (ln a) by (field; lra).
    replace ((ln x / ln 2 + 3 * u) * ln 2)%R
      with (ln x + 3 * u * ln 2)%R by (field; lra).
    nra.
Qed.

(** One term [p * Math.log2(p)] of the loop, negated, against the exact
    term. *)
Lemma term_bounds (x : R) :
  (0 < x <= 1)%R ->
  let p := round64 x in
  let s := (- round64 (p * Math_log2 p))%R in
  (0 <= s)%R
  /\ (s <= (1 + unitRoundoff) ^ 3 * (exactTerm x + 3 * unitRoundoff * x))%R
  /\ ((1 - unitRoundoff) ^ 3 * exactTerm x - 3 * unitRoundoff * x <= s)%R.
Proof.
  intros [Hx0 Hx1] p s. pose proof unitRoundoff_small as [Hu0 Hu1].
  assert (0 <= x)%R as Hx by lra.
  pose proof (round64_within x Hx) as Hp.
  pose proof (round64_pos x Hx0) as Hp0.
  pose proof (round64_le_1 x (conj Hx0 Hx1)) as Hp1.
  fold p in Hp, Hp0, Hp1.
  pose proof (log2_nonpos p (conj Hp0 Hp1)) as HL.
  pose proof (log2_nonpos x (conj Hx0 Hx1)) as HLx.
  pose proof (log2_perturbed x p Hx0 Hp) as Hpert.
  pose proof (round64_within_neg (log2 p) HL) as Hl.
  fold (Math_log2 p) in Hl.
  assert (p * Math_log2 p <= 0)%R as HP.
  { assert (Math_log2 p <= 0)%R by (apply round64_nonpos; exact HL). nra. }
  pose proof (round64_within_neg _ HP) as Ht.
  unfold exactTerm. subst s.
  set (u := unitRoundoff) in *.
  set (X := (- log2 x)%R) in *.
  set (N := (- log2 p)%R) in *.
  set (b := (- Math_log2 p)%R) in *.
  set (t := round64 (p * Math_log2 p)) in *.
  assert (0 <= X)%R as HX by (unfold X; lra).
  assert (0 <= N)%R as HN by (unfold N; lra).
  assert ((1 - u) * N <= b <= (1 + u) * N)%R as Hb by (unfold b, N; lra).
  assert (X - 3 * u <= N <= X + 3 * u)%R as HNX by (unfold X, N; lra).
  assert (0 <= b)%R as Hb0 by nra.
  assert ((1 - u) * (p * b) <= - t <= (1 + u) * (p * b))%R as Hs.
  { replace (p * b)%R with (- (p * Math_log2 p))%R by (unfold b; ring). lra. }
  assert (0 <= p * b)%R as Hpb by nra.
  split; [nra |].
  assert (p * b <= ((1 + u) * x) * ((1 + u) * N))%R as Hup.
  { apply Rmult_le_compat; lra. }
  assert (((1 - u) * x) * ((1 - u) * N) <= p * b)%R as Hdown.
  { apply Rmult_le_compat; nra. }
  replace (- (x * log2 x))%R with (x * X)%R by (unfold X; ring).
  split.
  - apply Rle_trans with ((1 + u) * ((1 + u) * x * ((1 + u) * N)))%R.
    + eapply Rle_trans; [apply Hs |]. apply Rmult_le_compat_l; lra.
    + replace ((1 + u) * ((1 + u) * x * ((1 + u) * N)))%R
        with ((1 + u) ^ 3 * (x * N))%R by ring.
      apply Rmult_le_compat_l; [apply pow_le; lra |].
      replace (x * X + 3 * u * x)%R with (x * (X + 3 * u))%R by ring.
      apply Rmult_le_compat_l; lra.
  - apply Rle_trans with ((1 - u) * ((1 - u) * x * ((1 - u) * N)))%R.
    + replace ((1 - u) * ((1 - u) * x * ((1 - u) * N)))%R
        with ((1 - u) ^ 3 * (x * N))%R by ring.
      assert (0 <= (1 - u) ^ 3 <= 1)%R as Hc.
      { split; [apply pow_le; lra |].
        replace 1%R with (1 ^ 3)%R at 2 by ring.
        apply pow_incr. lra. }
      assert (x * X - 3 * u * x <= x * N)%R as Hxn.
      { replace (x * X - 3 * u * x)%R with (x * (X - 3 * u))%R by ring.
        apply Rmult_le_compat_l; lra. }
      assert (0 <= x * X)%R by nra.
      assert (0 <= x * N)%R by nra.
      nra.
    + eapply Rle_trans; [| apply Hs].
      apply Rmult_le_compat_l; lra.
Qed.

Lemma exactTerm_nonneg (x : R) : (0 < x <= 1)%R -> (0 <= exactTerm x)%R.
Proof.
  intros H. pose proof (log2_nonpos x H). unfold exactTerm. nra.
Qed.

Lemma share_within (len : R) (c : Z) :
  (0 < IZR c <= len)%R -> (0 < IZR c / len <= 1)%R.
Proof.
  intros [Hc Hle]. split.
  - apply Rdiv_lt_0_compat; lra.
  - apply Rmult_le_reg_r with len; [lra |].
    unfold Rdiv. rewrite Rmult_assoc, Rinv_l by lra. lra.
Qed.

Lemma exactEntropy_nonneg (len : R) (counts : list Z) :
  List.Forall (fun c => (0 < IZR c <= len)%R) counts ->
  (0 <= exactEntropy len counts)%R
  /\ (0 <= sumCounts counts / len)%R.
Proof.
  induction 1 as [| c rest Hc _ [IH1 IH2]];
    cbn [exactEntropy sumCounts fold_right].
  - unfold Rdiv. rewrite Rmult_0_l. lra.
  - fold (exactEntropy len rest). fold (sumCounts rest).
    pose proof (share_within len c Hc) as Hp.
    pose proof (exactTerm_nonneg _ Hp).
    replace ((IZR c + sumCounts rest) / len)%R
      with (IZR c / len + sumCounts rest / len)%R by (field; lra).
    lra.
Qed.

(** One turn of the loop against the exact term it adds. *)
Lemma entropyStep_bounds (len acc : R) (c : Z) :
  (0 < IZR c <= len)%R -> (0 <= acc)%R ->
  let x := (IZR c / len)%R in
  let u := unitRoundoff in
  (0 <= entropyStep len acc c)%R
  /\ (entropyStep len acc c
      <= (1 + u) * (acc + (1 + u) ^ 3 * (exactTerm x + 3 * u * x)))%R
  /\ ((1 - u) * (acc + (1 - u) ^ 3 * exactTerm x) - 3 * u * x
      <= entropyStep len acc c)%R.
Proof.
  intros Hc Hacc x u. pose proof (share_within len c Hc) as Hx. fold x in Hx.
  destruct (term_bounds x Hx) as (Hs0 & Hsup & Hsdown).
  cbv zeta in Hs0, Hsup, Hsdown. fold u in Hsup, Hsdown.
  unfold entropyStep. fold x. cbv zeta.
  set (s := (- round64 (round64 x * Math_log2 (round64 x)))%R) in *.
  replace (acc - round64 (round64 x * Math_log2 (round64 x)))%R
    with (acc + s)%R by (unfold s; ring).
  assert (0 <= acc + s)%R as Hsum by lra.
  pose proof (round64_within _ Hsum) as Hr. fold u in Hr.
  pose proof unitRoundoff_small as [Hu0 Hu1]. fold u in Hu0, Hu1.
  split; [apply round64_nonneg; exact Hsum |]. split.
  - eapply Rle_trans; [apply Hr |]. apply Rmult_le_compat_l; lra.
  - eapply Rle_trans; [| apply Hr].
    assert ((1 - u) * (acc + ((1 - u) ^ 3 * exactTerm x - 3 * u * x))
            <= (1 - u) * (acc + s))%R as H1
      by (apply Rmult_le_compat_l; lra).
    assert (0 <= 3 * u * x)%R by nra.
    nra.
Qed.

(** The loop against the exact sum, from above. *)
Lemma entropy_fold_above (len : R) (counts : list Z) (acc : R) :
  List.Forall (fun c => (0 < IZR c <= len)%R) counts -> (0 <= acc)%R ->
  let u := unitRoundoff in
  (fold_left (entropyStep len) counts acc
   <= (1 + u) ^ length counts
      * (acc + (1 + u) ^ 3
               * (exactEntropy len counts + 3 * u * (sumCounts counts / len))))%R.
Proof.
  intros H. revert acc. cbv zeta.
  pose proof unitRoundoff_small as [Hu0 Hu1]. set (u := unitRoundoff) in *.
  induction H as [| c rest Hc Hrest IH]; intros acc Hacc.
  - cbn [fold_left length exactEntropy sumCounts fold_right pow].
    unfold Rdiv. rewrite Rmult_0_l. lra.
  - cbn [fold_left]. 
    destruct (entropyStep_bounds len acc c Hc Hacc) as (H0 & Hup & _).
    cbv zeta in Hup. fold u in Hup.
    eapply Rle_trans; [apply (IH _ H0) |].
    destruct (exactEntropy_nonneg len rest Hrest) as [He Hm].
    pose proof (share_within len c Hc) as Hx.
    pose proof (exactTerm_nonneg _ Hx) as Ht.
    cbn [length exactEntropy sumCounts fold_right].
    fold (exactEntropy len rest). fold (sumCounts rest).
    replace ((IZR c + sumCounts rest) / len)%R
      with (IZR c / len + sumCounts rest / len)%R by (field; lra).
    set (x := (IZR c / len)%R) in *. set (E := exactEntropy len rest) in *.
    set (M := (sumCounts rest / len)%R) in *.
    rewrite <- (tech_pow_Rmult (1 + u) (length rest)).
    assert (0 < (1 + u) ^ length rest)%R as Hpow by (apply pow_lt; lra).
    replace ((1 + u) * (1 + u) ^ length rest
             * (acc + (1 + u) ^ 3 * (exactTerm x + E + 3 * u * (x + M))))%R
      with ((1 + u) ^ length rest
            * ((1 + u)
               * (acc + (1 + u) ^ 3 * (exactTerm x + E + 3 * u * (x + M)))))%R
      by ring.
    apply Rmult_le_compat_l; [lra |].
    assert (0 <= (1 + u) ^ 3 * (E + 3 * u * M))%R as Hrest0.
    { apply Rmult_le_pos; [apply pow_le; lra | nra]. }
    set (R3 := ((1 + u) ^ 3)%R) in *.
    assert (0 <= R3)%R by (apply pow_le; lra).
    nra.
Qed.

(** The loop against the exact sum, from below; it never goes negative. *)
Lemma entropy_fold_below (len : R) (counts : list Z) (acc : R) :
  List.Forall (fun c => (0 < IZR c <= len)%R) counts -> (0 <= acc)%R ->
  let u := unitRoundoff in
  (0 <= fold_left (entropyStep len) counts acc)%R
  /\ ((1 - u) ^ length counts * (acc + (1 - u) ^ 3 * exactEntropy len counts)
      - 3 * u * (sumCounts counts / len)
      <= fold_left (entropyStep len) counts acc)%R.
Proof.
  intros H. revert acc. cbv zeta.
  pose proof unitRoundoff_small as [Hu0 Hu1]. set (u := unitRoundoff) in *.
  induction H as [| c rest Hc Hrest IH]; intros acc Hacc.
  - cbn [fold_left length exactEntropy sumCounts fold_right pow].
    unfold Rdiv. rewrite Rmult_0_l. lra.
  - cbn [fold_left].
    destruct (entropyStep_bounds len acc c Hc Hacc) as (H0 & _ & Hdown).
    cbv zeta in Hdown. fold u in Hdown.
    destruct (IH _ H0) as [IH0 IHd].
    split; [exact IH0 |].
    eapply Rle_trans; [| apply IHd].
    destruct (exactEntropy_nonneg len rest Hrest) as [He Hm].
    pose proof (share_within len c Hc) as Hx.
    pose proof (exactTerm_nonneg _ Hx) as Ht.
    cbn [length exactEntropy sumCounts fold_right].
    fold (exactEntropy len rest). fold (sumCounts rest).
    replace ((IZR c + sumCounts rest) / len)%R
      with (IZR c / len + sumCounts rest / len)%R by (field; lra).
    set (x := (IZR c / len)%R) in *. set (E := exactEntropy len rest) in *.
    set (M := (sumCounts rest / len)%R) in *.
    set (S := entropyStep len acc c) in *.
    rewrite <- (tech_pow_Rmult (1 - u) (length rest)).
    assert (0 <= (1 - u) ^ length rest <= 1)%R as Hpow.
    { split; [apply pow_le; lra |].
      apply Rle_trans with (1 ^ length rest)%R;
        [apply pow_incr; lra | rewrite pow1; lra]. }
    set (P := ((1 - u) ^ length rest)%R) in *.
    assert (0 <= (1 - u) ^ 3 <= 1)%R as Hc3.
    { split; [apply pow_le; lra |].
      replace 1%R with (1 ^ 3)%R at 2 by ring. apply pow_incr. lra. }
    set (R3 := ((1 - u) ^ 3)%R) in *.
    assert (P * ((1 - u) * (acc + R3 * exactTerm x) - 3 * u * x + R3 * E)
            <= P * (S + R3 * E))%R as H1
      by (apply Rmult_le_compat_l; lra).
    assert (0 <= R3 * E)%R by (apply Rmult_le_pos; lra).
    assert (0 <= R3 * exactTerm x)%R by (apply Rmult_le_pos; lra).
    assert (0 <= u * x)%R as Hux by (apply Rmult_le_pos; lra).
    assert (0 <= (1 - P) * (u * x))%R as Hq2
      by (apply Rmult_le_pos; lra).
    assert (0 <= u * (P * (R3 * E)))%R as Hq3.
    { apply Rmult_le_pos; [lra |]. apply Rmult_le_pos; lra. }
    lra.
Qed.

(** A turn of the loop on a share that is a power of two is exact. *)
Lemma entropyStep_dyadic (len acc : R) (c j a : Z) :
  0 <= j < 2 ^ 53 -> Z.abs (a + j) < 2 ^ 53 ->
  (IZR c / len)%R = pow2 (- j) -> acc = (IZR a * pow2 (- j))%R ->
  entropyStep len acc c = (IZR (a + j) * pow2 (- j))%R.
Proof.
  intros Hj Ha Hp ->. unfold entropyStep. cbv zeta.
  rewrite Hp, round64_pow2, Math_log2_pow2 by lia.
  rewrite (Rmult_comm (pow2 (- j))), round64_exact by lia.
  replace (IZR a * pow2 (- j) - IZR (- j) * pow2 (- j))%R
    with (IZR (a + j) * pow2 (- j))%R
    by (rewrite plus_IZR, opp_IZR; ring).
  apply round64_exact. exact Ha.
Qed.

Lemma entropy_fold_dyadic (len : R) (c j : Z) (k : nat) (a : Z) :
  0 <= j < 2 ^ 53 -> 0 <= a -> a + Z.of_nat k * j < 2 ^ 53 ->
  (IZR c / len)%R = pow2 (- j) ->
  fold_left (entropyStep len) (repeat c k) (IZR a * pow2 (- j))%R
  = (IZR (a + Z.of_nat k * j) * pow2 (- j))%R.
Proof.
  intros Hj Ha Hb Hp. revert a Ha Hb.
  induction k as [| k IH]; intros a Ha Hb.
  - cbn [repeat fold_left]. do 2 f_equal. lia.
  - change (repeat c (S k)) with (c :: repeat c k). cbn [fold_left].
    rewrite (entropyStep_dyadic len _ c j a Hj) by (try reflexivity; try assumption; nia).
    rewrite IH by nia. do 2 f_equal. lia.
Qed.

(** Powers of [1 + u] and of [1 - u] for a small [u]. *)
Lemma pow_above (u : R) (n : nat) :
  (0 <= u)%R -> (2 * INR n * u <= 1)%R ->
  ((1 + u) ^ n <= 1 + 2 * INR n * u)%R.
Proof.
  intros Hu. induction n as [| n IH]; intros Hn.
  - simpl. lra.
  - rewrite S_INR in *. rewrite <- tech_pow_Rmult.
    assert (0 <= INR n)%R by apply pos_INR.
    assert (2 * INR n * u <= 1)%R as Hn' by nra.
    specialize (IH Hn').
    assert (0 <= (1 + u) ^ n)%R by (apply pow_le; lra).
    nra.
Qed.

Lemma pow_below (u : R) (n : nat) :
  (0 <= u <= 1)%R -> (1 - INR n * u <= (1 - u) ^ n)%R.
Proof.
  intros Hu. induction n as [| n IH].
  - simpl. lra.
  - rewrite S_INR. rewrite <- tech_pow_Rmult.
    assert (0 <= INR n)%R by apply pos_INR.
    assert (0 <= (1 - u) ^ n)%R by (apply pow_le; lra).
    nra.
Qed.

(** A relative error far above that of the loop on a table of at most a
    thousand counts. *)
Lemma entropy_fold_near (len : R) (counts : list Z) :
  List.Forall (fun c => (0 < IZR c <= len)%R) counts ->
  (length counts <= 1000)%nat ->
  let exact := exactEntropy len counts in
  let mass := (sumCounts counts / len)%R in
  let eps := (1 / 1000000000)%R in
  ((1 - eps) * exact - eps * mass
   <= fold_left (entropyStep len) counts 0
   <= (1 + eps) * (exact + eps * mass))%R.
Proof.
  intros Hshares Hfew exact mass eps.
  pose proof (entropy_fold_above len counts 0 Hshares (Rle_refl 0)) as Hup.
  destruct (entropy_fold_below len counts 0 Hshares (Rle_refl 0))
    as [_ Hdown].
  cbv zeta in Hup, Hdown. fold exact mass in Hup, Hdown.
  destruct (exactEntropy_nonneg len counts Hshares) as [He Hm].
  fold exact in He. fold mass in Hm.
  pose proof unitRoundoff_small as [Hu0 Hu1].
  set (u := unitRoundoff) in *.
  assert (0 <= INR (length counts) <= 1000)%R as Hn.
  { split; [apply pos_INR |].
    replace 1000%R with (INR 1000)
      by (rewrite INR_IZR_INZ; reflexivity).
    apply le_INR. exact Hfew. }
  pose proof (pow_above u (length counts)) as Ha.
  pose proof (pow_above u 3) as Ha3.
  pose proof (pow_below u (length counts)) as Hb.
  pose proof (pow_below u 3) as Hb3.
  replace (INR 3) with 3%R in Ha3, Hb3 by (simpl; lra).
  assert (0 <= (1 + u) ^ length counts <= 1 + 2000 * u)%R as Hp.
  { split; [apply pow_le; lra |].
    eapply Rle_trans; [apply Ha; nra | nra]. }
  assert (0 <= (1 + u) ^ 3 <= 1 + 6 * u)%R as Hp3.
  { split; [apply pow_le; lra |]. eapply Rle_trans; [apply Ha3; lra | lra]. }
  assert (1 - 1000 * u <= (1 - u) ^ length counts)%R as Hq.
  { eapply Rle_trans; [| apply Hb; lra]. nra. }
  assert (1 - 3 * u <= (1 - u) ^ 3)%R as Hq3 by (apply Hb3; lra).
  set (A := ((1 + u) ^ length counts)%R) in *.
  set (A3 := ((1 + u) ^ 3)%R) in *.
  set (B := ((1 - u) ^ length counts)%R) in *.
  set (B3 := ((1 - u) ^ 3)%R) in *.
  assert (0 <= exact + 3 * u * mass <= exact + eps * mass)%R as Hc.
  { unfold eps. split; nra. }
  split.
  - eapply Rle_trans; [| exact Hdown].
    rewrite Rplus_0_l.
    assert (1 - eps <= B * B3)%R as Hbb.
    { apply Rle_trans with ((1 - 1000 * u) * (1 - 3 * u))%R;
        [unfold eps; nra |].
      apply Rmult_le_compat; lra. }
    assert ((1 - eps) * exact <= B * (B3 * exact))%R.
    { rewrite <- Rmult_assoc. apply Rmult_le_compat_r; lra. }
    assert (3 * u * mass <= eps * mass)%R by (unfold eps; nra).
    lra.
  - eapply Rle_trans; [exact Hup |].
    rewrite Rplus_0_l.
    assert (A * A3 <= 1 + eps)%R as Haa.
    { apply Rle_trans with ((1 + 2000 * u) * (1 + 6 * u))%R;
        [apply Rmult_le_compat; lra | unfold eps; nra]. }
    rewrite <- Rmult_assoc.
    apply Rmult_le_compat; try lra.
    apply Rmult_le_pos; lra.
Qed.

Lemma byteCounts_shares (buffer : Buffer) :
  List.Forall (fun c => (0 < IZR c <= IZR (blen buffer))%R)
              (map snd (byteCounts buffer)).
Proof.
  eapply Forall_impl; [apply byteCounts_bounds |].
  intros c [Hc Hle].
  split; [apply IZR_lt; assumption | apply IZR_le; assumption].
Qed.

Lemma entropy_nonneg (buffer : Buffer) :
  (0 <= calculateShannonEntropy buffer)%R.
Proof.
  unfold calculateShannonEntropy. destruct buffer as [| b rest]; [lra |].
  apply entropy_fold_below; [apply byteCounts_shares | lra].
Qed.

Lemma entropy_identical (b : Z) (buffer : Buffer) :
  Forall (eq b) buffer -> calculateShannonEntropy buffer = 0%R.
Proof.
  intros H. rewrite (identical_repeat b buffer H).
  destruct (length buffer) as [| n] eqn:Hlen; [reflexivity |].
  unfold calculateShannonEntropy, byteCounts, blen.
  rewrite repeat_length. simpl repeat. simpl fold_left at 2.
  rewrite byteCounts_repeat. simpl. unfold entropyStep.
  replace (1 + Z.of_nat n) with (Z.of_nat (S n)) by lia.
  assert (IZR (Z.of_nat (S n)) <> 0)%R as Hn.
  { apply not_0_IZR. lia. }
  replace (IZR (Z.of_nat (S n)) / IZR (Z.of_nat (S n)))%R with 1%R
    by (field; assumption).
  cbv zeta. rewrite (round64_IZR 1) by reflexivity.
  unfold Math_log2. rewrite log2_1, round64_0, Rmult_0_r, round64_0.
  rewrite Rminus_0_r. apply round64_0.
Qed.

(** ** The entropy bands *)

Lemma entropyBand_level (e : R) :
  (e = 0%R -> fst (entropyBand e) = 4)
  /\ (e <> 0%R -> (e < 4.5)%R -> fst (entropyBand e) = 3)
  /\ ((4.5 <= e < 7.2)%R -> fst (entropyBand e) = 0)
  /\ ((7.2 <= e < 7.9)%R -> fst (entropyBand e) = 2)
  /\ ((7.9 <= e)%R -> fst (entropyBand e) = 4).
Proof.
  unfold entropyBand, Reqb, Rltb, Rgeb.
  repeat split; intros;
    destruct (Req_dec_T e 0); destruct (Rlt_dec e 4.5);
    destruct (Rge_dec e 4.5); destruct (Rlt_dec e 7.2);
    destruct (Rge_dec e 7.2); destruct (Rlt_dec e 7.9);
    destruct (Rge_dec e 7.9); simpl; try reflexivity; lra.
Qed.

Lemma entropyBand_range (e : R) : 0 <= fst (entropyBand e) <= 4.
Proof.
  unfold entropyBand.
  destruct (Reqb e 0); [simpl; lia |].
  destruct (Rltb e 4.5); [simpl; lia |].
  destruct (Rgeb e 4.5 && Rltb e 7.2); [simpl; lia |].
  destruct (Rgeb e 7.2 && Rltb e 7.9); [simpl; lia |].
  destruct (Rgeb e 7.9); simpl; lia.
Qed.

(** ** Entropy of the samples *)

Lemma entropy_truncatedJpeg : calculateShannonEntropy truncatedJpeg = 5%R.
Proof.
  unfold calculateShannonEntropy.
  change truncatedJpeg with (0xFF :: tl truncatedJpeg).
  cbv beta iota.
  replace (map snd (byteCounts (0xFF :: tl truncatedJpeg)))
    with (repeat 2 32) by (vm_compute; reflexivity).
  replace (blen (0xFF :: tl truncatedJpeg)) with 64 by (vm_compute; reflexivity).
  replace 0%R with (IZR 0 * pow2 (Z.opp 5))%R at 1 by lra.
  rewrite (entropy_fold_dyadic 64 2 5 32 0);
    [| lia | lia | vm_compute; reflexivity | unfold pow2; simpl; lra].
  replace (0 + Z.of_nat 32 * 5) with 160 by reflexivity.
  unfold pow2. simpl. lra.
Qed.

Lemma entropy_plainBinary : calculateShannonEntropy plainBinary = 5%R.
Proof.
  unfold calculateShannonEntropy.
  change plainBinary with (1 :: tl plainBinary).
  cbv beta iota.
  replace (map snd (byteCounts (1 :: tl plainBinary)))
    with (repeat 1 32) by (vm_compute; reflexivity).
  replace (blen (1 :: tl plainBinary)) with 32 by (vm_compute; reflexivity).
  replace 0%R with (IZR 0 * pow2 (Z.opp 5))%R at 1 by lra.
  rewrite (entropy_fold_dyadic 32 1 5 32 0);
    [| lia | lia | vm_compute; reflexivity | unfold pow2; simpl; lra].
  replace (0 + Z.of_nat 32 * 5) with 160 by reflexivity.
  unfold pow2. simpl. lra.
Qed.

Lemma entropy_boundaryBinary :
  calculateShannonEntropy boundaryBinary = 4.5%R.
Proof.
  unfold calculateShannonEntropy.
  change boundaryBinary with (1 :: tl boundaryBinary).
  cbv beta iota.
  replace (map snd (byteCounts (1 :: tl boundaryBinary)))
    with (repeat 2 8 ++ repeat 1 16) by (vm_compute; reflexivity).
  replace (blen (1 :: tl boundaryBinary)) with 32 by (vm_compute; reflexivity).
  rewrite fold_left_app.
  replace 0%R with (IZR 0 * pow2 (Z.opp 4))%R at 1 by lra.
  rewrite (entropy_fold_dyadic 32 2 4 8 0);
    [| lia | lia | vm_compute; reflexivity | unfold pow2; simpl; lra].
  replace (0 + Z.of_nat 8 * 4) with 32 by reflexivity.
  replace (IZR 32 * pow2 (Z.opp 4))%R
    with (IZR 64 * pow2 (Z.opp 5))%R by (unfold pow2; simpl; lra).
  rewrite (entropy_fold_dyadic 32 1 5 16 64);
    [| lia | lia | vm_compute; reflexivity | unfold pow2; simpl; lra].
  replace (64 + Z.of_nat 16 * 5) with 144 by reflexivity.
  unfold pow2. simpl. lra.
Qed.

(** The exact entropy of the text is about 3.88; the loop stays within a
    billionth of it. *)
Lemma entropy_validText :
  (3 < calculateShannonEntropy validText < 4)%R.
Proof.
  unfold calculateShannonEntropy.
  change validText with (84 :: tl validText).
  cbv beta iota.
  replace (map snd (byteCounts (84 :: tl validText)))
    with [1; 1; 5; 3; 7; 2; 1; 2; 1; 4; 3; 1; 2; 1; 1; 1; 1; 1; 1]
    by (vm_compute; reflexivity).
  replace (blen (84 :: tl validText)) with 39 by (vm_compute; reflexivity).
  set (counts := [1; 1; 5; 3; 7; 2; 1; 2; 1; 4; 3; 1; 2; 1; 1; 1; 1; 1; 1]).
  assert (List.Forall (fun c => (0 < IZR c <= 39)%R) counts) as Hshares.
  { unfold counts. repeat constructor; lra. }
  assert (length counts <= 1000)%nat as Hfew by (unfold counts; simpl; lia).
  pose proof (entropy_fold_near 39 counts Hshares Hfew) as Hnear.
  cbv zeta in Hnear.
  assert (sumCounts counts / 39 = 1)%R as Hmass
    by (unfold counts, sumCounts; simpl; lra).
  rewrite Hmass in Hnear.
  assert (3.7 < exactEntropy 39 counts < 3.95)%R as Hexact.
  { unfold counts. cbn [exactEntropy fold_right]. unfold exactTerm.
    rewrite !log2_div by lra.
    assert (log2 1 = 0)%R as H1 by apply log2_1.
    assert (log2 2 = 1)%R as H2.
    { pose proof (log2_pow2 1) as H. simpl in H.
      replace (2 * 1)%R with 2%R in H by lra. exact H. }
    assert (log2 4 = 2)%R as H4.
    { pose proof (log2_pow2 2) as H. simpl in H.
      replace (2 * (2 * 1))%R with 4%R in H by lra. rewrite H. lra. }
    assert (1.5 < log2 3 < 1.6)%R as H3.
    { split.
      - replace 1.5%R with (INR 3 / INR 2)%R by (simpl; lra).
        apply log2_above; [lra | lia | simpl; lra].
      - replace 1.6%R with (INR 8 / INR 5)%R by (simpl; lra).
        apply log2_below; [lra | lia | simpl; lra]. }
    assert (2.25 < log2 5 < 2.4)%R as H5.
    { split.
      - replace 2.25%R with (INR 9 / INR 4)%R by (simpl; lra).
        apply log2_above; [lra | lia | simpl; lra].
      - replace 2.4%R with (INR 12 / INR 5)%R by (simpl; lra).
        apply log2_below; [lra | lia | simpl; lra]. }
    assert (2.8 < log2 7 < 3)%R as H7.
    { split.
      - replace 2.8%R with (INR 14 / INR 5)%R by (simpl; lra).
        apply log2_above; [lra | lia | simpl; lra].
      - replace 3%R with (INR 3 / INR 1)%R by (simpl; lra).
        apply log2_below; [lra | lia | simpl; lra]. }
    assert (5.25 < log2 39 < 5.3)%R as H39.
    { split.
      - replace 5.25%R with (INR 21 / INR 4)%R by (simpl; lra).
        apply log2_above; [lra | lia | simpl; lra].
      - replace 5.3%R with (INR 53 / INR 10)%R by (simpl; lra).
        apply log2_below; [lra | lia |].
        rewrite !pow_IZR. apply IZR_lt. vm_compute. reflexivity. }
    rewrite H1, H2, H4. lra. }
  set (exact := exactEntropy 39 counts) in *.
  destruct Hnear as [Hlo Hhi]. split; nra.
Qed.

(** ** The assessment of a non-empty buffer *)

Lemma classify_fields (buffer : Buffer) (filename mime : string) :
  let c := classifyFileCriticality buffer filename mime in
  level c = fst (entropyBand (calculateShannonEntropy buffer))
  /\ c_riskScore c = IZR (level c)
  /\ c_entropy c = calculateShannonEntropy buffer
  /\ 0 <= level c <= 4.
Proof.
  unfold classifyFileCriticality.
  pose proof (entropyBand_range (calculateShannonEntropy buffer)) as Hr.
  destruct (entropyBand (calculateShannonEntropy buffer)) as [l reason].
  simpl in *. repeat split; lia.
Qed.

Lemma validateFile_fields (ext : Externals) (buffer : Buffer)
    (filename mime : string) :
  buffer <> [] ->
  let c := classifyFileCriticality buffer filename mime in
  let v := validateFile ext buffer filename mime in
  criticalityLevel v = Some (level c)
  /\ riskScore v = IZR (level c)
  /\ entropy v = calculateShannonEntropy buffer
  /\ detectedType v = detectFileType buffer
  /\ isValid v = negb (2 <=? level c)
  /\ isCorrupted v
     = (2 <=? level c)
       || Nat.ltb 0 (length (checkFileStructure ext buffer filename))
       || cc_isCorrupted (detectCorruption ext buffer filename)
  /\ issues v
     = cc_issues (detectCorruption ext buffer filename)
       ++ checkFileStructure ext buffer filename ++ reasons c.
Proof.
  intros Hne c v.
  destruct (classify_fields buffer filename mime) as (_ & Hrisk & Hent & _).
  destruct buffer as [| b rest]; [contradiction |].
  subst v. unfold validateFile. fold c.
  destruct (2 <=? level c) eqn:H2; [| destruct (level c =? 1) eqn:H1];
    cbn [criticalityLevel riskScore entropy detectedType isValid isCorrupted
         issues negb orb];
    repeat split; try assumption;
    destruct (Nat.ltb 0 (length (checkFileStructure ext (b :: rest) filename)));
    reflexivity.
Qed.

Lemma validateFile_level_cases (ext : Externals) (buffer : Buffer)
    (filename mime : string) :
  buffer <> [] ->
  exists l, criticalityLevel (validateFile ext buffer filename mime) = Some l
            /\ riskScore (validateFile ext buffer filename mime) = IZR l
            /\ l = level (classifyFileCriticality buffer filename mime)
            /\ 0 <= l <= 4.
Proof.
  intros Hne.
  destruct (validateFile_fields ext buffer filename mime Hne)
    as (Hl & Hr & _).
  destruct (classify_fields buffer filename mime) as (_ & _ & _ & Hrange).
  eexists. repeat split; eauto; lia.
Qed.

Lemma entropyBand_cases (e : R) :
  (e = 0%R /\ entropyBand e = (4, "Empty or fully corrupted file"%string))
  \/ (e <> 0%R /\ (e < 4.5)%R
      /\ entropyBand e
         = (3, "Very low entropy — truncated or broken file structure"%string))
  \/ ((4.5 <= e < 7.2)%R
      /\ entropyBand e = (0, "Normal entropy — likely safe"%string))
  \/ ((7.2 <= e < 7.9)%R
      /\ entropyBand e
         = (2, "High entropy — encrypted/compressed/suspicious"%string))
  \/ ((7.9 <= e)%R
      /\ entropyBand e
         = (4, "Extremely high entropy — malware-like randomness"%string)).
Proof.
  unfold entropyBand, Reqb, Rltb, Rgeb.
  destruct (Req_dec_T e 0); [left; split; [assumption | reflexivity] |].
  destruct (Rlt_dec e 4.5);
    [right; left; repeat split; [assumption | assumption] |].
  destruct (Rge_dec e 4.5); [| lra].
  destruct (Rlt_dec e 7.2);
    [right; right; left; split; [lra | reflexivity] |].
  destruct (Rge_dec e 7.2); [| lra].
  destruct (Rlt_dec e 7.9);
    [right; right; right; left; split; [lra | reflexivity] |].
  destruct (Rge_dec e 7.9); [| lra].
  right; right; right; right. split; [lra | reflexivity].
Qed.

Lemma level_values (buffer : Buffer) (filename mime : string) :
  let l := level (classifyFileCriticality buffer filename mime) in
  l = 0 \/ l = 2 \/ l = 3 \/ l = 4.
Proof.
  destruct (classify_fields buffer filename mime) as (Hl & _).
  cbv zeta. rewrite Hl.
  destruct (entropyBand_cases (calculateShannonEntropy buffer))
    as [(_ & ->) | [(_ & _ & ->) | [(_ & ->) | [(_ & ->) | (_ & ->)]]]];
    cbn [fst]; auto.
Qed.

(** What an upload that passes the criticality gate looks like to the rest
    of the route. *)
Lemma past_the_gate (ext : Externals) (buf : Buffer) (filename mime : string) :
  buf <> [] ->
  level (classifyFileCriticality buf filename mime) < 2 ->
  let v := validateFile ext buf filename mime in
  level (classifyFileCriticality buf filename mime) = 0
  /\ riskScore v = 0%R /\ isSuspicious v = false /\ isValid v = true
  /\ (4.5 <= entropy v < 7.2)%R
  /\ reasons (classifyFileCriticality buf filename mime)
     = [Text "Normal entropy — likely safe"].
Proof.
  intros Hne Hlt v.
  assert (level (classifyFileCriticality buf filename mime) = 0) as H0.
  { pose proof (level_values buf filename mime) as Hv. cbv zeta in Hv. lia. }
  destruct (validateFile_fields ext buf filename mime Hne)
    as (_ & Hr & He & _ & Hvalid & _).
  fold v in Hr, He, Hvalid. rewrite H0 in Hr, Hvalid.
  split; [exact H0 |]. split; [exact Hr |].
  assert (isSuspicious v = false) as Hs.
  { subst v. destruct buf as [| b rest]; [contradiction |].
    unfold validateFile. rewrite H0. reflexivity. }
  split; [exact Hs |]. split; [exact Hvalid |].
  rewrite He. clear Hr He Hvalid Hs.
  unfold classifyFileCriticality in *.
  destruct (entropyBand_cases (calculateShannonEntropy buf))
    as [(_ & Hb) | [(_ & _ & Hb) | [(Hrange & Hb) | [(_ & Hb) | (_ & Hb)]]]];
    rewrite Hb in *; cbn [level reasons] in *; try discriminate.
  split; [exact Hrange | reflexivity].
Qed.

(** ** The three ways out of the route *)

Lemma upload_checked (ext : Externals) (req : Request) (f : UploadedFile)
    (buf : Buffer) (db : Store) :
  file req = Some f -> buffer f = Some buf -> buf <> [] ->
  size f <= maxSize ->
  uploadHandler ext req db = decideUpload ext req f buf db.
Proof.
  intros Hf Hb Hne Hsize. unfold uploadHandler. rewrite Hf, Hb.
  destruct buf as [| b rest]; [contradiction |].
  replace (blen (b :: rest) =? 0) with false
    by (symmetry; apply Z.eqb_neq; unfold blen; simpl length; lia).
  replace (maxSize <? size f) with false
    by (symmetry; apply Z.ltb_ge; assumption).
  reflexivity.
Qed.

Lemma decideUpload_cases (ext : Externals) (req : Request)
    (f : UploadedFile) (buf : Buffer) (db : Store) :
  buf <> [] ->
  let v := validateFile ext buf (originalname f) (mimetype f) in
  let l := level (classifyFileCriticality buf (originalname f) (mimetype f)) in
  let features := fileFeaturesOf ext f buf v in
  let ids := idsAnalysis ext v features in
  (2 <= l
   /\ exists content,
       decideUpload ext req f buf db
       = (mkResponse 403 content,
          mkStore (alerts db ++ [criticalityAlert req f v]) (transfers db)
                  (idsRequests db)
                  (wsMessages db ++ broadcast req (criticalityAlert req f v))))
  \/ (l < 2
      /\ (verdict ids = "suspicious"%string \/ isCorrupted v = true
          \/ (riskScore v > 0.5)%R)
      /\ exists content,
          decideUpload ext req f buf db
          = (mkResponse 403 content,
             mkStore (alerts db ++ [idsAlert req f v ids]) (transfers db)
                     (idsRequests db ++ [features]) (wsMessages db)))
  \/ (l < 2
      /\ verdict ids <> "suspicious"%string /\ isCorrupted v = false
      /\ (riskScore v <= 0.5)%R
      /\ exists doc,
          ids_result doc = ids
          /\ decideUpload ext req f buf db
             = (mkResponse 200 (Stored doc "normal" ids),
                mkStore (alerts db) (transfers db ++ [doc])
                        (idsRequests db ++ [features]) (wsMessages db))).
Proof.
  intros Hne v l features ids.
  destruct (validateFile_fields ext buf (originalname f) (mimetype f) Hne)
    as (Hl & _).
  fold v l in Hl. unfold decideUpload. fold v. rewrite Hl. fold features ids.
  destruct (2 <=? l) eqn:H2.
  - left. apply Z.leb_le in H2. split; [assumption |]. eexists. reflexivity.
  - right. apply Z.leb_gt in H2.
    destruct (String.eqb (verdict ids) "suspicious") eqn:Hv.
    + left. apply String.eqb_eq in Hv. split; [assumption |].
      split; [left; assumption |]. eexists. reflexivity.
    + apply String.eqb_neq in Hv.
      destruct (isCorrupted v) eqn:Hc.
      * left. split; [assumption |]. split; [right; left; reflexivity |].
        eexists. reflexivity.
      * destruct (Rgtb (riskScore v) 0.5) eqn:Hr.
        -- left. apply Rgtb_iff in Hr. split; [assumption |].
           split; [right; right; assumption |]. eexists. reflexivity.
        -- right. split; [assumption |]. split; [assumption |].
           split; [reflexivity |].
           split.
           { unfold Rgtb in Hr. destruct (Rgt_dec (riskScore v) 0.5);
               [discriminate | lra]. }
           eexists. split; [| reflexivity]. reflexivity.
Qed.

(** The local score of an upload that reaches the anomaly service is 0
    or 1. *)
Lemma risk_below_gate (ext : Externals) (buf : Buffer)
    (filename mime : string) :
  buf <> [] ->
  level (classifyFileCriticality buf filename mime) < 2 ->
  let v := validateFile ext buf filename mime in
  (riskScore v = 0%R \/ riskScore v = 1%R).
Proof.
  intros Hne Hl v.
  destruct (validateFile_level_cases ext buf filename mime Hne)
    as (l & _ & Hr & -> & Hrange).
  fold v in Hr. rewrite Hr.
  assert (level (classifyFileCriticality buf filename mime) = 0
          \/ level (classifyFileCriticality buf filename mime) = 1)
    as [-> | ->] by lia; [left | right]; reflexivity.
Qed.

Lemma idsAnalysis_down (ext : Externals) (v : Validation)
    (features : FileFeatures) (message : string) :
  callIDS ext features = inl message ->
  (riskScore v = 0%R \/ riskScore v = 1%R) ->
  let ids := idsAnalysis ext v features in
  verdict ids = "suspicious"%string
  /\ (exists marker, error ids = Some marker)
  /\ Rmax (anomaly_score ids) (riskScore v) = Rmax (riskScore v) 0.8.
Proof.
  intros Hcall Hrisk ids. subst ids. unfold idsAnalysis. rewrite Hcall.
  destruct Hrisk as [Hr | Hr]; rewrite Hr.
  - rewrite Rgtb_false by lra. simpl. repeat split; [eexists; reflexivity |].
    rewrite Rmax_left, Rmax_right by lra. reflexivity.
  - rewrite Rgtb_true by lra. simpl. repeat split; [eexists; reflexivity |].
    rewrite !Rmax_left by lra. reflexivity.
Qed.

Lemma idsAnalysis_verdict (ext : Externals) (v : Validation)
    (features : FileFeatures) :
  (riskScore v = 0%R \/ riskScore v = 1%R) ->
  verdict (idsAnalysis ext v features) = "suspicious"%string
  <-> ((exists message, callIDS ext features = inl message)
       \/ (exists score, callIDS ext features = inr (score, "suspicious"%string))
       \/ (riskScore v > 0.5)%R).
Proof.
  intros Hrisk. unfold idsAnalysis.
  destruct (callIDS ext features) as [message | [score label]] eqn:Hcall.
  - split; [intros _; left; eexists; reflexivity |].
    intros _. destruct (Rgtb (riskScore v) 0.3); reflexivity.
  - destruct Hrisk as [Hr | Hr]; rewrite Hr.
    + rewrite Rgtb_false by lra. simpl. split.
      * intros ->. right; left. eexists. reflexivity.
      * intros [[m Hm] | [[s Hs] | Hgt]]; [discriminate | | lra].
        inversion Hs. reflexivity.
    + rewrite Rgtb_true by lra. simpl.
      assert (Rmax score 1 >= 1)%R as Hmax
        by (pose proof (Rmax_r score 1); lra).
      rewrite Rgtb_true by lra.
      split; [intros _; right; right; lra | reflexivity].
Qed.

(** ** Structural findings and the level (C1) *)

Lemma structure_truncatedJpeg :
  checkFileStructure (answering 0.1 "normal") truncatedJpeg "photo.jpg"
  = [Text "JPEG file appears truncated (missing end marker)";
     Text "JPEG parse error: Input buffer contains unsupported image format"].
Proof. vm_compute. reflexivity. Qed.

Lemma level_truncatedJpeg (filename mime : string) :
  level (classifyFileCriticality truncatedJpeg filename mime) = 0.
Proof.
  destruct (classify_fields truncatedJpeg filename mime) as (-> & _).
  rewrite entropy_truncatedJpeg.
  apply (entropyBand_level 5). lra.
Qed.

(** C1, refuted on the code: a buffer that opens with the JPEG signature
    and lacks the end marker fails the structure check, yet its assessment
    has [isValid = true] and criticality level 0, the level of its entropy
    band. *)
Lemma truncated_jpeg_assessed_valid_at_level_0 :
  let v := validateFile (answering 0.1 "normal") truncatedJpeg "photo.jpg"
                        "image/jpeg" in
  detectFileType truncatedJpeg = Some "image/jpeg"%string
  /\ checkFileStructure (answering 0.1 "normal") truncatedJpeg "photo.jpg"
     <> []
  /\ isValid v = true
  /\ criticalityLevel v = Some 0.
Proof.
  assert (truncatedJpeg <> []) as Hne by (vm_compute; discriminate).
  destruct (validateFile_fields (answering 0.1 "normal") truncatedJpeg
              "photo.jpg" "image/jpeg" Hne) as (Hl & _ & _ & _ & Hv & _).
  rewrite level_truncatedJpeg in Hl, Hv.
  cbv zeta. repeat split.
  - rewrite structure_truncatedJpeg. discriminate.
  - exact Hv.
  - exact Hl.
Qed.

(** C1, as the code has it: when the structure check of a non-empty buffer
    reports an issue, the assessment is flagged corrupted, its criticality
    level is the level of the entropy band, neither lowered nor raised by
    the finding, and the route answers 403 for it. *)
Theorem structural_findings_keep_entropy_level (ext : Externals)
    (req : Request) (f : UploadedFile) (buf : Buffer) (db : Store) :
  buf <> [] ->
  checkFileStructure ext buf (originalname f) <> [] ->
  let v := validateFile ext buf (originalname f) (mimetype f) in
  let l := fst (entropyBand (calculateShannonEntropy buf)) in
  isCorrupted v = true
  /\ criticalityLevel v = Some l
  /\ code (fst (decideUpload ext req f buf db)) = 403.
Proof.
  intros Hne Hs v l.
  destruct (validateFile_fields ext buf (originalname f) (mimetype f) Hne)
    as (Hl & _ & _ & _ & _ & Hc & _).
  destruct (classify_fields buf (originalname f) (mimetype f)) as (Hband & _).
  fold v in Hl, Hc. rewrite Hband in Hl, Hc. fold l in Hl, Hc.
  assert (isCorrupted v = true) as Hcor.
  { rewrite Hc.
    destruct (checkFileStructure ext buf (originalname f)) as [| i rest];
      [contradiction |].
    change (Nat.ltb 0 (length (i :: rest))) with true.
    rewrite orb_true_r. reflexivity. }
  repeat split; try assumption.
  destruct (decideUpload_cases ext req f buf db Hne)
    as [(_ & c & ->) | [(_ & _ & c & ->) | (_ & _ & Hno & _)]];
    try reflexivity.
  fold v in Hno. congruence.
Qed.

(** The truncated JPEG, uploaded as [photo.jpg], is such a buffer. *)
Lemma structural_findings_keep_entropy_level_holds :
  let ext := answering 0.1 "normal" in
  let req := uploadOf truncatedJpeg "photo.jpg" "image/jpeg" in
  let f := mkUploadedFile (Some truncatedJpeg) 64 "photo.jpg" "image/jpeg" in
  truncatedJpeg <> []
  /\ checkFileStructure ext truncatedJpeg (originalname f) <> []
  /\ isCorrupted (validateFile ext truncatedJpeg "photo.jpg" "image/jpeg")
     = true
  /\ code (fst (decideUpload ext req f truncatedJpeg emptyStore)) = 403.
Proof.
  intros ext req f.
  assert (truncatedJpeg <> []) as Hne by (vm_compute; discriminate).
  assert (checkFileStructure ext truncatedJpeg (originalname f) <> [])
    as Hs by (vm_compute; discriminate).
  destruct (structural_findings_keep_entropy_level ext req f truncatedJpeg
              emptyStore Hne Hs) as (Hc & _ & Hcode).
  repeat split; [exact Hne | exact Hs | exact Hc | exact Hcode].
Defined.

(** ** The entropy bands (C4) *)

(** C4: for a non-empty buffer the entropy recorded in the assessment is
    what the loop [entropy -= p * Math.log2(p)] computes in binary64 over
    the frequency table of its bytes (one entry per byte value that occurs,
    holding its number of occurrences, in the order of first occurrence); it
    is never negative, and the criticality level follows the five bands of
    that number: 0 gives 4, below 4.5 gives 3, from 4.5 to below 7.2 gives
    0, from 7.2 to below 7.9 gives 2, from 7.9 on gives 4; a buffer of
    identical bytes has entropy 0 and level 4. *)
Theorem entropy_bands_give_level (ext : Externals) (buffer : Buffer)
    (filename mime : string) :
  buffer <> [] ->
  let e := calculateShannonEntropy buffer in
  let v := validateFile ext buffer filename mime in
  entropy v = e
  /\ e = fold_left (entropyStep (IZR (blen buffer)))
                   (map snd (byteCounts buffer)) 0%R
  /\ (List.NoDup (map fst (byteCounts buffer))
      /\ forall byte count,
           In (byte, count) (byteCounts buffer)
           <-> (count = countByte buffer byte /\ 0 < count))
  /\ (0 <= e)%R
  /\ (exists l,
        criticalityLevel v = Some l
        /\ level (classifyFileCriticality buffer filename mime) = l
        /\ (e = 0%R -> l = 4)
        /\ ((0 < e < 4.5)%R -> l = 3)
        /\ ((4.5 <= e < 7.2)%R -> l = 0)
        /\ ((7.2 <= e < 7.9)%R -> l = 2)
        /\ ((7.9 <= e)%R -> l = 4))
  /\ ((exists b, Forall (eq b) buffer) ->
      e = 0%R /\ criticalityLevel v = Some 4).
Proof.
  intros Hne e v.
  destruct (validateFile_fields ext buffer filename mime Hne)
    as (Hl & _ & He & _).
  destruct (classify_fields buffer filename mime) as (Hband & _).
  fold v in Hl, He. fold e in He, Hband.
  destruct (entropyBand_level e) as (B0 & B1 & B2 & B3 & B4).
  split; [exact He |].
  split; [subst e; destruct buffer; [contradiction | reflexivity] |].
  split; [apply byteCounts_frequencies |].
  split; [apply entropy_nonneg |].
  split.
  - exists (level (classifyFileCriticality buffer filename mime)).
    split; [exact Hl |]. split; [reflexivity |]. rewrite Hband.
    split; [exact B0 |].
    split; [intros [Hpos Hlt]; apply B1; lra |].
    split; [exact B2 |]. split; [exact B3 | exact B4].
  - intros [b Hb]. pose proof (entropy_identical b buffer Hb) as H0.
    fold e in H0. split; [exact H0 |].
    rewrite Hl, Hband. f_equal. apply B0. exact H0.
Qed.

(** A buffer on which the loop computes exactly 4.5, every share being a
    power of two, is at level 0. *)
Lemma entropy_bands_give_level_at_boundary :
  boundaryBinary <> []
  /\ calculateShannonEntropy boundaryBinary = 4.5%R
  /\ criticalityLevel
       (validateFile (answering 0.1 "normal") boundaryBinary "data.bin"
                     "application/octet-stream")
     = Some 0.
Proof.
  assert (boundaryBinary <> []) as Hne by (vm_compute; discriminate).
  destruct (entropy_bands_give_level (answering 0.1 "normal") boundaryBinary
              "data.bin" "application/octet-stream" Hne)
    as (_ & _ & _ & _ & (l & Hl & _ & _ & _ & Hmid & _) & _).
  repeat split; [exact Hne | exact entropy_boundaryBinary |].
  rewrite Hl. f_equal. apply Hmid. rewrite entropy_boundaryBinary. lra.
Defined.

(** ** The local risk score (C7) *)

Lemma score_identical3 (ext : Externals) (filename mime : string) :
  let v := validateFile ext [65; 65; 65] filename mime in
  criticalityLevel v = Some 4 /\ riskScore v = 4%R.
Proof.
  assert ([65; 65; 65] <> []) as Hne by discriminate.
  destruct (validateFile_fields ext [65; 65; 65] filename mime Hne)
    as (Hl & Hr & _).
  destruct (classify_fields [65; 65; 65] filename mime) as (Hband & _).
  assert (calculateShannonEntropy [65; 65; 65] = 0%R) as He
    by (apply (entropy_identical 65); repeat constructor).
  rewrite He in Hband.
  rewrite (proj1 (entropyBand_level 0) eq_refl) in Hband.
  rewrite Hband in Hl, Hr. split; assumption.
Qed.

(** C7, refuted on the code: the risk score of a buffer of identical bytes
    is its level, 4, which exceeds 1. *)
Lemma identical_bytes_score_4 :
  let v := validateFile (answering 0.1 "normal") [65; 65; 65] "a.bin"
                        "application/octet-stream" in
  criticalityLevel v = Some 4 /\ riskScore v = 4%R /\ (riskScore v > 1)%R.
Proof.
  destruct (score_identical3 (answering 0.1 "normal") "a.bin"
              "application/octet-stream") as (Hl & Hr).
  cbv zeta. rewrite Hl, Hr. repeat split. lra.
Qed.

(** C7, as the code has it: the risk score of an assessment is its
    criticality level itself, an integer from 0 to 4, so it grows with the
    level and can exceed 1; the route clamps it to [0, 1] when it records
    it as the confidence of a criticality alert, and every assessment that
    passes the criticality gate has a score of 0 or 1. *)
Theorem risk_score_is_level (ext : Externals) (req : Request)
    (f : UploadedFile) (b1 b2 : Buffer) (n1 n2 m1 m2 : string) :
  b1 <> [] -> b2 <> [] ->
  let v1 := validateFile ext b1 n1 m1 in
  let v2 := validateFile ext b2 n2 m2 in
  exists l1 l2,
    criticalityLevel v1 = Some l1 /\ criticalityLevel v2 = Some l2
    /\ riskScore v1 = IZR l1 /\ riskScore v2 = IZR l2
    /\ 0 <= l1 <= 4
    /\ (l1 <= l2 -> (riskScore v1 <= riskScore v2)%R)
    /\ (0 <= confidence (criticalityAlert req f v1) <= 1)%R
    /\ (l1 < 2 -> (0 <= riskScore v1 <= 1)%R).
Proof.
  intros H1 H2 v1 v2.
  destruct (validateFile_level_cases ext b1 n1 m1 H1)
    as (l1 & Hl1 & Hr1 & _ & Hrange1).
  destruct (validateFile_level_cases ext b2 n2 m2 H2)
    as (l2 & Hl2 & Hr2 & _ & Hrange2).
  fold v1 in Hl1, Hr1. fold v2 in Hl2, Hr2.
  exists l1, l2. repeat split; try assumption; try lia.
  - intros Hle. rewrite Hr1, Hr2. apply IZR_le. exact Hle.
  - unfold criticalityAlert. cbn [confidence]. rewrite Hr1.
    assert (0 <= IZR l1)%R by (apply IZR_le; lia).
    unfold Rmin. destruct (Rle_dec (IZR l1) 1.0); lra.
  - unfold criticalityAlert. cbn [confidence].
    unfold Rmin. destruct (Rle_dec (riskScore v1) 1.0); lra.
  - rewrite Hr1. apply IZR_le. lia.
  - rewrite Hr1. intros. apply IZR_le. lia.
Qed.

(** The confidence recorded for three identical bytes stays within [0, 1]. *)
Lemma risk_score_is_level_on_samples :
  let req := uploadOf [65; 65; 65] "a.bin" "application/octet-stream" in
  let f := mkUploadedFile (Some [65; 65; 65]) 3 "a.bin"
                          "application/octet-stream" in
  let v := validateFile (answering 0.1 "normal") [65; 65; 65] "a.bin"
                        "application/octet-stream" in
  [65; 65; 65] <> [] /\ plainBinary <> []
  /\ (0 <= confidence (criticalityAlert req f v) <= 1)%R.
Proof.
  intros req f v.
  assert ([65; 65; 65] <> []) as H1 by discriminate.
  assert (plainBinary <> []) as H2 by (vm_compute; discriminate).
  destruct (risk_score_is_level (answering 0.1 "normal") req f
              [65; 65; 65] plainBinary "a.bin" "data.bin"
              "application/octet-stream" "application/octet-stream" H1 H2)
    as (l1 & l2 & _ & _ & _ & _ & _ & _ & Hconf & _).
  repeat split; [exact H1 | exact H2 | apply Hconf | apply Hconf].
Defined.

(** ** Small buffers *)

Lemma entropyIssues_small (ext : Externals) (buffer : Buffer) :
  blen buffer <= 500 -> entropyIssues ext buffer = [].
Proof.
  intros Hlen. unfold entropyIssues.
  replace (512 <? blen buffer) with false by (symmetry; apply Z.ltb_ge; lia).
  replace (500 <? blen buffer) with false by (symmetry; apply Z.ltb_ge; lia).
  replace (1000 <? blen buffer) with false by (symmetry; apply Z.ltb_ge; lia).
  rewrite !andb_false_r. reflexivity.
Qed.

Lemma detectCorruption_small (ext : Externals) (buffer : Buffer)
    (filename : string) :
  blen buffer <= 500 ->
  nullByteIssues buffer filename ++ repeatedPatternIssues buffer
    ++ nullRatioIssues buffer = [] ->
  cc_issues (detectCorruption ext buffer filename) = []
  /\ cc_isCorrupted (detectCorruption ext buffer filename) = false.
Proof.
  intros Hlen Hnone. unfold detectCorruption. cbn [cc_issues cc_isCorrupted].
  rewrite (entropyIssues_small ext buffer Hlen).
  rewrite !app_assoc, app_nil_r, <- !app_assoc, Hnone.
  split; reflexivity.
Qed.

Lemma plainBinary_clean (ext : Externals) :
  let v := validateFile ext plainBinary "data.bin" "application/octet-stream" in
  level (classifyFileCriticality plainBinary "data.bin"
                                 "application/octet-stream") = 0
  /\ riskScore v = 0%R /\ isCorrupted v = false.
Proof.
  assert (plainBinary <> []) as Hne by (vm_compute; discriminate).
  destruct (validateFile_fields ext plainBinary "data.bin"
              "application/octet-stream" Hne) as (_ & Hr & _ & _ & _ & Hc & _).
  destruct (classify_fields plainBinary "data.bin" "application/octet-stream")
    as (Hband & _).
  rewrite entropy_plainBinary in Hband.
  rewrite (proj1 (proj2 (proj2 (entropyBand_level 5)))) in Hband by lra.
  rewrite Hband in Hr, Hc.
  destruct (detectCorruption_small ext plainBinary "data.bin") as (_ & Hcc);
    [vm_compute; discriminate | vm_compute; reflexivity |].
  rewrite Hcc in Hc.
  replace (checkFileStructure ext plainBinary "data.bin") with (@nil Issue)
    in Hc by (vm_compute; reflexivity).
  cbv zeta. repeat split; assumption.
Qed.

(** The same upload while the service answers with a label of its own. *)
Lemma plainBinary_stored (score : R) (label : string) :
  label <> "suspicious"%string ->
  let ext := answering score label in
  let req := uploadOf plainBinary "data.bin" "application/octet-stream" in
  code (fst (uploadHandler ext req emptyStore)) = 200.
Proof.
  intros Hlabel ext req.
  destruct (plainBinary_clean ext) as (Hl & Hr & Hc).
  assert (plainBinary <> []) as Hne by (vm_compute; discriminate).
  rewrite (upload_checked ext req
             (mkUploadedFile (Some plainBinary) (blen plainBinary)
                "data.bin" "application/octet-stream") plainBinary
             emptyStore eq_refl eq_refl Hne)
    by (vm_compute; discriminate).
  destruct (decideUpload_cases ext req
              (mkUploadedFile (Some plainBinary) (blen plainBinary)
                 "data.bin" "application/octet-stream") plainBinary
              emptyStore Hne)
    as [(H2 & _) | [(_ & Hwhy & _) | (_ & _ & _ & _ & doc & _ & ->)]].
  - simpl originalname in H2. simpl mimetype in H2. lia.
  - simpl originalname in Hwhy. simpl mimetype in Hwhy.
    destruct Hwhy as [Hs | [Hcor | Hgt]].
    + unfold idsAnalysis in Hs. simpl callIDS in Hs. rewrite Hr in Hs.
      rewrite Rgtb_false in Hs by lra. simpl in Hs. contradiction.
    + congruence.
    + lra.
  - reflexivity.
Qed.

(** ** The anomaly service is down (C2) *)

(** C2, refuted on the code: the clean upload is blocked while the service
    refuses connections, with the stand-in score 0.8 on record, and the same
    upload is stored when the service answers the higher score 0.9 under the
    label "normal". No threshold on the combined score gives both answers:
    the failed call is rejected by the label that the [catch] block sets,
    not by the floor. *)
Lemma oracle_failure_is_not_decided_by_the_floor :
  let req := uploadOf plainBinary "data.bin" "application/octet-stream" in
  let v := validateFile unreachable plainBinary "data.bin"
                        "application/octet-stream" in
  let down := uploadHandler unreachable req emptyStore in
  let up := uploadHandler (answering 0.9 "normal") req emptyStore in
  riskScore v = 0%R
  /\ code (fst down) = 403
  /\ (exists alert ids,
        alerts (snd down) = [alert]
        /\ alertIds alert = Some ids
        /\ anomaly_score ids = 0.8%R
        /\ verdict ids = "suspicious"%string
        /\ ml_score alert = 0.8%R)
  /\ code (fst up) = 200
  /\ forall threshold : R,
       ~ ((code (fst down) = 403
           <-> specRejectOnFailure threshold 0.8 (riskScore v) 0)
          /\ (code (fst up) = 403
              <-> specReject threshold (riskScore v) 0.9 0 "normal")).
Proof.
  intros req v down up.
  destruct (plainBinary_clean unreachable) as (Hl & Hr & Hc).
  fold v in Hr, Hc.
  assert (plainBinary <> []) as Hne by (vm_compute; discriminate).
  assert (idsAnalysis unreachable v
            (fileFeaturesOf unreachable
               (mkUploadedFile (Some plainBinary) (blen plainBinary)
                  "data.bin" "application/octet-stream") plainBinary v)
          = mkIdsResult 0.8 "suspicious" (Some "IDS service unavailable"%string))
    as Hids.
  { unfold idsAnalysis. simpl callIDS. rewrite Hr.
    rewrite Rgtb_false by lra. reflexivity. }
  assert (code (fst down) = 403
          /\ exists alert ids,
               alerts (snd down) = [alert]
               /\ alertIds alert = Some ids
               /\ anomaly_score ids = 0.8%R
               /\ verdict ids = "suspicious"%string
               /\ ml_score alert = 0.8%R) as Hdown.
  { subst down.
    rewrite (upload_checked unreachable req
               (mkUploadedFile (Some plainBinary) (blen plainBinary)
                  "data.bin" "application/octet-stream") plainBinary
               emptyStore eq_refl eq_refl Hne)
      by (vm_compute; discriminate).
    destruct (decideUpload_cases unreachable req
                (mkUploadedFile (Some plainBinary) (blen plainBinary)
                   "data.bin" "application/octet-stream") plainBinary
                emptyStore Hne)
      as [(H2 & _) | [(_ & _ & content & ->) | (_ & Hno & _)]].
    - simpl originalname in H2. simpl mimetype in H2. lia.
    - simpl originalname. simpl mimetype. fold v. rewrite Hids.
      split; [reflexivity |].
      eexists. eexists. split; [reflexivity |].
      split; [reflexivity |]. split; [reflexivity |].
      split; [reflexivity |].
      cbn [idsAlert ml_score anomaly_score]. rewrite Hr.
      apply Rmax_left. lra.
    - simpl originalname in Hno. simpl mimetype in Hno. fold v in Hno.
      rewrite Hids in Hno. contradiction. }
  assert (code (fst up) = 200) as Hup
    by (apply (plainBinary_stored 0.9 "normal"); discriminate).
  split; [exact Hr |]. split; [apply Hdown |]. split; [apply Hdown |].
  split; [exact Hup |].
  intros threshold [Hfloor Hrule]. rewrite Hr in Hfloor, Hrule.
  destruct Hdown as [H403 _].
  apply Hfloor in H403. destruct H403 as [Hgt | Hlevel]; [| lia].
  rewrite Rmax_right in Hgt by lra.
  assert (specReject threshold 0 0.9 0 "normal") as Hreject.
  { left. rewrite Rmax_right by lra. lra. }
  apply Hrule in Hreject. rewrite Hup in Hreject. discriminate.
Qed.

(** C2, as the code has it: when the call to the anomaly service throws
    for an upload that passed the input checks and the criticality gate,
    the route answers 403 with the blocked-upload body, not a server error,
    and stores nothing; it creates one alert that carries the stand-in
    result, score 0.8, label "suspicious" and an [error] marker, and whose
    score is [max(riskScore, 0.8)], hence at least 0.8. The rejection comes
    from the label of the stand-in and from no score: had the service
    answered, with any score and a label other than "suspicious", an
    assessment that is not flagged corrupted would have been stored. *)
Theorem oracle_failure_rejects_by_forced_label (ext : Externals)
    (req : Request) (f : UploadedFile) (buf : Buffer) (db : Store)
    (message : string) :
  file req = Some f -> buffer f = Some buf -> buf <> [] ->
  size f <= maxSize ->
  level (classifyFileCriticality buf (originalname f) (mimetype f)) < 2 ->
  let v := validateFile ext buf (originalname f) (mimetype f) in
  let features := fileFeaturesOf ext f buf v in
  callIDS ext features = inl message ->
  (exists content alert ids marker,
     uploadHandler ext req db
     = (mkResponse 403 content,
        mkStore (alerts db ++ [alert]) (transfers db)
                (idsRequests db ++ [features]) (wsMessages db))
     /\ alertIds alert = Some ids
     /\ error ids = Some marker
     /\ verdict ids = "suspicious"%string
     /\ anomaly_score ids = 0.8%R
     /\ ml_score alert = Rmax (riskScore v) 0.8
     /\ confidence alert = Rmax (riskScore v) 0.8
     /\ (ml_score alert >= 0.8)%R)
  /\ (isCorrupted v = false ->
      forall (score : R) (label : string),
        label <> "suspicious"%string ->
        code (fst (uploadHandler
                     (mkExternals (getEntropyFeatures ext) (sharpMetadata ext)
                        (pdfParse ext) (admZip ext)
                        (fun _ => inr (score, label)))
                     req db))
        = 200).
Proof.
  intros Hf Hb Hne Hsize Hl v features Hcall.
  destruct (past_the_gate ext buf (originalname f) (mimetype f) Hne Hl)
    as (_ & Hr & _).
  fold v in Hr.
  assert (idsAnalysis ext v features
          = mkIdsResult 0.8 "suspicious" (Some "IDS service unavailable"%string))
    as Hids.
  { unfold idsAnalysis. rewrite Hcall, Hr.
    rewrite Rgtb_false by lra. reflexivity. }
  split.
  - rewrite (upload_checked ext req f buf db Hf Hb Hne Hsize).
    destruct (decideUpload_cases ext req f buf db Hne)
      as [(H2 & _) | [(_ & _ & content & Heq) | (_ & Hno & _)]].
    + lia.
    + fold v features in Heq. rewrite Hids in Heq.
      exists content,
        (idsAlert req f v
           (mkIdsResult 0.8 "suspicious"
              (Some "IDS service unavailable"%string))),
        (mkIdsResult 0.8 "suspicious" (Some "IDS service unavailable"%string)),
        "IDS service unavailable"%string.
      split; [exact Heq |].
      split; [reflexivity |]. split; [reflexivity |].
      split; [reflexivity |]. split; [reflexivity |].
      cbn [idsAlert ml_score confidence anomaly_score].
      rewrite (Rmax_comm 0.8 (riskScore v)).
      split; [reflexivity |]. split; [reflexivity |].
      pose proof (Rmax_r (riskScore v) 0.8). lra.
    + fold v features in Hno. rewrite Hids in Hno. contradiction.
  - intros Hclean score label Hlabel.
    set (ext2 := mkExternals (getEntropyFeatures ext) (sharpMetadata ext)
                   (pdfParse ext) (admZip ext)
                   (fun _ => inr (score, label))).
    assert (validateFile ext2 buf (originalname f) (mimetype f) = v) as Hsame
      by reflexivity.
    rewrite (upload_checked ext2 req f buf db Hf Hb Hne Hsize).
    destruct (decideUpload_cases ext2 req f buf db Hne)
      as [(H2 & _) | [(_ & Hwhy & _) | (_ & _ & _ & _ & doc & _ & ->)]].
    + lia.
    + rewrite Hsame in Hwhy. destruct Hwhy as [Hs | [Hcor | Hgt]].
      * unfold idsAnalysis in Hs. simpl callIDS in Hs. rewrite Hr in Hs.
        rewrite Rgtb_false in Hs by lra. simpl in Hs. contradiction.
      * congruence.
      * lra.
    + reflexivity.
Qed.

(** A clean upload while the service refuses connections. *)
Lemma oracle_failure_rejects_by_forced_label_on_plainBinary :
  let req := uploadOf plainBinary "data.bin" "application/octet-stream" in
  (exists content alert,
     uploadHandler unreachable req emptyStore
     = (mkResponse 403 content,
        mkStore [alert] []
          [fileFeaturesOf unreachable
             (mkUploadedFile (Some plainBinary) (blen plainBinary) "data.bin"
                             "application/octet-stream")
             plainBinary
             (validateFile unreachable plainBinary "data.bin"
                           "application/octet-stream")] [])
     /\ (ml_score alert >= 0.8)%R)
  /\ code (fst (uploadHandler
                  (mkExternals (getEntropyFeatures unreachable)
                     (sharpMetadata unreachable) (pdfParse unreachable)
                     (admZip unreachable)
                     (fun _ => inr (0.9%R, "normal"%string)))
                  req emptyStore))
     = 200.
Proof.
  intros req.
  destruct (plainBinary_clean unreachable) as (Hl & _ & Hc).
  destruct (oracle_failure_rejects_by_forced_label unreachable req
              (mkUploadedFile (Some plainBinary) (blen plainBinary) "data.bin"
                              "application/octet-stream")
              plainBinary emptyStore "connect ECONNREFUSED")
    as ((content & alert & ids & marker & Heq & _ & _ & _ & _ & _ & _ & Hge)
        & Hlabel).
  - reflexivity.
  - reflexivity.
  - vm_compute; discriminate.
  - vm_compute; discriminate.
  - simpl originalname. simpl mimetype. rewrite Hl. lia.
  - reflexivity.
  - split.
    + exists content, alert. split; [exact Heq | exact Hge].
    + apply Hlabel; [exact Hc | discriminate].
Defined.

(** ** The decision rule (C3) *)

(** C3, refuted on the code, in both directions: a clean upload for which
    the service answers score 0.9 with label "normal" is stored although
    the combined score crosses 0.5; the truncated JPEG is blocked although
    its combined score is 0.1, its level 0 and the label "normal". *)
Lemma decision_differs_from_three_conditions :
  (let ext := answering 0.9 "normal" in
   let req := uploadOf plainBinary "data.bin" "application/octet-stream" in
   let v := validateFile ext plainBinary "data.bin"
                         "application/octet-stream" in
   code (fst (uploadHandler ext req emptyStore)) = 200
   /\ specReject 0.5 (riskScore v) 0.9 0 "normal")
  /\
  (let ext := answering 0.1 "normal" in
   let req := uploadOf truncatedJpeg "photo.jpg" "image/jpeg" in
   let v := validateFile ext truncatedJpeg "photo.jpg" "image/jpeg" in
   code (fst (uploadHandler ext req emptyStore)) = 403
   /\ criticalityLevel v = Some 0
   /\ ~ specReject 0.5 (riskScore v) 0.1 0 "normal").
Proof.
  split.
  - intros ext req v.
    destruct (plainBinary_clean ext) as (Hl & Hr & Hc). fold v in Hr, Hc.
    assert (plainBinary <> []) as Hne by (vm_compute; discriminate).
    split.
    + rewrite (upload_checked ext req
                 (mkUploadedFile (Some plainBinary) (blen plainBinary)
                    "data.bin" "application/octet-stream") plainBinary
                 emptyStore eq_refl eq_refl Hne)
        by (vm_compute; discriminate).
      destruct (decideUpload_cases ext req
                  (mkUploadedFile (Some plainBinary) (blen plainBinary)
                     "data.bin" "application/octet-stream") plainBinary
                  emptyStore Hne)
        as [(H2 & _) | [(_ & Hwhy & _) | (_ & _ & _ & _ & doc & _ & ->)]].
      * simpl originalname in H2. simpl mimetype in H2. lia.
      * simpl originalname in Hwhy. simpl mimetype in Hwhy.
        fold v in Hwhy. destruct Hwhy as [Hs | [Hcor | Hgt]].
        -- unfold idsAnalysis in Hs. simpl callIDS in Hs. rewrite Hr in Hs.
           rewrite Rgtb_false in Hs by lra. simpl in Hs. discriminate.
        -- congruence.
        -- lra.
      * reflexivity.
    + left. rewrite Hr. pose proof (Rmax_r 0 0.9). lra.
  - intros ext req v.
    assert (truncatedJpeg <> []) as Hne by (vm_compute; discriminate).
    destruct (validateFile_fields ext truncatedJpeg "photo.jpg" "image/jpeg"
                Hne) as (Hl & Hr & _).
    rewrite level_truncatedJpeg in Hl, Hr. fold v in Hl, Hr.
    split; [| split; [exact Hl |]].
    + rewrite (upload_checked ext req
                 (mkUploadedFile (Some truncatedJpeg) (blen truncatedJpeg)
                    "photo.jpg" "image/jpeg") truncatedJpeg emptyStore
                 eq_refl eq_refl Hne)
        by (vm_compute; discriminate).
      destruct (decideUpload_cases ext req
                  (mkUploadedFile (Some truncatedJpeg) (blen truncatedJpeg)
                     "photo.jpg" "image/jpeg") truncatedJpeg emptyStore Hne)
        as [(_ & c & ->) | [(_ & _ & c & ->) | (_ & _ & Hno & _)]];
        try reflexivity.
      simpl originalname in Hno. simpl mimetype in Hno.
      destruct (validateFile_fields ext truncatedJpeg "photo.jpg" "image/jpeg"
                  Hne) as (_ & _ & _ & _ & _ & Hc & _).
      rewrite Hc in Hno. unfold ext in Hno.
      rewrite structure_truncatedJpeg in Hno.
      simpl length in Hno. change (Nat.ltb 0 2) with true in Hno.
      rewrite orb_true_r in Hno. discriminate.
    + rewrite Hr. intros [Hgt | [Hlev | Hlab]].
      * unfold Rmax in Hgt. destruct (Rle_dec 0 0.1); lra.
      * lia.
      * discriminate.
Qed.

(** C3, as the code has it: an upload that passes the input checks is
    answered 403 or 200, and it is answered 403 exactly when the level is
    at least 2, or the assessment is flagged corrupted, or the risk score
    exceeds 0.5, or the call to the anomaly service throws, or the service
    answers with the label "suspicious". The score of the service alone
    never blocks an upload. *)
Theorem upload_rejection_rule (ext : Externals) (req : Request)
    (f : UploadedFile) (buf : Buffer) (db : Store) :
  file req = Some f -> buffer f = Some buf -> buf <> [] ->
  size f <= maxSize ->
  let v := validateFile ext buf (originalname f) (mimetype f) in
  let l := level (classifyFileCriticality buf (originalname f) (mimetype f)) in
  let features := fileFeaturesOf ext f buf v in
  let answer := code (fst (uploadHandler ext req db)) in
  (answer = 403 \/ answer = 200)
  /\ (answer = 403 <->
      (2 <= l \/ isCorrupted v = true \/ (riskScore v > 0.5)%R
       \/ (exists message, callIDS ext features = inl message)
       \/ (exists score,
             callIDS ext features = inr (score, "suspicious"%string)))).
Proof.
  intros Hf Hb Hne Hsize v l features answer. subst answer.
  rewrite (upload_checked ext req f buf db Hf Hb Hne Hsize).
  destruct (decideUpload_cases ext req f buf db Hne)
    as [(H2 & c & ->) | [(Hl & Hwhy & c & ->) | (Hl & Hn & Hc & Hr & doc & _ & ->)]];
    cbn [fst code].
  - split; [left; reflexivity |]. split; [intros _; left; exact H2 | reflexivity].
  - fold v features in Hwhy.
    split; [left; reflexivity |]. split; [intros _ | reflexivity].
    pose proof (risk_below_gate ext buf (originalname f) (mimetype f) Hne Hl)
      as Hrisk. fold v in Hrisk.
    destruct Hwhy as [Hs | [Hcor | Hgt]].
    + apply (idsAnalysis_verdict ext v features Hrisk) in Hs.
      destruct Hs as [Hs | [Hs | Hs]]; auto.
    + auto.
    + auto.
  - fold v features in Hn, Hc, Hr.
    split; [right; reflexivity |]. split; [discriminate |].
    pose proof (risk_below_gate ext buf (originalname f) (mimetype f) Hne Hl)
      as Hrisk. fold v in Hrisk.
    intros [H2 | [Hcor | [Hgt | Hids]]]; [lia | congruence | lra |].
    exfalso. apply Hn.
    apply (idsAnalysis_verdict ext v features Hrisk).
    destruct Hids as [Hd | Hlab]; [left | right; left]; assumption.
Qed.

(** A clean upload passes the input checks and gets one of the two answers. *)
Lemma upload_rejection_rule_on_plainBinary :
  let ext := answering 0.9 "normal" in
  let req := uploadOf plainBinary "data.bin" "application/octet-stream" in
  plainBinary <> []
  /\ (code (fst (uploadHandler ext req emptyStore)) = 403
      \/ code (fst (uploadHandler ext req emptyStore)) = 200).
Proof.
  intros ext req.
  assert (plainBinary <> []) as Hne by (vm_compute; discriminate).
  split; [exact Hne |].
  apply (upload_rejection_rule ext req
           (mkUploadedFile (Some plainBinary) (blen plainBinary) "data.bin"
                           "application/octet-stream")
           plainBinary emptyStore eq_refl eq_refl Hne).
  vm_compute. discriminate.
Defined.

(** ** One record per decision (C5) *)

(** C5, refuted on the code: the alert created at the criticality gate
    carries neither a result of the anomaly service nor a failure marker,
    since the service is not called before that gate. *)
Lemma criticality_alert_has_no_oracle_result :
  let ext := answering 0.1 "normal" in
  let req := uploadOf [65; 65; 65] "a.bin" "application/octet-stream" in
  exists content alert,
    uploadHandler ext req emptyStore
    = (mkResponse 403 content, mkStore [alert] [] [] [])
    /\ alertIds alert = None.
Proof.
  intros ext req.
  assert ([65; 65; 65] <> []) as Hne by discriminate.
  rewrite (upload_checked ext req
             (mkUploadedFile (Some [65; 65; 65]) 3 "a.bin"
                "application/octet-stream") [65; 65; 65] emptyStore
             eq_refl eq_refl Hne)
    by (vm_compute; discriminate).
  destruct (score_identical3 ext "a.bin" "application/octet-stream")
    as (Hl & _).
  destruct (validateFile_level_cases ext [65; 65; 65] "a.bin"
              "application/octet-stream" Hne) as (l & Hl' & _ & -> & _).
  rewrite Hl in Hl'. inversion Hl' as [H4].
  destruct (decideUpload_cases ext req
              (mkUploadedFile (Some [65; 65; 65]) 3 "a.bin"
                 "application/octet-stream") [65; 65; 65] emptyStore Hne)
    as [(_ & c & ->) | [(Hlt & _) | (Hlt & _)]].
  - eexists. eexists. split; reflexivity.
  - simpl originalname in Hlt. simpl mimetype in Hlt. lia.
  - simpl originalname in Hlt. simpl mimetype in Hlt. lia.
Qed.

(** C5, as the code has it: an upload that passes the input checks has
    exactly one of two effects on the collections. Answered 403, it adds one
    alert and no transfer; the alert carries the issues and the detected
    type, together with the entropy and no result of the service when the
    criticality gate blocks (the service is not called), and together with
    the result of the service, failure marker included, when the later gate
    blocks. Answered 200, it adds one transfer and no alert. *)
Theorem upload_has_one_effect (ext : Externals) (req : Request)
    (f : UploadedFile) (buf : Buffer) (db : Store) :
  file req = Some f -> buffer f = Some buf -> buf <> [] ->
  size f <= maxSize ->
  let v := validateFile ext buf (originalname f) (mimetype f) in
  let l := level (classifyFileCriticality buf (originalname f) (mimetype f)) in
  let features := fileFeaturesOf ext f buf v in
  let answer := fst (uploadHandler ext req db) in
  let db' := snd (uploadHandler ext req db) in
  (code answer = 403
   /\ transfers db' = transfers db
   /\ exists alert,
       alerts db' = alerts db ++ [alert]
       /\ alertIssues alert = issues v
       /\ alertDetectedType alert = detectedType v
       /\ ((2 <= l /\ alertEntropy alert = Some (entropy v)
            /\ alertIds alert = None /\ idsRequests db' = idsRequests db)
           \/ (l < 2
               /\ alertIds alert = Some (idsAnalysis ext v features)
               /\ idsRequests db' = idsRequests db ++ [features])))
  \/ (code answer = 200
      /\ alerts db' = alerts db
      /\ exists doc,
          transfers db' = transfers db ++ [doc]
          /\ ids_result doc = idsAnalysis ext v features).
Proof.
  intros Hf Hb Hne Hsize v l features answer db'. subst answer db'.
  rewrite (upload_checked ext req f buf db Hf Hb Hne Hsize).
  destruct (decideUpload_cases ext req f buf db Hne)
    as [(H2 & c & ->) | [(Hl & _ & c & ->) | (Hl & _ & _ & _ & doc & Hdoc & ->)]];
    cbn [fst snd code alerts transfers idsRequests].
  - left. split; [reflexivity |]. split; [reflexivity |].
    eexists. split; [reflexivity |].
    split; [reflexivity |]. split; [reflexivity |].
    left. repeat split. exact H2.
  - left. split; [reflexivity |]. split; [reflexivity |].
    eexists. split; [reflexivity |].
    split; [reflexivity |]. split; [reflexivity |].
    right. repeat split. exact Hl.
  - right. split; [reflexivity |]. split; [reflexivity |].
    exists doc. split; [reflexivity | exact Hdoc].
Qed.

(** Three identical bytes leave exactly one record behind. *)
Lemma upload_has_one_effect_on_identical_bytes :
  let ext := answering 0.1 "normal" in
  let req := uploadOf [65; 65; 65] "a.bin" "application/octet-stream" in
  [65; 65; 65] <> []
  /\ (length (alerts (snd (uploadHandler ext req emptyStore)))
      + length (transfers (snd (uploadHandler ext req emptyStore))) = 1)%nat.
Proof.
  intros ext req.
  assert ([65; 65; 65] <> []) as Hne by discriminate.
  split; [exact Hne |].
  destruct (upload_has_one_effect ext req
              (mkUploadedFile (Some [65; 65; 65]) 3 "a.bin"
                              "application/octet-stream")
              [65; 65; 65] emptyStore eq_refl eq_refl Hne)
    as [(_ & Ht & alert & Ha & _) | (_ & Ha & doc & Ht & _)].
  - vm_compute. discriminate.
  - rewrite Ht, Ha. reflexivity.
  - rewrite Ht, Ha. reflexivity.
Defined.

(** ** Empty and oversized uploads (C6, C10) *)

(** C6: an upload whose buffer has length 0 is answered 400 with the error
    "File is empty or invalid", which is neither the blocked nor the stored
    answer; no alert and no transfer is created, the anomaly service is not
    called, and the assessment of an empty buffer has no criticality
    level. *)
Theorem empty_upload_is_an_error (ext : Externals) (req : Request)
    (f : UploadedFile) (buf : Buffer) (db : Store) :
  file req = Some f -> buffer f = Some buf -> length buf = 0%nat ->
  uploadHandler ext req db
  = (mkResponse 400 (ErrorBody "File is empty or invalid"), db)
  /\ criticalityLevel (validateFile ext buf (originalname f) (mimetype f))
     = None.
Proof.
  intros Hf Hb Hlen. destruct buf as [| b rest]; [| discriminate].
  unfold uploadHandler. rewrite Hf, Hb. split; reflexivity.
Qed.

(** The empty [empty.txt] of the test suite. *)
Lemma empty_upload_is_an_error_on_empty_txt :
  let req := uploadOf [] "empty.txt" "text/plain" in
  uploadHandler (answering 0.1 "normal") req emptyStore
  = (mkResponse 400 (ErrorBody "File is empty or invalid"), emptyStore).
Proof.
  intros req.
  apply (empty_upload_is_an_error (answering 0.1 "normal") req
           (mkUploadedFile (Some []) 0 "empty.txt" "text/plain") []
           emptyStore eq_refl eq_refl eq_refl).
Defined.

(** C10: an upload whose size exceeds 100 * 1024 * 1024 bytes is answered
    400 with an error, whatever the parsers and the anomaly service would
    say; the collections and the list of requests to the service are left
    as they were. *)
Theorem oversized_upload_is_refused (ext : Externals) (req : Request)
    (f : UploadedFile) (db : Store) :
  file req = Some f -> maxSize < size f ->
  (exists message,
     uploadHandler ext req db = (mkResponse 400 (ErrorBody message), db))
  /\ maxSize = 104857600
  /\ forall other : Externals,
       uploadHandler other req db = uploadHandler ext req db.
Proof.
  intros Hf Hsize. unfold uploadHandler. rewrite Hf.
  apply Z.ltb_lt in Hsize.
  destruct (buffer f) as [buf |].
  - destruct (blen buf =? 0).
    + repeat split; eexists; reflexivity.
    + rewrite Hsize. repeat split; eexists; reflexivity.
  - repeat split; eexists; reflexivity.
Qed.

(** A declared size of one byte over the limit. *)
Lemma oversized_upload_is_refused_one_byte_over :
  let f := mkUploadedFile (Some [1]) 104857601 "big.bin"
                          "application/octet-stream" in
  let req := mkRequest (Some f) "user-1" None None None in
  maxSize < size f
  /\ exists message,
       uploadHandler (answering 0.1 "normal") req emptyStore
       = (mkResponse 400 (ErrorBody message), emptyStore).
Proof.
  intros f req.
  assert (maxSize < size f) as Hsize by (vm_compute; reflexivity).
  split; [exact Hsize |].
  exact (proj1 (oversized_upload_is_refused (answering 0.1 "normal") req f
                  emptyStore eq_refl Hsize)).
Defined.

(** ** The one-line text file (C8) *)

(** C8, the route on the input of the scenario: the 39-byte text raises no
    corruption or structure finding, yet its entropy lies below 4.5, its
    level is 3 and the upload is answered 403 with one alert and no
    transfer; the anomaly service is not called. *)
Theorem valid_text_upload_is_blocked :
  let ext := answering 0.1 "normal" in
  let req := uploadOf validText "valid.txt" "text/plain" in
  let v := validateFile ext validText "valid.txt" "text/plain" in
  length validText = 39%nat
  /\ cc_issues (detectCorruption ext validText "valid.txt") = []
  /\ checkFileStructure ext validText "valid.txt" = []
  /\ (3 < entropy v < 4)%R
  /\ criticalityLevel v = Some 3
  /\ exists content alert,
       uploadHandler ext req emptyStore
       = (mkResponse 403 content, mkStore [alert] [] [] []).
Proof.
  intros ext req v.
  assert (validText <> []) as Hne by (vm_compute; discriminate).
  destruct (validateFile_fields ext validText "valid.txt" "text/plain" Hne)
    as (Hl & _ & He & _).
  destruct (classify_fields validText "valid.txt" "text/plain") as (Hband & _).
  pose proof entropy_validText as Hent.
  rewrite (proj1 (proj2 (entropyBand_level _))) in Hband by lra.
  fold v in Hl, He. rewrite Hband in Hl.
  split; [vm_compute; reflexivity |].
  split.
  { apply detectCorruption_small;
      [vm_compute; discriminate | vm_compute; reflexivity]. }
  split; [vm_compute; reflexivity |].
  split; [rewrite He; exact Hent |].
  split; [exact Hl |].
  rewrite (upload_checked ext req
             (mkUploadedFile (Some validText) (blen validText) "valid.txt"
                             "text/plain") validText emptyStore
             eq_refl eq_refl Hne)
    by (vm_compute; discriminate).
  destruct (decideUpload_cases ext req
              (mkUploadedFile (Some validText) (blen validText) "valid.txt"
                              "text/plain") validText emptyStore Hne)
    as [(_ & c & ->) | [(Hlt & _) | (Hlt & _)]].
  - eexists. eexists. reflexivity.
  - simpl originalname in Hlt. simpl mimetype in Hlt. lia.
  - simpl originalname in Hlt. simpl mimetype in Hlt. lia.
Qed.

(** ** Handshake sessions (C9) *)

Module HandshakeFacts.

Import Handshake.

Lemma validate_settled (policy : Policy) (now : Z) (handshakeId : string)
    (signature : option Key) (sessions : gmap string HandshakeSession)
    (s : HandshakeSession) :
  sessions !! handshakeId = Some s ->
  state s = VALIDATED \/ state s = FAILED ->
  validate policy now handshakeId signature sessions
  = (Failure InvalidSessionState, sessions).
Proof.
  intros Hlook Hstate. unfold validate. rewrite Hlook.
  destruct Hstate as [-> | ->]; reflexivity.
Qed.

Lemma validateAll_settled (policy : Policy) (handshakeId : string)
    (sessions : gmap string HandshakeSession) (s : HandshakeSession)
    (calls : list (Z * option Key)) :
  sessions !! handshakeId = Some s ->
  state s = VALIDATED \/ state s = FAILED ->
  validateAll policy calls handshakeId sessions
  = (map (fun _ => Failure InvalidSessionState) calls, sessions).
Proof.
  intros Hlook Hstate. induction calls as [| [now signature] rest IH].
  - reflexivity.
  - simpl. rewrite (validate_settled policy now handshakeId signature
                      sessions s Hlook Hstate), IH. reflexivity.
Qed.

(** C9: the first [validate] on a pending, unexpired session moves it to
    VALIDATED, releasing the key, or to FAILED, with the key erased; every
    later [validate] on that session, at any time and with any signature,
    fails with [InvalidSessionState], leaves the store as it is and
    releases nothing, so a session sees at most one release. *)
Theorem validate_is_accept_once (policy : Policy) (now : Z)
    (handshakeId : string) (signature : option Key)
    (sessions : gmap string HandshakeSession) (s : HandshakeSession)
    (calls : list (Z * option Key)) :
  sessions !! handshakeId = Some s ->
  state s = PENDING ->
  now < expiresAt s ->
  let first := validate policy now handshakeId signature sessions in
  let later := validateAll policy calls handshakeId (snd first) in
  (exists s1,
     snd first !! handshakeId = Some s1
     /\ ((state s1 = VALIDATED /\ released (fst first) = true)
         \/ (state s1 = FAILED /\ fst first = SuspiciousResult
             /\ derivedSessionKey s1 = None)))
  /\ fst later = map (fun _ => Failure InvalidSessionState) calls
  /\ snd later = snd first
  /\ (length (List.filter released (fst first :: fst later)) <= 1)%nat.
Proof.
  intros Hlook Hstate Hnow first later.
  assert (exists s1,
            snd first !! handshakeId = Some s1
            /\ ((state s1 = VALIDATED /\ released (fst first) = true)
                \/ (state s1 = FAILED /\ fst first = SuspiciousResult
                    /\ derivedSessionKey s1 = None))) as Hfirst.
  { subst first. unfold validate. rewrite Hlook, Hstate.
    replace (expiresAt s <=? now) with false
      by (symmetry; apply Z.leb_gt; assumption).
    destruct (fuse policy (localProxy policy s signature) _);
      cbn [fst snd]; eexists; (split; [apply lookup_insert_eq |]).
    - left. split; reflexivity.
    - right. repeat split. }
  destruct Hfirst as (s1 & Hs1 & Hcases).
  assert (state s1 = VALIDATED \/ state s1 = FAILED) as Hout
    by (destruct Hcases as [(H & _) | (H & _)]; auto).
  pose proof (validateAll_settled policy handshakeId (snd first) s1 calls
                Hs1 Hout) as Hlater.
  fold later in Hlater.
  split; [exists s1; split; assumption |].
  rewrite Hlater. cbn [fst snd].
  split; [reflexivity |]. split; [reflexivity |].
  cbn [List.filter].
  assert (List.filter released
            (map (fun _ : Z * option Key => Failure InvalidSessionState) calls)
          = []) as ->.
  { clear. induction calls as [| c rest IH]; [reflexivity | exact IH]. }
  destruct (released (fst first)); simpl; lia.
Qed.

(** One pending session, validated at time 10 and tried again at times 20
    and 400. *)
Lemma validate_is_accept_once_on_sample :
  let first := validate samplePolicy 10 "hs-1" None sampleSessions in
  sampleSessions !! "hs-1"%string
  = Some (mkSession (repeat 7 32) (repeat 9 32) (repeat 5 32) PENDING 0 300
                    None)
  /\ 10 < 300
  /\ fst (validateAll samplePolicy [(20, None); (400, Some [1])] "hs-1"
                      (snd first))
     = [Failure InvalidSessionState; Failure InvalidSessionState].
Proof.
  intros first.
  assert (sampleSessions !! "hs-1"%string
          = Some (mkSession (repeat 7 32) (repeat 9 32) (repeat 5 32) PENDING
                            0 300 None)) as Hlook
    by (apply lookup_insert_eq).
  assert (10 < 300) as Hnow by lia.
  split; [exact Hlook |]. split; [exact Hnow |].
  destruct (validate_is_accept_once samplePolicy 10 "hs-1" None
              sampleSessions _ [(20, None); (400, Some [1])]
              Hlook eq_refl Hnow) as (_ & Hlater & _).
  exact Hlater.
Defined.

End HandshakeFacts.

(** * Further properties of the validation module and of the route *)

(** ** Type detection *)

Lemma signatureMatches_head (b s : Z) (rest signature : list Z) :
  b <> s -> signatureMatches (b :: rest) (s :: signature) = false.
Proof.
  intros Hne. unfold signatureMatches. cbn [length seq forallb byteAt nth].
  replace (b =? s) with false by (symmetry; apply Z.eqb_neq; exact Hne).
  reflexivity.
Qed.

Lemma forallb_agree {A : Type} (f g : A -> bool) (l : list A) :
  (forall x, In x l -> f x = g x) -> forallb f l = forallb g l.
Proof.
  induction l as [| x rest IH]; intros H; [reflexivity |].
  cbn [forallb]. rewrite (H x (or_introl eq_refl)), IH; [reflexivity |].
  intros y Hy. apply H. right. exact Hy.
Qed.

(** The two conditions of one turn of the loop of [detectFileType]. *)
Lemma signature_test_app (buffer more signature : list Z) :
  (length signature <= length buffer)%nat ->
  ((Z.of_nat (length signature) <=? blen (buffer ++ more))
   && signatureMatches (buffer ++ more) signature)
  = ((Z.of_nat (length signature) <=? blen buffer)
     && signatureMatches buffer signature).
Proof.
  intros Hlen.
  replace (Z.of_nat (length signature) <=? blen (buffer ++ more)) with true
    by (symmetry; apply Z.leb_le; unfold blen; rewrite length_app; lia).
  replace (Z.of_nat (length signature) <=? blen buffer) with true
    by (symmetry; apply Z.leb_le; unfold blen; lia).
  cbn [andb]. unfold signatureMatches.
  apply forallb_agree. intros i Hi. rewrite in_seq in Hi.
  unfold byteAt. rewrite app_nth1 by lia. reflexivity.
Qed.

Lemma firstSignature_app (table : list (string * option (list Z)))
    (buffer more : list Z) :
  List.Forall (fun entry => match snd entry with
                            | Some signature =>
                                (length signature <= length buffer)%nat
                            | None => True
                            end) table ->
  firstSignature table (buffer ++ more) = firstSignature table buffer.
Proof.
  induction 1 as [| [mimeType [signature |]] rest Hentry _ IH];
    cbn [firstSignature]; [reflexivity | | exact IH].
  cbn [snd] in Hentry. rewrite (signature_test_app _ _ _ Hentry), IH.
  reflexivity.
Qed.

(** X1: [detectFileType] never answers "application/zip": the entry of the
    word-processing type, listed before it, has the same four bytes. The
    ZIP branch of [checkFileStructure] is therefore never taken, and what
    the archive reader would say changes nothing. *)
Theorem zip_type_is_never_detected (ext : Externals) (buffer : Buffer)
    (filename : string) (reader : Buffer -> string + (nat * option string)) :
  detectFileType buffer <> Some "application/zip"%string
  /\ checkFileStructure
       (mkExternals (getEntropyFeatures ext) (sharpMetadata ext)
                    (pdfParse ext) reader (callIDS ext)) buffer filename
     = checkFileStructure ext buffer filename.
Proof.
  assert (detectFileType buffer <> Some "application/zip"%string) as Hzip.
  { unfold detectFileType. destruct buffer as [| b rest]; [discriminate |].
    unfold FILE_SIGNATURES. cbn [firstSignature].
    repeat match goal with
           | |- context [if ?c then _ else _] => destruct c
           end; intros H; inversion H. }
  split; [exact Hzip |].
  unfold checkFileStructure. destruct (negb (truthy filename)); [reflexivity |].
  destruct (detectFileType buffer) as [detected |] eqn:Hd; [| reflexivity].
  destruct (String.eqb detected "application/zip") eqn:Heq.
  - apply String.eqb_eq in Heq. subst detected. contradiction.
  - reflexivity.
Qed.

(** X3: once a buffer holds eight bytes, the longest signature, the detected
    type is settled: bytes appended to it never change it. *)
Theorem detected_type_ignores_appended_bytes (buffer more : Buffer) :
  (8 <= length buffer)%nat ->
  detectFileType (buffer ++ more) = detectFileType buffer.
Proof.
  intros Hlen. unfold detectFileType.
  destruct buffer as [| b rest]; [simpl in Hlen; lia |].
  change ((b :: rest) ++ more) with (b :: (rest ++ more)).
  change (b :: (rest ++ more)) with ((b :: rest) ++ more).
  rewrite firstSignature_app; [reflexivity |].
  unfold FILE_SIGNATURES. simpl length in Hlen.
  repeat (constructor; [cbn; first [lia | exact I] |]). constructor.
Qed.

(** A PNG header followed by anything is still a PNG. *)
Lemma detected_type_ignores_appended_bytes_on_png :
  (8 <= length [0x89; 0x50; 0x4E; 0x47; 0x0D; 0x0A; 0x1A; 0x0A])%nat
  /\ detectFileType ([0x89; 0x50; 0x4E; 0x47; 0x0D; 0x0A; 0x1A; 0x0A]
                     ++ [0; 0; 0])
     = Some "image/png"%string.
Proof.
  assert (8 <= length [0x89; 0x50; 0x4E; 0x47; 0x0D; 0x0A; 0x1A; 0x0A])%nat
    as Hlen by (simpl; lia).
  split; [exact Hlen |].
  rewrite (detected_type_ignores_appended_bytes
             [0x89; 0x50; 0x4E; 0x47; 0x0D; 0x0A; 0x1A; 0x0A] [0; 0; 0] Hlen).
  reflexivity.
Defined.

Lemma blen_cons_gt (b : Z) (rest : Buffer) (n : Z) :
  n <= Z.of_nat (length rest) + 1 -> (n <=? blen (b :: rest)) = true.
Proof.
  intros H. apply Z.leb_le. unfold blen. simpl length. lia.
Qed.

Lemma detect_jpeg (rest : Buffer) :
  detectFileType (0xFF :: 0xD8 :: 0xFF :: rest) = Some "image/jpeg"%string.
Proof.
  unfold detectFileType, FILE_SIGNATURES. cbn [firstSignature].
  replace (Z.of_nat (length [0xFF; 0xD8; 0xFF])
           <=? blen (0xFF :: 0xD8 :: 0xFF :: rest)) with true
    by (symmetry; apply Z.leb_le; unfold blen; simpl length; lia).
  reflexivity.
Qed.

Lemma detect_png (rest : Buffer) :
  detectFileType ([0x89; 0x50; 0x4E; 0x47; 0x0D; 0x0A; 0x1A; 0x0A] ++ rest)
  = Some "image/png"%string.
Proof.
  unfold detectFileType, FILE_SIGNATURES. cbn [app firstSignature].
  rewrite signatureMatches_head by discriminate. rewrite andb_false_r.
  replace (Z.of_nat (length [0x89; 0x50; 0x4E; 0x47; 0x0D; 0x0A; 0x1A; 0x0A])
           <=? blen (0x89 :: 0x50 :: 0x4E :: 0x47 :: 0x0D :: 0x0A :: 0x1A
                     :: 0x0A :: rest)) with true
    by (symmetry; apply Z.leb_le; unfold blen; simpl length; lia).
  reflexivity.
Qed.

Lemma detect_pk (rest : Buffer) :
  detectFileType (0x50 :: 0x4B :: 0x03 :: 0x04 :: rest)
  = Some "application/vnd.openxmlformats-officedocument.wordprocessingml.document"%string.
Proof.
  unfold detectFileType, FILE_SIGNATURES. cbn [firstSignature].
  rewrite !signatureMatches_head by discriminate. rewrite !andb_false_r.
  replace (Z.of_nat (length [0x50; 0x4B; 0x03; 0x04])
           <=? blen (0x50 :: 0x4B :: 0x03 :: 0x04 :: rest)) with true
    by (symmetry; apply Z.leb_le; unfold blen; simpl length; lia).
  reflexivity.
Qed.

(** ** Findings block the upload *)

Lemma finding_blocks (ext : Externals) (req : Request) (f : UploadedFile)
    (buf : Buffer) (db : Store) :
  buf <> [] ->
  cc_issues (detectCorruption ext buf (originalname f)) <> []
  \/ checkFileStructure ext buf (originalname f) <> [] ->
  isCorrupted (validateFile ext buf (originalname f) (mimetype f)) = true
  /\ code (fst (decideUpload ext req f buf db)) = 403
  /\ transfers (snd (decideUpload ext req f buf db)) = transfers db.
Proof.
  intros Hne Hfinding.
  destruct (validateFile_fields ext buf (originalname f) (mimetype f) Hne)
    as (_ & _ & _ & _ & _ & Hc & _).
  assert (isCorrupted (validateFile ext buf (originalname f) (mimetype f))
          = true) as Hcor.
  { rewrite Hc. destruct Hfinding as [Hcc | Hs].
    - unfold detectCorruption in *. cbn [cc_issues cc_isCorrupted] in *.
      destruct (nullByteIssues buf (originalname f)
                ++ repeatedPatternIssues buf ++ nullRatioIssues buf
                ++ entropyIssues ext buf) as [| i rest]; [contradiction |].
      cbn [length Nat.eqb negb]. apply orb_true_r.
    - destruct (checkFileStructure ext buf (originalname f)) as [| i rest];
        [contradiction |].
      change (Nat.ltb 0 (length (i :: rest))) with true.
      rewrite orb_true_r. reflexivity. }
  split; [exact Hcor |].
  destruct (decideUpload_cases ext req f buf db Hne)
    as [(_ & c & ->) | [(_ & _ & c & ->) | (_ & _ & Hno & _)]].
  - split; reflexivity.
  - split; reflexivity.
  - congruence.
Qed.

Lemma bufferEquals_eq (a b : Buffer) : bufferEquals a b = true <-> a = b.
Proof.
  revert b. induction a as [| x a' IH]; intros [| y b']; cbn [bufferEquals];
    split; intros H; try reflexivity; try discriminate.
  - apply andb_true_iff in H. destruct H as [Hxy Hrest].
    apply Z.eqb_eq in Hxy. apply IH in Hrest. congruence.
  - inversion H; subst. rewrite Z.eqb_refl. apply IH. reflexivity.
Qed.

Lemma sliceLast_split (buffer : Buffer) (k : nat) :
  (k <= length buffer)%nat ->
  buffer = firstn (length buffer - k) buffer ++ sliceLast buffer k
  /\ length (sliceLast buffer k) = k.
Proof.
  intros Hk. unfold sliceLast. split.
  - symmetry. apply firstn_skipn.
  - rewrite length_skipn. lia.
Qed.

(** ** Truncated images *)

(** X6: a named upload that opens with the JPEG signature, holds more than
    ten bytes and does not close with [FF D9] is reported as truncated,
    flagged corrupted and answered 403, whatever the image parser, the
    anomaly service and the entropy say; nothing is stored. *)
Theorem truncated_jpeg_is_blocked (ext : Externals) (req : Request)
    (f : UploadedFile) (rest : Buffer) (db : Store) :
  let buf := 0xFF :: 0xD8 :: 0xFF :: rest in
  originalname f <> EmptyString ->
  10 < blen buf ->
  (forall front, buf <> front ++ [0xFF; 0xD9]) ->
  In (Text "JPEG file appears truncated (missing end marker)")
     (issues (validateFile ext buf (originalname f) (mimetype f)))
  /\ isCorrupted (validateFile ext buf (originalname f) (mimetype f)) = true
  /\ code (fst (decideUpload ext req f buf db)) = 403
  /\ transfers (snd (decideUpload ext req f buf db)) = transfers db.
Proof.
  intros buf Hname Hlen Hend.
  assert (buf <> []) as Hne by discriminate.
  pose proof (detect_jpeg rest) as Hd. fold buf in Hd. clearbody buf.
  assert (In (Text "JPEG file appears truncated (missing end marker)")
             (checkFileStructure ext buf (originalname f))) as Hin.
  { unfold checkFileStructure.
    destruct (originalname f) as [| c name] eqn:Hn; [contradiction |].
    cbn [truthy negb]. rewrite Hd.
    apply in_or_app. right. apply in_or_app. left.
    cbn [startsWith String.prefix]. unfold validateImage.
    replace (String.eqb "image/jpeg" "image/jpeg") with true by reflexivity.
    cbn [orb]. apply in_or_app. left. apply in_or_app. left.
    replace (10 <? blen buf) with true by (symmetry; apply Z.ltb_lt; exact Hlen).
    destruct (negb (byteAt (sliceLast buf 2) 0 =? 0xFF)
              || negb (byteAt (sliceLast buf 2) 1 =? 0xD9)) eqn:Hcheck;
      [left; reflexivity |].
    exfalso. apply orb_false_iff in Hcheck. destruct Hcheck as [H0 H1].
    apply negb_false_iff, Z.eqb_eq in H0. apply negb_false_iff, Z.eqb_eq in H1.
    destruct (sliceLast_split buf 2) as [Hsplit Hlast];
      [unfold blen in Hlen; lia |].
    destruct (sliceLast buf 2) as [| x [| y [| z more]]]; try discriminate.
    unfold byteAt in H0, H1. cbn [nth] in H0, H1. subst x y.
    apply (Hend _ Hsplit). }
  destruct (finding_blocks ext req f buf db Hne) as (Hcor & Hcode & Htr).
  { right. intros Hnil. rewrite Hnil in Hin. contradiction. }
  destruct (validateFile_fields ext buf (originalname f) (mimetype f) Hne)
    as (_ & _ & _ & _ & _ & _ & Hissues).
  repeat split; try assumption.
  rewrite Hissues. apply in_or_app. right. apply in_or_app. left. exact Hin.
Qed.

(** The corrupted JPEG of [create_corrupted_files.js]. *)
Lemma truncated_jpeg_is_blocked_on_test_file :
  let rest := [0xE0; 0x00; 0x10; 0x4A; 0x46; 0x49; 0x46]
              ++ repeat 0 200 ++ repeat 0xFF 100 in
  let buf := 0xFF :: 0xD8 :: 0xFF :: rest in
  let f := mkUploadedFile (Some buf) 310 "corrupted_image.jpg" "image/jpeg" in
  let req := uploadOf buf "corrupted_image.jpg" "image/jpeg" in
  10 < blen buf
  /\ code (fst (decideUpload (answering 0.1 "normal") req f buf emptyStore))
     = 403.
Proof.
  intros rest buf f req.
  assert (10 < blen buf) as Hlen by (vm_compute; reflexivity).
  split; [exact Hlen |].
  apply (truncated_jpeg_is_blocked (answering 0.1 "normal") req f rest
           emptyStore).
  - discriminate.
  - exact Hlen.
  - intros front Heq.
    assert (rev buf = rev (front ++ [0xFF; 0xD9])) as Hrev by (f_equal; exact Heq).
    rewrite rev_app_distr in Hrev. 
    assert (nth 0 (rev buf) 0 = 0xD9) as H0 by (rewrite Hrev; reflexivity).
    vm_compute in H0. discriminate.
Defined.

(** X7: a named upload that opens with the eight bytes of the PNG signature,
    holds more, and does not close with the [IEND] chunk and its checksum
    is reported as truncated, flagged corrupted and answered 403, whatever
    the image parser, the anomaly service and the entropy say. *)
Theorem truncated_png_is_blocked (ext : Externals) (req : Request)
    (f : UploadedFile) (rest : Buffer) (db : Store) :
  let buf := [0x89; 0x50; 0x4E; 0x47; 0x0D; 0x0A; 0x1A; 0x0A] ++ rest in
  originalname f <> EmptyString ->
  rest <> [] ->
  (forall front,
     buf <> front ++ [0x49; 0x45; 0x4E; 0x44; 0xAE; 0x42; 0x60; 0x82]) ->
  In (Text "PNG file may be truncated or corrupted")
     (issues (validateFile ext buf (originalname f) (mimetype f)))
  /\ isCorrupted (validateFile ext buf (originalname f) (mimetype f)) = true
  /\ code (fst (decideUpload ext req f buf db)) = 403
  /\ transfers (snd (decideUpload ext req f buf db)) = transfers db.
Proof.
  intros buf Hname Hrest Hend.
  assert (buf <> []) as Hne by discriminate.
  pose proof (detect_png rest) as Hd. fold buf in Hd.
  assert (8 < blen buf) as Hlen.
  { unfold buf, blen. rewrite length_app. simpl length.
    destruct rest; [contradiction | simpl length; lia]. }
  assert (bufferEquals (slice buf 0 8)
            [0x89; 0x50; 0x4E; 0x47; 0x0D; 0x0A; 0x1A; 0x0A] = true) as Hstart.
  { unfold buf, slice. cbn [Nat.sub skipn app firstn].
    apply bufferEquals_eq. reflexivity. }
  clearbody buf.
  assert (In (Text "PNG file may be truncated or corrupted")
             (checkFileStructure ext buf (originalname f))) as Hin.
  { unfold checkFileStructure.
    destruct (originalname f) as [| c name] eqn:Hn; [contradiction |].
    cbn [truthy negb]. rewrite Hd.
    apply in_or_app. right. apply in_or_app. left.
    cbn [startsWith String.prefix]. unfold validateImage.
    replace (String.eqb "image/png" "image/jpeg") with false by reflexivity.
    replace (String.eqb "image/png" "image/jpg") with false by reflexivity.
    replace (String.eqb "image/png" "image/png") with true by reflexivity.
    cbn [orb app]. apply in_or_app. left. apply in_or_app. left.
    replace (8 <? blen buf) with true by (symmetry; apply Z.ltb_lt; exact Hlen).
    rewrite Hstart.
    destruct (bufferEquals (sliceLast buf 8)
                [0x49; 0x45; 0x4E; 0x44; 0xAE; 0x42; 0x60; 0x82]) eqn:Hcheck;
      [| left; reflexivity].
    exfalso. apply bufferEquals_eq in Hcheck.
    destruct (sliceLast_split buf 8) as [Hsplit _];
      [unfold blen in Hlen; lia |].
    rewrite Hcheck in Hsplit. apply (Hend _ Hsplit). }
  destruct (finding_blocks ext req f buf db Hne) as (Hcor & Hcode & Htr).
  { right. intros Hnil. rewrite Hnil in Hin. contradiction. }
  destruct (validateFile_fields ext buf (originalname f) (mimetype f) Hne)
    as (_ & _ & _ & _ & _ & _ & Hissues).
  repeat split; try assumption.
  rewrite Hissues. apply in_or_app. right. apply in_or_app. left. exact Hin.
Qed.

(** The corrupted PNG of [create_corrupted_files.js]. *)
Lemma truncated_png_is_blocked_on_test_file :
  let rest := [0x49; 0x48; 0x44; 0x52] ++ repeat 0 100 in
  let buf := [0x89; 0x50; 0x4E; 0x47; 0x0D; 0x0A; 0x1A; 0x0A] ++ rest in
  let f := mkUploadedFile (Some buf) 112 "corrupted_png.png" "image/png" in
  let req := uploadOf buf "corrupted_png.png" "image/png" in
  rest <> []
  /\ code (fst (decideUpload (answering 0.1 "normal") req f buf emptyStore))
     = 403.
Proof.
  intros rest buf f req.
  assert (rest <> []) as Hrest by discriminate.
  split; [exact Hrest |].
  apply (truncated_png_is_blocked (answering 0.1 "normal") req f rest
           emptyStore).
  - discriminate.
  - exact Hrest.
  - intros front Heq.
    assert (rev buf
            = rev (front ++ [0x49; 0x45; 0x4E; 0x44; 0xAE; 0x42; 0x60; 0x82]))
      as Hrev by (f_equal; exact Heq).
    rewrite rev_app_distr in Hrev.
    assert (nth 0 (rev buf) 0 = 0x82) as H0 by (rewrite Hrev; reflexivity).
    vm_compute in H0. discriminate.
Defined.

(** ** Archives under a [.zip] name *)

(** X2: an upload that opens with the ZIP signature [50 4B 03 04] under a
    name whose extension is [zip], in any letter case, is detected as a
    word-processing document, reported for an extension mismatch, flagged
    corrupted and answered 403: the route stores no ZIP archive named as
    one. *)
Theorem named_zip_archive_is_blocked (ext : Externals) (req : Request)
    (f : UploadedFile) (rest : Buffer) (db : Store) :
  let buf := 0x50 :: 0x4B :: 0x03 :: 0x04 :: rest in
  extensionOf (originalname f) = "zip"%string ->
  In (Text "File extension (.zip) does not match detected type (application/vnd.openxmlformats-officedocument.wordprocessingml.document)")
     (issues (validateFile ext buf (originalname f) (mimetype f)))
  /\ isCorrupted (validateFile ext buf (originalname f) (mimetype f)) = true
  /\ code (fst (decideUpload ext req f buf db)) = 403
  /\ transfers (snd (decideUpload ext req f buf db)) = transfers db.
Proof.
  intros buf Hext.
  assert (buf <> []) as Hne by discriminate.
  pose proof (detect_pk rest) as Hd. fold buf in Hd. clearbody buf.
  assert (In (Text "File extension (.zip) does not match detected type (application/vnd.openxmlformats-officedocument.wordprocessingml.document)")
             (checkFileStructure ext buf (originalname f))) as Hin.
  { unfold checkFileStructure.
    destruct (originalname f) as [| c name] eqn:Hn;
      [vm_compute in Hext; discriminate |].
    cbn [truthy negb]. rewrite Hd.
    apply in_or_app. left. unfold extensionIssues. rewrite Hext.
    left. reflexivity. }
  destruct (finding_blocks ext req f buf db Hne) as (Hcor & Hcode & Htr).
  { right. intros Hnil. rewrite Hnil in Hin. contradiction. }
  destruct (validateFile_fields ext buf (originalname f) (mimetype f) Hne)
    as (_ & _ & _ & _ & _ & _ & Hissues).
  repeat split; try assumption.
  rewrite Hissues. apply in_or_app. right. apply in_or_app. left. exact Hin.
Qed.

(** The first eight bytes of an archive, sent as [Backup.ZIP]. *)
Lemma named_zip_archive_is_blocked_on_backup :
  let buf := 0x50 :: 0x4B :: 0x03 :: 0x04 :: [0x14; 0x00; 0x00; 0x00] in
  let f := mkUploadedFile (Some buf) 8 "Backup.ZIP" "application/zip" in
  let req := uploadOf buf "Backup.ZIP" "application/zip" in
  extensionOf (originalname f) = "zip"%string
  /\ code (fst (decideUpload (answering 0.1 "normal") req f buf emptyStore))
     = 403.
Proof.
  intros buf f req.
  assert (extensionOf (originalname f) = "zip"%string) as Hext
    by (vm_compute; reflexivity).
  split; [exact Hext |].
  apply (named_zip_archive_is_blocked (answering 0.1 "normal") req f
           [0x14; 0x00; 0x00; 0x00] emptyStore Hext).
Defined.

(** ** Null bytes under a text extension *)

(** X5: an upload of fewer than 10000 bytes whose name ends in [.txt],
    [.log], [.json], [.xml], [.html], [.css] or [.js], in any letter case,
    and that holds a zero byte is reported for null bytes, flagged
    corrupted and answered 403. *)
Theorem null_byte_in_text_file_is_blocked (ext : Externals) (req : Request)
    (f : UploadedFile) (buf : Buffer) (db : Store) :
  textExtension (originalname f) = true ->
  In 0 buf ->
  blen buf < 10000 ->
  In (Text "Contains null bytes (possible corruption)")
     (issues (validateFile ext buf (originalname f) (mimetype f)))
  /\ isCorrupted (validateFile ext buf (originalname f) (mimetype f)) = true
  /\ code (fst (decideUpload ext req f buf db)) = 403
  /\ transfers (snd (decideUpload ext req f buf db)) = transfers db.
Proof.
  intros Hext Hzero Hlen.
  assert (buf <> []) as Hne by (intros ->; contradiction).
  assert (nullByteIssues buf (originalname f)
          = [Text "Contains null bytes (possible corruption)"]) as Hnull.
  { unfold nullByteIssues. rewrite Hext.
    assert (truthy (originalname f) = true) as ->.
    { destruct (originalname f); [discriminate Hext | reflexivity]. }
    assert (existsb (Z.eqb 0) buf = true) as ->.
    { apply existsb_exists. exists 0. split; [exact Hzero | reflexivity]. }
    replace (blen buf <? 10000) with true by (symmetry; apply Z.ltb_lt; exact Hlen).
    reflexivity. }
  assert (In (Text "Contains null bytes (possible corruption)")
             (cc_issues (detectCorruption ext buf (originalname f)))) as Hin.
  { unfold detectCorruption. cbn [cc_issues]. rewrite Hnull. left. reflexivity. }
  destruct (finding_blocks ext req f buf db Hne) as (Hcor & Hcode & Htr).
  { left. intros Hnil. rewrite Hnil in Hin. contradiction. }
  destruct (validateFile_fields ext buf (originalname f) (mimetype f) Hne)
    as (_ & _ & _ & _ & _ & _ & Hissues).
  repeat split; try assumption.
  rewrite Hissues. apply in_or_app. left. exact Hin.
Qed.

(** A JSON array with a stray zero byte. *)
Lemma null_byte_in_text_file_is_blocked_on_json :
  let buf := bytesOf "[1,2,3]" ++ [0] in
  let f := mkUploadedFile (Some buf) 8 "Data.JSON" "application/json" in
  let req := uploadOf buf "Data.JSON" "application/json" in
  textExtension (originalname f) = true /\ In 0 buf /\ blen buf < 10000
  /\ code (fst (decideUpload (answering 0.1 "normal") req f buf emptyStore))
     = 403.
Proof.
  intros buf f req.
  assert (textExtension (originalname f) = true) as Hext
    by (vm_compute; reflexivity).
  assert (In 0 buf) as Hzero by (vm_compute; tauto).
  assert (blen buf < 10000) as Hlen by (vm_compute; reflexivity).
  repeat split; try assumption.
  apply (null_byte_in_text_file_is_blocked (answering 0.1 "normal") req f buf
           emptyStore Hext Hzero Hlen).
Defined.

(** ** Repeated leading bytes *)

Lemma chunkStarts_one (len : nat) :
  (6 <= len)%nat ->
  exists starts, chunkStarts 1 len = 1%nat :: 2%nat :: 3%nat :: 4%nat :: starts.
Proof.
  intros Hlen.
  do 6 (destruct len as [| len]; [lia |]).
  unfold chunkStarts. cbn [seq map Nat.mul Nat.add List.filter Nat.ltb Nat.leb].
  eexists. reflexivity.
Qed.

Lemma checkRepeatedPattern_five (b : Z) (rest : Buffer) :
  (3 <= length rest)%nat ->
  checkRepeatedPattern (b :: b :: b :: b :: b :: rest) = true.
Proof.
  intros Hrest. unfold checkRepeatedPattern.
  replace (blen (b :: b :: b :: b :: b :: rest) <? 8) with false
    by (symmetry; apply Z.ltb_ge; unfold blen; simpl length; lia).
  cbn [repeatedFor].
  replace (Nat.ltb (length (b :: b :: b :: b :: b :: rest)) (1 * 3)) with false
    by (symmetry; apply Nat.ltb_ge; simpl length; lia).
  destruct (chunkStarts_one (length (b :: b :: b :: b :: b :: rest)))
    as [starts ->]; [simpl length; lia |].
  cbn [patternLoop]. unfold slice.
  cbn [Nat.sub Nat.add skipn firstn bufferEquals].
  rewrite !Z.eqb_refl. cbn [andb]. vm_compute. reflexivity.
Qed.

(** X4: an upload of more than 20 bytes whose first five bytes are equal is
    reported for a repeated pattern, whatever follows them, and is
    therefore flagged corrupted and answered 403. *)
Theorem five_equal_leading_bytes_are_blocked (ext : Externals)
    (req : Request) (f : UploadedFile) (b : Z) (rest : Buffer) (db : Store) :
  let buf := b :: b :: b :: b :: b :: rest in
  20 < blen buf ->
  checkRepeatedPattern buf = true
  /\ In (Text "Suspicious repeated pattern detected (possible corruption or padding)")
        (issues (validateFile ext buf (originalname f) (mimetype f)))
  /\ isCorrupted (validateFile ext buf (originalname f) (mimetype f)) = true
  /\ code (fst (decideUpload ext req f buf db)) = 403
  /\ transfers (snd (decideUpload ext req f buf db)) = transfers db.
Proof.
  intros buf Hlen.
  assert (buf <> []) as Hne by discriminate.
  assert (16 <= length rest)%nat as Hrest
    by (unfold buf, blen in Hlen; simpl length in Hlen; lia).
  assert (checkRepeatedPattern buf = true) as Hwhole
    by (apply checkRepeatedPattern_five; lia).
  assert (repeatedPatternIssues buf
          = [Text "Suspicious repeated pattern detected (possible corruption or padding)"])
    as Hrep.
  { unfold repeatedPatternIssues.
    replace (20 <? blen buf) with true by (symmetry; apply Z.ltb_lt; exact Hlen).
    assert (exists n, Z.to_nat (Z.min 1000 (blen buf)) = (8 + n)%nat) as [n Hn].
    { exists (Z.to_nat (Z.min 1000 (blen buf)) - 8)%nat. lia. }
    rewrite Hn. unfold slice, buf.
    cbn [Nat.sub Nat.add skipn firstn].
    rewrite checkRepeatedPattern_five; [reflexivity |].
    destruct rest as [| r1 [| r2 [| r3 rest']]]; simpl in Hrest; try lia.
    cbn [firstn length]. lia. }
  assert (In (Text "Suspicious repeated pattern detected (possible corruption or padding)")
             (cc_issues (detectCorruption ext buf (originalname f)))) as Hin.
  { unfold detectCorruption. cbn [cc_issues]. rewrite Hrep.
    apply in_or_app. right. left. reflexivity. }
  clearbody buf.
  destruct (finding_blocks ext req f buf db Hne) as (Hcor & Hcode & Htr).
  { left. intros Hnil. rewrite Hnil in Hin. contradiction. }
  destruct (validateFile_fields ext buf (originalname f) (mimetype f) Hne)
    as (_ & _ & _ & _ & _ & _ & Hissues).
  repeat split; try assumption.
  rewrite Hissues. apply in_or_app. left. exact Hin.
Qed.

(** A text that opens with a rule of five dashes. *)
Lemma five_equal_leading_bytes_are_blocked_on_rule :
  let rest := bytesOf " Report of the quarter, draft 7 (internal)" in
  let buf := 45 :: 45 :: 45 :: 45 :: 45 :: rest in
  let f := mkUploadedFile (Some buf) (blen buf) "report.md" "text/markdown" in
  let req := uploadOf buf "report.md" "text/markdown" in
  20 < blen buf
  /\ code (fst (decideUpload (answering 0.1 "normal") req f buf emptyStore))
     = 403.
Proof.
  intros rest buf f req.
  assert (20 < blen buf) as Hlen by (vm_compute; reflexivity).
  split; [exact Hlen |].
  apply (five_equal_leading_bytes_are_blocked (answering 0.1 "normal") req f
           45 rest emptyStore Hlen).
Defined.

(** ** Entropy and the number of different bytes *)

(** One term of the entropy against one term of [log2 K]. *)
Lemma entropy_term_bound (p K : R) :
  (0 < p)%R -> (0 < K)%R ->
  (- (p * ln p) <= p * ln K + (/ K - p))%R.
Proof.
  intros Hp HK.
  assert (0 < / (K * p))%R as Hy by (apply Rinv_0_lt_compat; nra).
  pose proof (ln_below_line _ Hy) as H.
  rewrite ln_Rinv in H by nra. rewrite ln_mult in H by assumption.
  assert (p * (- (ln K + ln p)) <= p * (/ (K * p) - 1))%R as Hmul
    by (apply Rmult_le_compat_l; lra).
  replace (p * (/ (K * p) - 1))%R with (/ K - p)%R in Hmul
    by (field; split; lra).
  lra.
Qed.

Lemma exactEntropy_bound (len K : R) (counts : list Z) :
  (0 < len)%R -> (0 < K)%R ->
  List.Forall (fun c => (0 < IZR c)%R) counts ->
  (exactEntropy len counts * ln 2
   <= (sumCounts counts / len) * ln K
      + (INR (length counts) / K - sumCounts counts / len))%R.
Proof.
  intros Hlen HK H.
  induction H as [| c rest Hc _ IH].
  - cbn [exactEntropy sumCounts fold_right length INR]. unfold Rdiv.
    rewrite !Rmult_0_l. lra.
  - change (length (c :: rest)) with (S (length rest)). rewrite S_INR.
    cbn [exactEntropy sumCounts fold_right].
    fold (sumCounts rest). fold (exactEntropy len rest).
    unfold exactTerm, log2. pose proof ln2_pos as H2.
    assert (0 < IZR c / len)%R as Hp by (apply Rdiv_lt_0_compat; assumption).
    pose proof (entropy_term_bound _ K Hp HK) as Hterm.
    replace ((- (IZR c / len * (ln (IZR c / len) / ln 2))
              + exactEntropy len rest) * ln 2)%R
      with (- (IZR c / len * ln (IZR c / len))
            + exactEntropy len rest * ln 2)%R by (field; lra).
    replace ((IZR c + sumCounts rest) / len)%R
      with (IZR c / len + sumCounts rest / len)%R by (field; lra).
    replace ((INR (length rest) + 1) / K)%R
      with (INR (length rest) / K + / K)%R by (field; lra).
    lra.
Qed.

Lemma sumCounts_total (counts : list (Z * Z)) :
  sumCounts (map snd counts) = IZR (countsTotal counts).
Proof.
  unfold countsTotal.
  induction counts as [| [k v] rest IH]; cbn [map snd sumCounts fold_right].
  - reflexivity.
  - fold (sumCounts (map snd rest)). rewrite IH, plus_IZR. reflexivity.
Qed.

Lemma byteCounts_total (buffer : Buffer) :
  countsTotal (byteCounts buffer) = blen buffer.
Proof.
  destruct (fold_countsSet buffer [] (List.Forall_nil _)) as [_ Htot].
  exact Htot.
Qed.

Lemma distinct_within_length (buffer : Buffer) :
  (distinctBytes buffer <= length buffer)%nat.
Proof.
  unfold distinctBytes.
  pose proof (byteCounts_total buffer) as Htot.
  destruct (fold_countsSet buffer [] (List.Forall_nil _)) as [Hpos _].
  fold (byteCounts buffer) in Hpos.
  assert (Z.of_nat (length (byteCounts buffer))
          <= countsTotal (byteCounts buffer)) as Hle.
  { clear Htot. unfold countsTotal.
    induction Hpos as [| [k v] rest Hv _ IH];
      cbn [length map snd fold_right] in *; lia. }
  unfold blen in Htot. lia.
Qed.

Lemma distinct_positive (buffer : Buffer) :
  buffer <> [] -> (0 < distinctBytes buffer)%nat.
Proof.
  intros Hne. unfold distinctBytes.
  pose proof (byteCounts_total buffer) as Htot.
  destruct (byteCounts buffer) as [| kv rest]; [| simpl; lia].
  destruct buffer; [contradiction |].
  unfold countsTotal, blen in Htot. simpl in Htot. lia.
Qed.

Lemma buffer_mass (buffer : Buffer) :
  buffer <> [] ->
  (0 < IZR (blen buffer))%R
  /\ (sumCounts (map snd (byteCounts buffer)) / IZR (blen buffer) = 1)%R.
Proof.
  intros Hne.
  assert (0 < IZR (blen buffer))%R as Hlen.
  { apply IZR_lt. unfold blen. destruct buffer; [contradiction | simpl; lia]. }
  split; [exact Hlen |].
  rewrite sumCounts_total, byteCounts_total. field. lra.
Qed.

(** The entropy in exact arithmetic is at most the logarithm of the number
    of different bytes. *)
Lemma exactEntropy_within_log2_distinct (buffer : Buffer) :
  buffer <> [] ->
  (exactEntropy (IZR (blen buffer)) (map snd (byteCounts buffer))
   <= log2 (INR (distinctBytes buffer)))%R.
Proof.
  intros Hne.
  pose proof (distinct_positive buffer Hne) as Hk.
  assert (0 < INR (distinctBytes buffer))%R as HK by (apply lt_0_INR; exact Hk).
  destruct (buffer_mass buffer Hne) as [Hlen Hmass].
  assert (List.Forall (fun c => (0 < IZR c)%R) (map snd (byteCounts buffer)))
    as Hpos.
  { eapply Forall_impl; [apply byteCounts_bounds |].
    intros c [Hc _]. apply IZR_lt. exact Hc. }
  pose proof (exactEntropy_bound (IZR (blen buffer))
                (INR (distinctBytes buffer)) _ Hlen HK Hpos) as Hbound.
  rewrite Hmass, length_map in Hbound.
  fold (distinctBytes buffer) in Hbound.
  replace (INR (distinctBytes buffer) / INR (distinctBytes buffer))%R
    with 1%R in Hbound by (field; lra).
  unfold log2. pose proof ln2_pos as H2.
  apply Rmult_le_reg_r with (ln 2); [exact H2 |].
  replace (ln (INR (distinctBytes buffer)) / ln 2 * ln 2)%R
    with (ln (INR (distinctBytes buffer))) by (field; lra).
  lra.
Qed.

(** The entropy the loop computes, against the exact one. *)
Lemma entropy_near_exact (buffer : Buffer) :
  buffer <> [] -> (distinctBytes buffer <= 1000)%nat ->
  let exact :=
    exactEntropy (IZR (blen buffer)) (map snd (byteCounts buffer)) in
  let eps := (1 / 1000000000)%R in
  (0 <= exact)%R
  /\ ((1 - eps) * exact - eps
      <= calculateShannonEntropy buffer
      <= (1 + eps) * (exact + eps))%R.
Proof.
  intros Hne Hfew exact eps.
  destruct (buffer_mass buffer Hne) as [_ Hmass].
  pose proof (byteCounts_shares buffer) as Hshares.
  destruct (exactEntropy_nonneg _ _ Hshares) as [He _]. fold exact in He.
  split; [exact He |].
  assert (length (map snd (byteCounts buffer)) <= 1000)%nat as Hlen
    by (rewrite length_map; exact Hfew).
  pose proof (entropy_fold_near _ _ Hshares Hlen) as Hnear.
  cbv zeta in Hnear. rewrite Hmass in Hnear. fold exact eps in Hnear.
  unfold calculateShannonEntropy. destruct buffer as [| b rest];
    [contradiction |].
  lra.
Qed.

Lemma entropy_near_log2_distinct (buffer : Buffer) :
  buffer <> [] -> (distinctBytes buffer <= 1000)%nat ->
  (calculateShannonEntropy buffer
   <= (1 + 1 / 1000000000)
      * (log2 (INR (distinctBytes buffer)) + 1 / 1000000000))%R.
Proof.
  intros Hne Hfew.
  destruct (entropy_near_exact buffer Hne Hfew) as (He & _ & Hup).
  cbv zeta in He, Hup.
  pose proof (exactEntropy_within_log2_distinct buffer Hne) as Hd.
  eapply Rle_trans; [exact Hup |].
  apply Rmult_le_compat_l; lra.
Qed.

Lemma log2_monotone (x y : R) :
  (0 < x)%R -> (x <= y)%R -> (log2 x <= log2 y)%R.
Proof.
  intros Hx Hxy. unfold log2. pose proof ln2_pos as H2.
  assert (ln x <= ln y)%R as Hln.
  { destruct Hxy as [Hlt | ->]; [| lra].
    pose proof (ln_increasing x y Hx Hlt). lra. }
  apply Rmult_le_compat_r; [| exact Hln].
  apply Rlt_le, Rinv_0_lt_compat, H2.
Qed.

Lemma byteCounts_keys_in_buffer (buffer : Buffer) (k : Z) :
  In k (map fst (byteCounts buffer)) -> In k buffer.
Proof.
  intros Hin. apply in_map_iff in Hin. destruct Hin as ([k' c] & Hk & Hin).
  cbn [fst] in Hk. subst k'.
  destruct (byteCounts_frequencies buffer) as [_ Hfreq].
  apply Hfreq in Hin. destruct Hin as [-> Hpos].
  unfold countByte in Hpos.
  destruct (List.filter (Z.eqb k) buffer) as [| x rest] eqn:Hf;
    [simpl in Hpos; lia |].
  assert (In x (List.filter (Z.eqb k) buffer)) as Hx
    by (rewrite Hf; left; reflexivity).
  apply filter_In in Hx. destruct Hx as [Hx Heq].
  apply Z.eqb_eq in Heq. subst x. exact Hx.
Qed.

Lemma distinct_bytes_at_most_256 (buffer : Buffer) :
  List.Forall (fun b => 0 <= b < 256) buffer ->
  (distinctBytes buffer <= 256)%nat.
Proof.
  intros Hrange. unfold distinctBytes.
  destruct (byteCounts_frequencies buffer) as [Hnd _].
  rewrite <- (length_map fst).
  replace 256%nat with (length (map Z.of_nat (seq 0 256)))
    by (rewrite length_map, length_seq; reflexivity).
  apply List.NoDup_incl_length; [exact Hnd |].
  intros k Hk. apply byteCounts_keys_in_buffer in Hk.
  rewrite List.Forall_forall in Hrange. specialize (Hrange k Hk).
  apply in_map_iff. exists (Z.to_nat k). split; [lia |].
  apply in_seq. lia.
Qed.

(** X8: on a non-empty buffer of bytes, values 0 to 255, the entropy that
    the loop computes in binary64 is never negative and exceeds the
    logarithm to base two of the number of different byte values, itself at
    most 256 and at most the length, by no more than a billionth part and
    a billionth. *)
Theorem entropy_is_bounded_by_distinct_bytes (buffer : Buffer) :
  buffer <> [] ->
  List.Forall (fun b => 0 <= b < 256) buffer ->
  (0 <= calculateShannonEntropy buffer)%R
  /\ (calculateShannonEntropy buffer
      <= (1 + 1 / 1000000000)
         * (log2 (INR (distinctBytes buffer)) + 1 / 1000000000))%R
  /\ (0 < distinctBytes buffer <= length buffer)%nat
  /\ (distinctBytes buffer <= 256)%nat.
Proof.
  intros Hne Hrange.
  pose proof (distinct_bytes_at_most_256 buffer Hrange) as H256.
  pose proof (distinct_positive buffer Hne) as Hpos.
  pose proof (distinct_within_length buffer) as Hlen.
  split; [apply entropy_nonneg |].
  split; [apply entropy_near_log2_distinct; [exact Hne | lia] |].
  split; [lia | exact H256].
Qed.

(** The 32 different bytes of the sample: entropy 5, the logarithm of 32. *)
Lemma entropy_is_bounded_by_distinct_bytes_on_plainBinary :
  plainBinary <> []
  /\ (calculateShannonEntropy plainBinary
      <= (1 + 1 / 1000000000)
         * (log2 (INR (distinctBytes plainBinary)) + 1 / 1000000000))%R.
Proof.
  assert (plainBinary <> []) as Hne by (vm_compute; discriminate).
  assert (List.Forall (fun b => 0 <= b < 256) plainBinary) as Hrange.
  { apply List.Forall_forall. intros b Hb.
    assert (forallb (fun b => (0 <=? b) && (b <? 256)) plainBinary = true)
      as Hall by (vm_compute; reflexivity).
    rewrite forallb_forall in Hall. specialize (Hall b Hb).
    apply andb_true_iff in Hall. destruct Hall as [H0 H1].
    apply Z.leb_le in H0. apply Z.ltb_lt in H1. lia. }
  split; [exact Hne |].
  apply (entropy_is_bounded_by_distinct_bytes plainBinary Hne Hrange).
Defined.

(** X9: the entropy that the loop computes on a non-empty buffer of bytes,
    values 0 to 255, lies between 0 and 8.00000001, and so does the entropy
    recorded in its assessment: rounding can carry it past 8 bits, by less
    than a hundred-millionth. *)
Theorem entropy_of_bytes_is_near_8_at_most (ext : Externals)
    (buffer : Buffer) (filename mime : string) :
  buffer <> [] ->
  List.Forall (fun b => 0 <= b < 256) buffer ->
  (0 <= calculateShannonEntropy buffer <= 8 + 1 / 100000000)%R
  /\ (0 <= entropy (validateFile ext buffer filename mime)
      <= 8 + 1 / 100000000)%R.
Proof.
  intros Hne Hrange.
  pose proof (distinct_bytes_at_most_256 buffer Hrange) as H256.
  assert (0 <= calculateShannonEntropy buffer <= 8 + 1 / 100000000)%R
    as Hbounds.
  { split; [apply entropy_nonneg |].
    assert (distinctBytes buffer <= 1000)%nat as Hfew by lia.
    eapply Rle_trans; [apply (entropy_near_log2_distinct buffer Hne Hfew) |].
    assert (log2 (INR (distinctBytes buffer)) <= 8)%R as H8.
    { pose proof (log2_pow2 8) as H8.
      replace (INR 8) with 8%R in H8 by (simpl; lra). rewrite <- H8.
      apply log2_monotone; [apply lt_0_INR, distinct_positive, Hne |].
      replace (2 ^ 8)%R with (INR 256)
        by (rewrite INR_IZR_INZ; change (Z.of_nat 256) with 256; lra).
      apply le_INR. exact H256. }
    nra. }
  split; [exact Hbounds |].
  destruct (validateFile_fields ext buffer filename mime Hne)
    as (_ & _ & -> & _). exact Hbounds.
Qed.

(** The one-line text file. *)
Lemma entropy_of_bytes_is_near_8_at_most_on_validText :
  validText <> []
  /\ List.Forall (fun b => 0 <= b < 256) validText
  /\ (0 <= calculateShannonEntropy validText <= 8 + 1 / 100000000)%R.
Proof.
  assert (validText <> []) as Hne by (vm_compute; discriminate).
  assert (List.Forall (fun b => 0 <= b < 256) validText) as Hrange.
  { apply List.Forall_forall. intros b Hb.
    assert (forallb (fun b => (0 <=? b) && (b <? 256)) validText = true)
      as Hall by (vm_compute; reflexivity).
    rewrite forallb_forall in Hall. specialize (Hall b Hb).
    apply andb_true_iff in Hall. destruct Hall as [H0 H1].
    apply Z.leb_le in H0. apply Z.ltb_lt in H1. lia. }
  split; [exact Hne |]. split; [exact Hrange |].
  apply (entropy_of_bytes_is_near_8_at_most (answering 0.1 "normal")
           validText "valid.txt" "text/plain" Hne Hrange).
Defined.

(** ** Files with few different bytes *)

Lemma low_variety_level (buffer : Buffer) (filename mime : string) :
  buffer <> [] -> (distinctBytes buffer <= 22)%nat ->
  (calculateShannonEntropy buffer < 4.5)%R
  /\ (level (classifyFileCriticality buffer filename mime) = 3
      \/ level (classifyFileCriticality buffer filename mime) = 4).
Proof.
  intros Hne Hfew.
  assert (calculateShannonEntropy buffer < 4.5)%R as Hlow.
  { assert (distinctBytes buffer <= 1000)%nat as Hk by lia.
    eapply Rle_lt_trans; [apply (entropy_near_log2_distinct buffer Hne Hk) |].
    assert (log2 (INR (distinctBytes buffer)) < 4.48)%R as H22.
    { eapply Rle_lt_trans.
      - apply (log2_monotone _ (INR 22));
          [apply lt_0_INR, distinct_positive, Hne | apply le_INR; exact Hfew].
      - replace (INR 22) with 22%R by (rewrite INR_IZR_INZ; reflexivity).
        replace 4.48%R with (INR 112 / INR 25)%R
          by (rewrite !INR_IZR_INZ; change (Z.of_nat 112) with 112;
              change (Z.of_nat 25) with 25; lra).
        apply log2_below; [lra | lia |].
        rewrite !pow_IZR. apply IZR_lt. vm_compute. reflexivity. }
    nra. }
  split; [exact Hlow |].
  destruct (classify_fields buffer filename mime) as (-> & _).
  destruct (entropyBand_level (calculateShannonEntropy buffer))
    as (B0 & B1 & _).
  destruct (Req_dec_T (calculateShannonEntropy buffer) 0) as [H0 | H0].
  - right. apply B0. exact H0.
  - left. apply B1; assumption.
Qed.

Lemma criticality_gate_blocks (ext : Externals) (req : Request)
    (f : UploadedFile) (buf : Buffer) (db : Store) :
  buf <> [] ->
  2 <= level (classifyFileCriticality buf (originalname f) (mimetype f)) ->
  code (fst (decideUpload ext req f buf db)) = 403
  /\ alerts (snd (decideUpload ext req f buf db))
     = alerts db
       ++ [criticalityAlert req f
             (validateFile ext buf (originalname f) (mimetype f))]
  /\ transfers (snd (decideUpload ext req f buf db)) = transfers db
  /\ idsRequests (snd (decideUpload ext req f buf db)) = idsRequests db.
Proof.
  intros Hne H2.
  destruct (decideUpload_cases ext req f buf db Hne)
    as [(_ & c & ->) | [(Hlt & _) | (Hlt & _)]]; try lia.
  repeat split.
Qed.

(** X10: a non-empty upload that uses at most 22 different byte values has
    an entropy below 4.5, hence level 3 or 4, and is answered 403 at the
    criticality gate: one alert, no transfer, and the anomaly service is not
    asked. *)
Theorem few_byte_values_are_blocked (ext : Externals) (req : Request)
    (f : UploadedFile) (buf : Buffer) (db : Store) :
  buf <> [] ->
  (distinctBytes buf <= 22)%nat ->
  let l := level (classifyFileCriticality buf (originalname f) (mimetype f)) in
  (calculateShannonEntropy buf < 4.5)%R
  /\ (l = 3 \/ l = 4)
  /\ code (fst (decideUpload ext req f buf db)) = 403
  /\ length (alerts (snd (decideUpload ext req f buf db)))
     = S (length (alerts db))
  /\ transfers (snd (decideUpload ext req f buf db)) = transfers db
  /\ idsRequests (snd (decideUpload ext req f buf db)) = idsRequests db.
Proof.
  intros Hne Hfew l.
  destruct (low_variety_level buf (originalname f) (mimetype f) Hne Hfew)
    as (Hlow & Hl).
  destruct (criticality_gate_blocks ext req f buf db Hne)
    as (Hcode & Halerts & Htr & Hids); [fold l; lia |].
  repeat split; try assumption.
  rewrite Halerts, length_app. simpl. lia.
Qed.

(** The one-line text file has 19 different bytes. *)
Lemma few_byte_values_are_blocked_on_validText :
  let f := mkUploadedFile (Some validText) 39 "valid.txt" "text/plain" in
  let req := uploadOf validText "valid.txt" "text/plain" in
  validText <> [] /\ (distinctBytes validText <= 22)%nat
  /\ code (fst (decideUpload (answering 0.1 "normal") req f validText
                             emptyStore)) = 403.
Proof.
  intros f req.
  assert (validText <> []) as Hne by (vm_compute; discriminate).
  assert (distinctBytes validText <= 22)%nat as Hfew by (vm_compute; lia).
  split; [exact Hne |]. split; [exact Hfew |].
  apply (few_byte_values_are_blocked (answering 0.1 "normal") req f validText
           emptyStore Hne Hfew).
Defined.

(** X11: no upload of 1 to 22 bytes is ever stored: it is answered 403 at
    the criticality gate, whatever its bytes, its name and the anomaly
    service. *)
Theorem short_uploads_are_blocked (ext : Externals) (req : Request)
    (f : UploadedFile) (buf : Buffer) (db : Store) :
  file req = Some f -> buffer f = Some buf -> size f <= maxSize ->
  (0 < length buf <= 22)%nat ->
  code (fst (uploadHandler ext req db)) = 403
  /\ transfers (snd (uploadHandler ext req db)) = transfers db
  /\ idsRequests (snd (uploadHandler ext req db)) = idsRequests db.
Proof.
  intros Hf Hb Hsize Hlen.
  assert (buf <> []) as Hne by (intros ->; simpl in Hlen; lia).
  rewrite (upload_checked ext req f buf db Hf Hb Hne Hsize).
  assert (distinctBytes buf <= 22)%nat as Hfew
    by (pose proof (distinct_within_length buf); lia).
  destruct (low_variety_level buf (originalname f) (mimetype f) Hne Hfew)
    as (_ & Hl).
  destruct (criticality_gate_blocks ext req f buf db Hne)
    as (Hcode & _ & Htr & Hids); [lia |].
  repeat split; assumption.
Qed.

(** A file that holds the word [hello]. *)
Lemma short_uploads_are_blocked_on_hello :
  let req := uploadOf (bytesOf "hello") "hello.txt" "text/plain" in
  (0 < length (bytesOf "hello") <= 22)%nat
  /\ code (fst (uploadHandler (answering 0.1 "normal") req emptyStore)) = 403.
Proof.
  intros req.
  assert (0 < length (bytesOf "hello") <= 22)%nat as Hlen by (simpl; lia).
  split; [exact Hlen |].
  apply (short_uploads_are_blocked (answering 0.1 "normal") req
           (mkUploadedFile (Some (bytesOf "hello")) (blen (bytesOf "hello"))
                           "hello.txt" "text/plain")
           (bytesOf "hello") emptyStore eq_refl eq_refl).
  - vm_compute. discriminate.
  - exact Hlen.
Defined.

(** ** The levels that occur *)

(** X12: the criticality of a file is 0, 2, 3 or 4 and never 1: the branch
    "Unexpected entropy pattern" is not reachable. For a non-empty buffer
    the assessment is therefore suspicious exactly when it is invalid, every
    suspicious assessment is also flagged corrupted, and the caution about
    minor anomalies is never recommended. *)
Theorem level_is_never_1 (ext : Externals) (buffer : Buffer)
    (filename mime : string) :
  buffer <> [] ->
  let c := classifyFileCriticality buffer filename mime in
  let v := validateFile ext buffer filename mime in
  (level c = 0 \/ level c = 2 \/ level c = 3 \/ level c = 4)
  /\ reasons c <> [Text "Unexpected entropy pattern"]
  /\ isSuspicious v = negb (isValid v)
  /\ (isSuspicious v = true -> isCorrupted v = true)
  /\ ~ In "File has minor anomalies – treat with caution"%string
          (recommendations v).
Proof.
  intros Hne c v.
  pose proof (level_values buffer filename mime) as Hvalues.
  cbv zeta in Hvalues. fold c in Hvalues.
  split; [exact Hvalues |].
  split.
  { subst c. unfold classifyFileCriticality.
    destruct (entropyBand_cases (calculateShannonEntropy buffer))
      as [(_ & ->) | [(_ & _ & ->) | [(_ & ->) | [(_ & ->) | (_ & ->)]]]];
      cbn [reasons]; discriminate. }
  subst v. destruct buffer as [| b rest]; [contradiction |].
  unfold validateFile. fold c.
  destruct (2 <=? level c) eqn:H2.
  - cbn [isSuspicious isValid isCorrupted recommendations negb].
    repeat split. intros [H | []]. discriminate.
  - apply Z.leb_gt in H2.
    replace (level c =? 1) with false by (symmetry; apply Z.eqb_neq; lia).
    cbn [isSuspicious isValid isCorrupted recommendations negb].
    repeat split; [discriminate | intros []].
Qed.

(** The clean sample sits at level 0. *)
Lemma level_is_never_1_on_plainBinary :
  plainBinary <> []
  /\ isSuspicious (validateFile (answering 0.1 "normal") plainBinary
                                "data.bin" "application/octet-stream")
     = negb (isValid (validateFile (answering 0.1 "normal") plainBinary
                                   "data.bin" "application/octet-stream")).
Proof.
  assert (plainBinary <> []) as Hne by (vm_compute; discriminate).
  split; [exact Hne |].
  apply (level_is_never_1 (answering 0.1 "normal") plainBinary "data.bin"
           "application/octet-stream" Hne).
Defined.

(** ** What the criticality gate records *)

(** X13: every alert of the criticality gate has severity "critical",
    threat type "CorruptedFile", confidence and score exactly 1 and a
    non-empty source address; its details say corrupted, suspicious and not
    valid. The "high" severity and the "SuspiciousFile" type never occur at
    this gate. *)
Theorem criticality_alert_is_always_critical (ext : Externals)
    (req : Request) (f : UploadedFile) (buf : Buffer) (db : Store) :
  buf <> [] ->
  2 <= level (classifyFileCriticality buf (originalname f) (mimetype f)) ->
  exists alert address,
    alerts (snd (decideUpload ext req f buf db)) = alerts db ++ [alert]
    /\ severity alert = "critical"%string
    /\ threat_type alert = "CorruptedFile"%string
    /\ confidence alert = 1%R /\ ml_score alert = 1%R
    /\ source_ip alert = Some address /\ address <> EmptyString
    /\ exists entropy risk,
         details alert
         = CriticalityDetails (originalname f) (size f)
             (issues (validateFile ext buf (originalname f) (mimetype f)))
             (detectFileType buf) entropy risk true "File appears corrupted"
             true true false.
Proof.
  intros Hne H2.
  destruct (criticality_gate_blocks ext req f buf db Hne H2)
    as (_ & Halerts & _).
  destruct (validateFile_fields ext buf (originalname f) (mimetype f) Hne)
    as (_ & Hr & _ & Hd & Hvalid & Hc & _).
  set (v := validateFile ext buf (originalname f) (mimetype f)) in *.
  assert ((2 <=? level (classifyFileCriticality buf (originalname f)
                                                (mimetype f))) = true)
    as Hleb by (apply Z.leb_le; exact H2).
  rewrite Hleb in Hvalid, Hc. cbn [orb negb] in Hvalid, Hc.
  assert (isSuspicious v = true) as Hs.
  { subst v. destruct buf as [| b rest]; [contradiction |].
    unfold validateFile. rewrite Hleb. reflexivity. }
  assert (2 <= riskScore v)%R as Hrisk by (rewrite Hr; apply IZR_le; exact H2).
  assert (exists address,
            orElse (orElse (ip req) (remoteAddress req))
                   (Some "unknown"%string) = Some address
            /\ address <> EmptyString) as (address & Haddr & Hnonempty).
  { unfold orElse.
    destruct (ip req) as [[| c s] |]; cbn [truthy];
      destruct (remoteAddress req) as [[| c' s'] |]; cbn [truthy];
      eexists; split; try reflexivity; discriminate. }
  exists (criticalityAlert req f v), address.
  split; [exact Halerts |].
  unfold criticalityAlert.
  cbn [severity threat_type confidence ml_score source_ip details].
  rewrite Hc, Hs, Hvalid, Hd, Haddr. rewrite Rgtb_true by lra.
  assert (Rmin (riskScore v) 1.0 = 1%R) as ->
    by (unfold Rmin; destruct (Rle_dec (riskScore v) 1.0); lra).
  repeat split; try assumption. eexists. eexists. reflexivity.
Qed.

(** Three identical bytes. *)
Lemma criticality_alert_is_always_critical_on_identical_bytes :
  let f := mkUploadedFile (Some [65; 65; 65]) 3 "a.bin"
                          "application/octet-stream" in
  let req := uploadOf [65; 65; 65] "a.bin" "application/octet-stream" in
  [65; 65; 65] <> []
  /\ exists alert,
       alerts (snd (decideUpload (answering 0.1 "normal") req f [65; 65; 65]
                                 emptyStore)) = [alert]
       /\ severity alert = "critical"%string.
Proof.
  intros f req.
  assert ([65; 65; 65] <> []) as Hne by discriminate.
  split; [exact Hne |].
  destruct (criticality_alert_is_always_critical (answering 0.1 "normal") req
              f [65; 65; 65] emptyStore Hne)
    as (alert & address & Halerts & Hsev & _).
  - destruct (score_identical3 (answering 0.1 "normal") "a.bin"
                "application/octet-stream") as (Hl & _).
    destruct (validateFile_level_cases (answering 0.1 "normal") [65; 65; 65]
                "a.bin" "application/octet-stream" Hne)
      as (l & Hl' & _ & Heq & _).
    rewrite Hl in Hl'. inversion Hl' as [H4]. simpl originalname.
    simpl mimetype. rewrite <- Heq, <- H4. lia.
  - exists alert. split; [exact Halerts | exact Hsev].
Defined.

(** ** The exchange with the anomaly service *)

(** X14: the record sent to the anomaly service never depends on what the
    validation found: for every upload that reaches the service the type
    risk is 0.2, the metadata anomaly is the entropy variance alone, and the
    other fields are the size, the entropy features and constants. *)
Theorem service_request_ignores_validation (ext : Externals) (req : Request)
    (f : UploadedFile) (buf : Buffer) (db : Store) :
  buf <> [] ->
  level (classifyFileCriticality buf (originalname f) (mimetype f)) < 2 ->
  let features := getEntropyFeatures ext buf in
  idsRequests (snd (decideUpload ext req f buf db))
  = idsRequests db
    ++ [mkFileFeatures (size f) (ef_entropy features) 0.2 256 1.0
          (entropy_ratio features) (entropy_variance features)
          (IZR (size f) / 1000) 0.0 1].
Proof.
  intros Hne Hlt features.
  destruct (past_the_gate ext buf (originalname f) (mimetype f) Hne Hlt)
    as (_ & Hr & Hs & _).
  assert (fileFeaturesOf ext f buf
            (validateFile ext buf (originalname f) (mimetype f))
          = mkFileFeatures (size f) (ef_entropy features) 0.2 256 1.0
              (entropy_ratio features) (entropy_variance features)
              (IZR (size f) / 1000) 0.0 1) as Hfeatures.
  { unfold fileFeaturesOf. fold features. rewrite Hr, Hs.
    rewrite Rgtb_false by lra. f_equal. lra. }
  destruct (decideUpload_cases ext req f buf db Hne)
    as [(H2 & _) | [(_ & _ & c & ->) | (_ & _ & _ & _ & doc & _ & ->)]];
    [lia | |]; cbn [snd idsRequests]; rewrite Hfeatures; reflexivity.
Qed.

(** The clean sample. *)
Lemma service_request_ignores_validation_on_plainBinary :
  let ext := answering 0.1 "normal" in
  let f := mkUploadedFile (Some plainBinary) 32 "data.bin"
                          "application/octet-stream" in
  let req := uploadOf plainBinary "data.bin" "application/octet-stream" in
  plainBinary <> []
  /\ length (idsRequests (snd (decideUpload ext req f plainBinary emptyStore)))
     = 1%nat.
Proof.
  intros ext req f.
  assert (plainBinary <> []) as Hne by (vm_compute; discriminate).
  split; [exact Hne |].
  rewrite (service_request_ignores_validation ext f req plainBinary
             emptyStore Hne).
  - reflexivity.
  - destruct (plainBinary_clean ext) as (Hl & _).
    simpl originalname. simpl mimetype. rewrite Hl. lia.
Defined.

(** X15: the answer of the anomaly service is never altered by the local
    risk: when the service answers [(score, label)] the route decides and
    records exactly that score and label, and when the call throws the
    stand-in is always score 0.8, label "suspicious" and the error "IDS
    service unavailable". The stand-in that mentions validation issues is
    never produced. *)
Theorem service_answer_is_passed_through (ext : Externals) (f : UploadedFile)
    (buf : Buffer) :
  buf <> [] ->
  level (classifyFileCriticality buf (originalname f) (mimetype f)) < 2 ->
  let v := validateFile ext buf (originalname f) (mimetype f) in
  let features := fileFeaturesOf ext f buf v in
  idsAnalysis ext v features
  = match callIDS ext features with
    | inr (score, label) => mkIdsResult score label None
    | inl _ =>
        mkIdsResult 0.8 "suspicious" (Some "IDS service unavailable"%string)
    end.
Proof.
  intros Hne Hlt v features.
  destruct (past_the_gate ext buf (originalname f) (mimetype f) Hne Hlt)
    as (_ & Hr & _).
  fold v in Hr. unfold idsAnalysis. rewrite Hr.
  rewrite Rgtb_false by lra.
  destruct (callIDS ext features) as [message | [score label]]; reflexivity.
Qed.

(** The clean sample with the service down. *)
Lemma service_answer_is_passed_through_on_plainBinary :
  let f := mkUploadedFile (Some plainBinary) 32 "data.bin"
                          "application/octet-stream" in
  let v := validateFile unreachable plainBinary "data.bin"
                        "application/octet-stream" in
  plainBinary <> []
  /\ anomaly_score
       (idsAnalysis unreachable v (fileFeaturesOf unreachable f plainBinary v))
     = 0.8%R.
Proof.
  intros f v.
  assert (plainBinary <> []) as Hne by (vm_compute; discriminate).
  split; [exact Hne |]. subst v.
  assert (level (classifyFileCriticality plainBinary (originalname f)
                                         (mimetype f)) < 2) as Hlt.
  { destruct (plainBinary_clean unreachable) as (Hl & _).
    simpl originalname. simpl mimetype. rewrite Hl. lia. }
  pose proof (service_answer_is_passed_through unreachable f plainBinary Hne
                Hlt) as Hshape.
  cbv zeta in Hshape. simpl originalname in Hshape. simpl mimetype in Hshape.
  rewrite Hshape. reflexivity.
Defined.

(** ** Stored uploads *)

(** X16: an upload is stored only if its entropy lies in the normal band,
    from 4.5 to below 7.2, validation found nothing but the note on normal
    entropy, and the anomaly service answered with a label other than
    "suspicious"; the transfer is then recorded as completed, at progress
    100, with method AES-GCM, the name and size of the upload and the answer
    of the service as received. *)
Theorem stored_upload_is_clean (ext : Externals) (req : Request)
    (f : UploadedFile) (buf : Buffer) (db : Store) :
  file req = Some f -> buffer f = Some buf -> buf <> [] ->
  size f <= maxSize ->
  code (fst (uploadHandler ext req db)) = 200 ->
  let v := validateFile ext buf (originalname f) (mimetype f) in
  (4.5 <= calculateShannonEntropy buf < 7.2)%R
  /\ criticalityLevel v = Some 0
  /\ issues v = [Text "Normal entropy — likely safe"]
  /\ isValid v = true /\ isCorrupted v = false /\ isSuspicious v = false
  /\ exists score label,
       callIDS ext (fileFeaturesOf ext f buf v) = inr (score, label)
       /\ label <> "suspicious"%string
       /\ alerts (snd (uploadHandler ext req db)) = alerts db
       /\ transfers (snd (uploadHandler ext req db))
          = transfers db
            ++ [mkTransfer (userId req) (originalname f) (size f) "completed"
                  100 "AES-GCM" (getEntropyFeatures ext buf)
                  (mkIdsResult score label None)].
Proof.
  intros Hf Hb Hne Hsize Hcode v.
  rewrite (upload_checked ext req f buf db Hf Hb Hne Hsize) in *.
  destruct (decideUpload_cases ext req f buf db Hne)
    as [(_ & c & Heq) | [(_ & _ & c & Heq) | (Hl & Hn & Hc & _ & doc & _ & Heq)]];
    try (rewrite Heq in Hcode; cbn [fst code] in Hcode; discriminate).
  fold v in Hn, Hc.
  destruct (past_the_gate ext buf (originalname f) (mimetype f) Hne Hl)
    as (H0 & Hr & Hs & Hvalid & Hrange & Hreasons).
  fold v in Hr, Hs, Hvalid, Hrange.
  destruct (validateFile_fields ext buf (originalname f) (mimetype f) Hne)
    as (Hlevel & _ & He & _ & _ & Hcor & Hissues).
  fold v in Hlevel, He, Hcor, Hissues.
  rewrite H0 in Hlevel. rewrite He in Hrange.
  assert (checkFileStructure ext buf (originalname f) = []
          /\ cc_issues (detectCorruption ext buf (originalname f)) = [])
    as [Hstructure Hcc].
  { rewrite Hc, H0 in Hcor. symmetry in Hcor.
    apply orb_false_iff in Hcor. destruct Hcor as [Hcor Hcc].
    apply orb_false_iff in Hcor. destruct Hcor as [_ Hst].
    split.
    - destruct (checkFileStructure ext buf (originalname f));
        [reflexivity | discriminate Hst].
    - unfold detectCorruption in *. cbn [cc_issues cc_isCorrupted] in *.
      destruct (nullByteIssues buf (originalname f)
                ++ repeatedPatternIssues buf ++ nullRatioIssues buf
                ++ entropyIssues ext buf); [reflexivity | discriminate Hcc]. }
  rewrite Hstructure, Hcc, Hreasons in Hissues. cbn [app] in Hissues.
  assert (idsAnalysis ext v (fileFeaturesOf ext f buf v)
          = match callIDS ext (fileFeaturesOf ext f buf v) with
            | inr (score, label) => mkIdsResult score label None
            | inl _ =>
                mkIdsResult 0.8 "suspicious"
                            (Some "IDS service unavailable"%string)
            end) as Hshape.
  { unfold idsAnalysis. rewrite Hr. rewrite Rgtb_false by lra.
    destruct (callIDS ext (fileFeaturesOf ext f buf v)) as [m | [s l]];
      reflexivity. }
  assert (decideUpload ext req f buf db
          = (mkResponse 200
               (Stored
                  (mkTransfer (userId req) (originalname f) (size f)
                     "completed" 100 "AES-GCM" (getEntropyFeatures ext buf)
                     (idsAnalysis ext v (fileFeaturesOf ext f buf v)))
                  "normal" (idsAnalysis ext v (fileFeaturesOf ext f buf v))),
             mkStore (alerts db)
               (transfers db
                ++ [mkTransfer (userId req) (originalname f) (size f)
                      "completed" 100 "AES-GCM" (getEntropyFeatures ext buf)
                      (idsAnalysis ext v (fileFeaturesOf ext f buf v))])
               (idsRequests db ++ [fileFeaturesOf ext f buf v])
               (wsMessages db))) as Hstored.
  { unfold decideUpload. fold v. rewrite Hlevel.
    change (2 <=? 0) with false. cbv iota.
    replace (String.eqb
               (verdict (idsAnalysis ext v (fileFeaturesOf ext f buf v)))
               "suspicious") with false
      by (symmetry; apply String.eqb_neq; exact Hn).
    rewrite Hc, Hr. rewrite Rgtb_false by lra. reflexivity. }
  split; [exact Hrange |]. split; [exact Hlevel |]. split; [exact Hissues |].
  split; [exact Hvalid |]. split; [exact Hc |]. split; [exact Hs |].
  destruct (callIDS ext (fileFeaturesOf ext f buf v))
    as [message | [score label]] eqn:Hcall.
  - exfalso. apply Hn. rewrite Hshape. reflexivity.
  - exists score, label. split; [reflexivity |].
    split; [intros ->; apply Hn; rewrite Hshape; reflexivity |].
    rewrite Hstored. cbn [snd alerts transfers]. split; [reflexivity |].
    rewrite Hshape. reflexivity.
Qed.

(** The clean sample with a quiet service. *)
Lemma stored_upload_is_clean_on_plainBinary :
  let ext := answering 0.1 "normal" in
  let req := uploadOf plainBinary "data.bin" "application/octet-stream" in
  code (fst (uploadHandler ext req emptyStore)) = 200
  /\ length (transfers (snd (uploadHandler ext req emptyStore))) = 1%nat.
Proof.
  intros ext req.
  assert (code (fst (uploadHandler ext req emptyStore)) = 200) as Hcode
    by (apply plainBinary_stored; discriminate).
  split; [exact Hcode |].
  destruct (stored_upload_is_clean ext req
              (mkUploadedFile (Some plainBinary) (blen plainBinary)
                 "data.bin" "application/octet-stream")
              plainBinary emptyStore eq_refl eq_refl)
    as (_ & _ & _ & _ & _ & _ & score & label & _ & _ & _ & Htransfers).
  - vm_compute. discriminate.
  - vm_compute. discriminate.
  - exact Hcode.
  - rewrite Htransfers. reflexivity.
Defined.

(** ** Alerts pushed to open sockets *)

Lemma map_to_constant {A B : Type} (b : B) (l : list A) :
  map (fun _ => b) l = repeat b (length l).
Proof.
  induction l as [| x rest IH]; [reflexivity |].
  cbn [map length repeat]. rewrite IH. reflexivity.
Qed.

(** X17: only the criticality gate pushes an alert to the sockets. An upload
    blocked there sends the alert it stores to every open client, once
    each, and to no one when no socket server is attached; an upload that
    passes that gate pushes nothing, also when it is blocked after the
    anomaly service. *)
Theorem only_the_criticality_gate_broadcasts (ext : Externals)
    (req : Request) (f : UploadedFile) (buf : Buffer) (db : Store) :
  buf <> [] ->
  let l := level (classifyFileCriticality buf (originalname f) (mimetype f)) in
  let db' := snd (decideUpload ext req f buf db) in
  (l < 2 -> wsMessages db' = wsMessages db)
  /\ (2 <= l ->
      exists alert,
        alerts db' = alerts db ++ [alert]
        /\ wsMessages db' = wsMessages db ++ repeat alert (openClients req)).
Proof.
  intros Hne l db'. subst db'.
  destruct (decideUpload_cases ext req f buf db Hne)
    as [(H2 & c & ->) | [(Hlt & _ & c & ->) | (Hlt & _ & _ & _ & doc & _ & ->)]];
    try fold l in H2; try fold l in Hlt; cbn [snd wsMessages alerts].
  - split; [intros; lia |]. intros _. eexists. split; [reflexivity |].
    unfold broadcast, openClients.
    destruct (wss req) as [clients |]; [| reflexivity].
    rewrite map_to_constant. reflexivity.
  - split; [reflexivity | intros; lia].
  - split; [reflexivity | intros; lia].
Qed.

(** Three identical bytes while two of three sockets are open. *)
Lemma only_the_criticality_gate_broadcasts_on_identical_bytes :
  let f := mkUploadedFile (Some [65; 65; 65]) 3 "a.bin"
                          "application/octet-stream" in
  let req := mkRequest (Some f) "user-1" None None (Some [1; 3; 1]) in
  [65; 65; 65] <> []
  /\ length (wsMessages (snd (decideUpload (answering 0.1 "normal") req f
                                           [65; 65; 65] emptyStore)))
     = 2%nat.
Proof.
  intros f req.
  assert ([65; 65; 65] <> []) as Hne by discriminate.
  split; [exact Hne |].
  destruct (only_the_criticality_gate_broadcasts (answering 0.1 "normal") req
              f [65; 65; 65] emptyStore Hne) as (_ & Hgate).
  destruct Hgate as (alert & _ & ->).
  - destruct (score_identical3 (answering 0.1 "normal") "a.bin"
                "application/octet-stream") as (Hl & _).
    destruct (validateFile_level_cases (answering 0.1 "normal") [65; 65; 65]
                "a.bin" "application/octet-stream" Hne)
      as (l & Hl' & _ & Heq & _).
    rewrite Hl in Hl'. inversion Hl' as [H4]. simpl originalname.
    simpl mimetype. rewrite <- Heq, <- H4. lia.
  - reflexivity.
Defined.

(** ** The header check that is not called *)

Lemma sliceLast_byte (buffer : Buffer) (k i : nat) :
  (k <= length buffer)%nat ->
  byteAt (sliceLast buffer k) i = byteAt buffer (length buffer - k + i).
Proof.
  intros Hk. unfold byteAt, sliceLast. apply nth_skipn.
Qed.

(** X18: on a buffer that opens with the JPEG signature and holds more than
    ten bytes, [hasMalformedHeader], which nothing calls, answers true
    exactly when [validateImage] reports the missing end marker. *)
Theorem header_check_agrees_with_image_check_on_jpeg (ext : Externals)
    (rest : Buffer) (filename : string) :
  let buf := 0xFF :: 0xD8 :: 0xFF :: rest in
  10 < blen buf ->
  hasMalformedHeader buf filename = true
  <-> In (Text "JPEG file appears truncated (missing end marker)")
         (validateImage ext buf "image/jpeg").
Proof.
  intros buf Hlen.
  assert (byteAt buf 0 = 0xFF /\ byteAt buf 1 = 0xD8) as [Hb0 Hb1]
    by (split; reflexivity).
  clearbody buf.
  assert (2 <= length buf)%nat as Hlen2 by (unfold blen in Hlen; lia).
  assert (hasMalformedHeader buf filename
          = negb (byteAt buf (length buf - 2) =? 0xFF)
            || negb (byteAt buf (length buf - 1) =? 0xD9)) as Hheader.
  { unfold hasMalformedHeader. rewrite Hb0, Hb1.
    replace (blen buf <? 8) with false by (symmetry; apply Z.ltb_ge; lia).
    replace (blen buf <? 2) with false by (symmetry; apply Z.ltb_ge; lia).
    change (0xFF =? 0x89) with false. change (0xFF =? 0xff) with true.
    change (0xD8 =? 0xd8) with true. change (0xFF =? 0x25) with false.
    cbn [andb orb].
    destruct (negb (byteAt buf (length buf - 2) =? 0xff)
              || negb (byteAt buf (length buf - 1) =? 0xd9)); reflexivity. }
  assert (validateImage ext buf "image/jpeg"
          = (if negb (byteAt buf (length buf - 2) =? 0xFF)
                || negb (byteAt buf (length buf - 1) =? 0xD9)
             then [Text "JPEG file appears truncated (missing end marker)"]
             else [])
            ++ sharpIssues ext buf "JPEG") as Himage.
  { unfold validateImage.
    replace (String.eqb "image/jpeg" "image/jpeg") with true by reflexivity.
    replace (String.eqb "image/jpeg" "image/png") with false by reflexivity.
    replace (String.eqb "image/jpeg" "image/gif") with false by reflexivity.
    cbn [orb]. rewrite !app_nil_r.
    replace (10 <? blen buf) with true by (symmetry; apply Z.ltb_lt; exact Hlen).
    rewrite !sliceLast_byte by exact Hlen2.
    replace (length buf - 2 + 0)%nat with (length buf - 2)%nat by lia.
    replace (length buf - 2 + 1)%nat with (length buf - 1)%nat by lia.
    reflexivity. }
  rewrite Hheader, Himage.
  destruct (negb (byteAt buf (length buf - 2) =? 0xFF)
            || negb (byteAt buf (length buf - 1) =? 0xD9)).
  - split; [intros _; left; reflexivity | reflexivity].
  - split; [discriminate |]. cbn [app]. unfold sharpIssues.
    destruct (sharpMetadata ext buf) as [message | metadata].
    + intros [H | []]. inversion H.
    + destruct (missing (width metadata) || missing (height metadata));
        [intros [H | []]; inversion H | intros []].
Qed.

(** The corrupted JPEG of [create_corrupted_files.js]. *)
Lemma header_check_agrees_with_image_check_on_test_file :
  let rest := [0xE0; 0x00; 0x10; 0x4A; 0x46; 0x49; 0x46]
              ++ repeat 0 200 ++ repeat 0xFF 100 in
  let buf := 0xFF :: 0xD8 :: 0xFF :: rest in
  10 < blen buf
  /\ In (Text "JPEG file appears truncated (missing end marker)")
        (validateImage (answering 0.1 "normal") buf "image/jpeg").
Proof.
  intros rest buf.
  assert (10 < blen buf) as Hlen by (vm_compute; reflexivity).
  split; [exact Hlen |].
  apply (header_check_agrees_with_image_check_on_jpeg
           (answering 0.1 "normal") rest "corrupted_image.jpg" Hlen).
  vm_compute. reflexivity.
Defined.

(** ** Letter case in file names *)

Lemma lowerAscii_idempotent (c : ascii) :
  lowerAscii (lowerAscii c) = lowerAscii c.
Proof. destruct c as [[] [] [] [] [] [] [] []]; reflexivity. Qed.

Lemma lowerAscii_dot (c : ascii) :
  Ascii.eqb (lowerAscii c) "."%char = Ascii.eqb c "."%char.
Proof. destruct c as [[] [] [] [] [] [] [] []]; reflexivity. Qed.

Lemma toLowerCase_idempotent (s : string) :
  toLowerCase (toLowerCase s) = toLowerCase s.
Proof.
  induction s as [| c rest IH]; [reflexivity |].
  cbn [toLowerCase]. rewrite lowerAscii_idempotent, IH. reflexivity.
Qed.

Lemma toLowerCase_append (s t : string) :
  toLowerCase (s +:+ t) = toLowerCase s +:+ toLowerCase t.
Proof.
  induction s as [| c rest IH]; [reflexivity |].
  simpl. rewrite IH. reflexivity.
Qed.

Lemma containsDot_toLowerCase (s : string) :
  containsDot (toLowerCase s) = containsDot s.
Proof.
  induction s as [| c rest IH]; [reflexivity |].
  cbn [toLowerCase containsDot]. rewrite lowerAscii_dot, IH. reflexivity.
Qed.

Lemma lastSegment_toLowerCase (s current : string) :
  lastSegment (toLowerCase s) (toLowerCase current)
  = toLowerCase (lastSegment s current).
Proof.
  revert current. induction s as [| c rest IH]; intros current;
    [reflexivity |].
  cbn [toLowerCase lastSegment]. rewrite lowerAscii_dot.
  destruct (Ascii.eqb c "."%char).
  - apply (IH EmptyString).
  - rewrite <- IH, toLowerCase_append. reflexivity.
Qed.

Lemma lastSegment_lower (s : string) :
  lastSegment (toLowerCase s) EmptyString
  = toLowerCase (lastSegment s EmptyString).
Proof. exact (lastSegment_toLowerCase s EmptyString). Qed.

(** X19: [extensionRisk] and the extension that [checkFileStructure] and
    the test for text names read do not depend on the letter case of the
    name; the risk of a name without a dot is 1, and every risk is one of
    0, 1, 2 and 3. *)
Theorem name_checks_ignore_letter_case (filename : string) :
  extensionRisk (toLowerCase filename) = extensionRisk filename
  /\ extensionOf (toLowerCase filename) = extensionOf filename
  /\ textExtension (toLowerCase filename) = textExtension filename
  /\ typeMismatches (extensionOf (toLowerCase filename))
     = typeMismatches (extensionOf filename)
  /\ (containsDot filename = false -> extensionRisk filename = 1)
  /\ 0 <= extensionRisk filename <= 3.
Proof.
  assert (extensionOf (toLowerCase filename) = extensionOf filename) as Hext.
  { unfold extensionOf.
    rewrite lastSegment_lower. apply toLowerCase_idempotent. }
  split.
  { unfold extensionRisk. rewrite containsDot_toLowerCase.
    destruct (containsDot filename); [| reflexivity].
    rewrite !toLowerCase_append, lastSegment_lower.
    rewrite toLowerCase_idempotent. reflexivity. }
  split; [exact Hext |].
  split; [unfold textExtension; rewrite containsDot_toLowerCase, Hext;
          reflexivity |].
  split; [rewrite Hext; reflexivity |].
  split.
  - intros Hdot. unfold extensionRisk. rewrite Hdot. reflexivity.
  - unfold extensionRisk.
    repeat match goal with
           | |- context [if ?c then _ else _] => destruct c
           end; lia.
Qed.

(** ** The alert routes *)

Module AlertsApiFacts.

Import AlertsApi.

Lemma insertNewest_perm (a : AlertDoc) (sorted : list AlertDoc) :
  Permutation (insertNewest a sorted) (a :: sorted).
Proof.
  induction sorted as [| b rest IH]; cbn [insertNewest]; [reflexivity |].
  destruct (createdAt b <=? createdAt a); [reflexivity |].
  rewrite IH. apply perm_swap.
Qed.

Lemma newestFirst_perm (docs : list AlertDoc) :
  Permutation (newestFirst docs) docs.
Proof.
  induction docs as [| a rest IH]; cbn [newestFirst]; [reflexivity |].
  rewrite insertNewest_perm, IH. reflexivity.
Qed.

Lemma insertNewest_sorted (a : AlertDoc) (sorted : list AlertDoc) :
  StronglySorted newerFirst sorted ->
  StronglySorted newerFirst (insertNewest a sorted).
Proof.
  induction 1 as [| b rest Hrest IH Hb]; cbn [insertNewest].
  - constructor; constructor.
  - destruct (createdAt b <=? createdAt a) eqn:Hle.
    + apply Z.leb_le in Hle. constructor; [constructor; assumption |].
      constructor; [exact Hle |].
      eapply Forall_impl; [exact Hb |].
      intros c Hc. unfold newerFirst in *. lia.
    + apply Z.leb_gt in Hle. constructor; [exact IH |].
      apply List.Forall_forall. intros c Hc.
      apply (Permutation_in _ (insertNewest_perm a rest)) in Hc.
      destruct Hc as [<- | Hc]; [unfold newerFirst; lia |].
      rewrite List.Forall_forall in Hb. apply Hb. exact Hc.
Qed.

Lemma newestFirst_sorted (docs : list AlertDoc) :
  StronglySorted newerFirst (newestFirst docs).
Proof.
  induction docs as [| a rest IH]; cbn [newestFirst]; [constructor |].
  apply insertNewest_sorted, IH.
Qed.

Lemma sorted_front_before_back (l1 l2 : list AlertDoc) :
  StronglySorted newerFirst (l1 ++ l2) ->
  StronglySorted newerFirst l1
  /\ forall x y, In x l1 -> In y l2 -> newerFirst x y.
Proof.
  induction l1 as [| a rest IH]; cbn [app]; intros H.
  - split; [constructor | intros x y []].
  - inversion H as [| ? ? Hrest Ha]; subst.
    destruct (IH Hrest) as [Hsorted Hcross]. split.
    + constructor; [exact Hsorted |].
      apply List.Forall_forall. intros c Hc.
      rewrite List.Forall_forall in Ha. apply Ha, in_or_app. left. exact Hc.
    + intros x y [<- | Hx] Hy.
      * rewrite List.Forall_forall in Ha. apply Ha, in_or_app. right. exact Hy.
      * apply Hcross; assumption.
Qed.

Lemma sorted_map_toJson (docs : list AlertDoc) :
  StronglySorted newerFirst docs ->
  StronglySorted (fun x y => created_at y <= created_at x) (map toJson docs).
Proof.
  induction 1 as [| a rest Hrest IH Ha]; cbn [map]; constructor;
    [exact IH |].
  apply List.Forall_forall. intros j Hj. apply in_map_iff in Hj.
  destruct Hj as (b & <- & Hb). rewrite List.Forall_forall in Ha.
  exact (Ha b Hb).
Qed.

(** X20: [GET /alerts] answers with at most 100 alerts, each one a document
    of the caller, newest first; an alert of the caller that is left out is
    no newer than any alert listed, and nothing is left out when the caller
    has at most 100 alerts. *)
Theorem listing_is_own_newest_first (userId : string)
    (docs : list AlertDoc) :
  let listed := getAlerts userId docs in
  (length listed <= 100)%nat
  /\ (forall j, In j listed ->
        user_id j = userId /\ exists a, In a docs /\ j = toJson a)
  /\ StronglySorted (fun x y => created_at y <= created_at x) listed
  /\ (forall a, In a docs -> owns userId a = true ->
        In (toJson a) listed
        \/ forall j, In j listed -> createdAt a <= created_at j)
  /\ ((length (List.filter (owns userId) docs) <= 100)%nat ->
      Permutation listed (map toJson (List.filter (owns userId) docs))).
Proof.
  intros listed. subst listed. unfold getAlerts.
  set (mine := List.filter (owns userId) docs).
  pose proof (newestFirst_perm mine) as Hperm.
  pose proof (newestFirst_sorted mine) as Hsorted.
  rewrite <- (firstn_skipn 100 (newestFirst mine)) in Hsorted.
  destruct (sorted_front_before_back _ _ Hsorted) as [Hfront Hcross].
  split; [rewrite length_map, length_firstn; lia |].
  split.
  { intros j Hj. apply in_map_iff in Hj. destruct Hj as (a & <- & Ha).
    assert (In a (newestFirst mine)) as Hin.
    { rewrite <- (firstn_skipn 100 (newestFirst mine)).
      apply in_or_app. left. exact Ha. }
    apply (Permutation_in _ Hperm) in Hin. clear Ha. rename Hin into Ha.
    subst mine.
    apply filter_In in Ha. destruct Ha as [Ha Hown].
    split; [apply String.eqb_eq; exact Hown | exists a; split; auto]. }
  split; [apply sorted_map_toJson; exact Hfront |].
  split.
  { intros a Ha Hown.
    assert (In a (newestFirst mine)) as Hin.
    { apply (Permutation_in _ (Permutation_sym Hperm)). subst mine.
      apply filter_In. split; assumption. }
    rewrite <- (firstn_skipn 100 (newestFirst mine)) in Hin.
    apply in_app_or in Hin. destruct Hin as [Hin | Hin].
    - left. apply in_map. exact Hin.
    - right. intros j Hj. apply in_map_iff in Hj.
      destruct Hj as (b & <- & Hb). exact (Hcross b a Hb Hin). }
  intros Hfew. rewrite firstn_all2.
  - apply Permutation_map. exact Hperm.
  - rewrite (Permutation_length Hperm). exact Hfew.
Qed.

Lemma unique_by_id (docs : list AlertDoc) (a b : AlertDoc) :
  List.NoDup (map doc_id docs) -> In a docs -> In b docs ->
  doc_id a = doc_id b -> a = b.
Proof.
  induction docs as [| c rest IH]; cbn [map]; intros Hnd Ha Hb Heq;
    [destruct Ha |].
  inversion Hnd as [| ? ? Hc Hrest]; subst.
  destruct Ha as [-> | Ha], Hb as [-> | Hb].
  - reflexivity.
  - exfalso. apply Hc. rewrite Heq. apply in_map. exact Hb.
  - exfalso. apply Hc. rewrite <- Heq. apply in_map. exact Ha.
  - apply IH; assumption.
Qed.

Lemma selects_spec (alertId userId : string) (a : AlertDoc) :
  selects alertId userId a = true
  <-> doc_id a = alertId /\ a_userId (fields a) = userId.
Proof.
  unfold selects, owns. rewrite andb_true_iff, !String.eqb_eq. tauto.
Qed.

Lemma find_unique (alertId userId : string) (docs : list AlertDoc)
    (a : AlertDoc) :
  List.NoDup (map doc_id docs) -> In a docs ->
  selects alertId userId a = true ->
  List.find (selects alertId userId) docs = Some a.
Proof.
  intros Hnd Ha Hsel.
  destruct (List.find (selects alertId userId) docs) as [b |] eqn:Hfind.
  - apply List.find_some in Hfind. destruct Hfind as [Hb Hselb].
    apply selects_spec in Hsel, Hselb.
    f_equal. apply (unique_by_id docs); try assumption.
    destruct Hsel as [-> _]. apply Hselb.
  - pose proof (List.find_none _ _ Hfind a Ha) as Hno. congruence.
Qed.

Lemma find_nothing (select : AlertDoc -> bool) (docs : list AlertDoc) :
  (forall a, In a docs -> select a = false) -> List.find select docs = None.
Proof.
  induction docs as [| a rest IH]; intros H; cbn [List.find];
    [reflexivity |].
  rewrite (H a (or_introl eq_refl)). apply IH. intros b Hb.
  apply H. right. exact Hb.
Qed.

Lemma listed_is_owned (userId : string) (docs : list AlertDoc)
    (j : AlertJson) :
  In j (getAlerts userId docs) ->
  exists a, In a docs /\ owns userId a = true /\ j = toJson a.
Proof.
  unfold getAlerts. intros Hj. apply in_map_iff in Hj.
  destruct Hj as (a & <- & Ha).
  assert (In a (newestFirst (List.filter (owns userId) docs))) as Hin.
  { rewrite <- (firstn_skipn 100 (newestFirst _)).
    apply in_or_app. left. exact Ha. }
  apply (Permutation_in _ (newestFirst_perm _)) in Hin.
  apply filter_In in Hin. destruct Hin as [Hin Hown].
  exists a. auto.
Qed.

(** X21: when identifiers are unique and readable, every alert that
    [GET /alerts] lists for a user is answered unchanged by
    [GET /alerts/:id] for that user, and with 404 for any other user. *)
Theorem listed_alert_is_fetched_by_its_owner_only
    (castsToObjectId : string -> bool) (userId : string)
    (docs : list AlertDoc) (j : AlertJson) :
  List.NoDup (map doc_id docs) ->
  (forall a, In a docs -> castsToObjectId (doc_id a) = true) ->
  In j (getAlerts userId docs) ->
  getAlertById castsToObjectId (id j) userId docs = Answer j
  /\ forall other, other <> userId ->
       getAlertById castsToObjectId (id j) other docs = NotFound.
Proof.
  intros Hnd Hcast Hj.
  destruct (listed_is_owned _ _ _ Hj) as (a & Ha & Hown & ->).
  unfold getAlertById. cbn [id toJson]. rewrite (Hcast a Ha).
  unfold owns in Hown. apply String.eqb_eq in Hown. split.
  - rewrite (find_unique (doc_id a) userId docs a Hnd Ha);
      [reflexivity |].
    apply selects_spec. split; [reflexivity | exact Hown].
  - intros other Hother. rewrite find_nothing; [reflexivity |].
    intros b Hb. destruct (selects (doc_id a) other b) eqn:Hsel;
      [| reflexivity].
    apply selects_spec in Hsel. destruct Hsel as [Hid Howner].
    assert (b = a) as -> by (apply (unique_by_id docs); assumption).
    congruence.
Qed.

Lemma listed_alert_is_fetched_by_its_owner_only_on_sample :
  getAlertById everyId "a2" "alice" sampleAlerts
    = Answer (toJson (mkAlertDoc "a2" 30 false (sampleAlert "alice")))
  /\ getAlertById everyId "a2" "bob" sampleAlerts = NotFound.
Proof.
  assert (List.NoDup (map doc_id sampleAlerts)) as Hnd.
  { cbn. repeat constructor; cbn; intuition discriminate. }
  assert (In (toJson (mkAlertDoc "a2" 30 false (sampleAlert "alice")))
            (getAlerts "alice" sampleAlerts)) as Hin.
  { cbn. left. reflexivity. }
  destruct (listed_alert_is_fetched_by_its_owner_only everyId "alice"
              sampleAlerts _ Hnd (fun _ _ => eq_refl) Hin) as [Hget Hnot].
  split; [exact Hget | apply Hnot; discriminate].
Defined.

Lemma resolveFirst_find (select : AlertDoc -> bool) (docs : list AlertDoc)
    (a : AlertDoc) :
  (forall x, select (mkAlertDoc (doc_id x) (createdAt x) true (fields x))
             = select x) ->
  List.find select docs = Some a ->
  List.find select (resolveFirst select docs)
    = Some (mkAlertDoc (doc_id a) (createdAt a) true (fields a)).
Proof.
  intros Hsame. induction docs as [| b rest IH];
    cbn [List.find resolveFirst]; [discriminate |].
  destruct (select b) eqn:Hb.
  - intros [= <-]. cbn [List.find]. rewrite Hsame, Hb. reflexivity.
  - intros Hfind. cbn [List.find]. rewrite Hb. apply IH. exact Hfind.
Qed.

Lemma resolveFirst_nothing (select : AlertDoc -> bool)
    (docs : list AlertDoc) :
  List.find select docs = None -> resolveFirst select docs = docs.
Proof.
  induction docs as [| b rest IH]; cbn [List.find resolveFirst];
    [reflexivity |].
  destruct (select b); [discriminate |].
  intros Hfind. rewrite (IH Hfind). reflexivity.
Qed.

Lemma resolveFirst_unseen (select other : AlertDoc -> bool)
    (docs : list AlertDoc) :
  (forall x, select x = true ->
     other x = false
     /\ other (mkAlertDoc (doc_id x) (createdAt x) true (fields x)) = false) ->
  List.find other (resolveFirst select docs) = List.find other docs
  /\ List.filter other (resolveFirst select docs) = List.filter other docs.
Proof.
  intros Hun. induction docs as [| b rest [IHfind IHfilter]];
    cbn [resolveFirst]; [split; reflexivity |].
  destruct (select b) eqn:Hb.
  - destruct (Hun b Hb) as [H1 H2].
    cbn [List.find List.filter]. rewrite H1, H2. split; reflexivity.
  - cbn [List.find List.filter]. rewrite IHfind, IHfilter.
    split; reflexivity.
Qed.

Lemma resolveFirst_twice (select : AlertDoc -> bool) (docs : list AlertDoc) :
  (forall x, select (mkAlertDoc (doc_id x) (createdAt x) true (fields x))
             = select x) ->
  resolveFirst select (resolveFirst select docs) = resolveFirst select docs.
Proof.
  intros Hsame. induction docs as [| b rest IH]; cbn [resolveFirst];
    [reflexivity |].
  destruct (select b) eqn:Hb; cbn [resolveFirst].
  - rewrite Hsame, Hb. reflexivity.
  - rewrite Hb, IH. reflexivity.
Qed.

Lemma selects_resolved (alertId userId : string) (x : AlertDoc) :
  selects alertId userId
    (mkAlertDoc (doc_id x) (createdAt x) true (fields x))
  = selects alertId userId x.
Proof. reflexivity. Qed.

(** X22: [PATCH /alerts/:id/resolve] with a readable identifier always
    answers [{ ok: true }].  If the caller can fetch the alert, fetching it
    afterwards gives the same alert with [resolved] set; if the caller
    cannot (unknown alert, or another user's), the collection is left as it
    was.  What any other user lists and what any other fetch answers does
    not change, and resolving a second time changes nothing more. *)
Theorem resolving_marks_own_alert_only
    (castsToObjectId : string -> bool) (alertId userId : string)
    (docs : list AlertDoc) :
  castsToObjectId alertId = true ->
  let after := snd (resolveAlert castsToObjectId alertId userId docs) in
  fst (resolveAlert castsToObjectId alertId userId docs) = Answer true
  /\ (forall j,
        getAlertById castsToObjectId alertId userId docs = Answer j ->
        getAlertById castsToObjectId alertId userId after
          = Answer (markResolved j))
  /\ (getAlertById castsToObjectId alertId userId docs = NotFound ->
      after = docs)
  /\ (forall other, other <> userId ->
        getAlerts other after = getAlerts other docs)
  /\ (forall alertId' other, alertId' <> alertId \/ other <> userId ->
        getAlertById castsToObjectId alertId' other after
          = getAlertById castsToObjectId alertId' other docs)
  /\ snd (resolveAlert castsToObjectId alertId userId after) = after.
Proof.
  intros Hcast after. subst after. unfold resolveAlert, getAlertById.
  rewrite Hcast. cbn [fst snd].
  split; [reflexivity |]. split.
  { intros j Hj.
    destruct (List.find (selects alertId userId) docs) as [a |] eqn:Hfind;
      [| discriminate].
    injection Hj as <-.
    rewrite (resolveFirst_find _ _ a (selects_resolved alertId userId) Hfind).
    reflexivity. }
  split.
  { destruct (List.find (selects alertId userId) docs) as [a |] eqn:Hfind;
      [discriminate |].
    intros _. apply resolveFirst_nothing. exact Hfind. }
  split.
  { intros other Hother. unfold getAlerts.
    assert (List.filter (owns other)
              (resolveFirst (selects alertId userId) docs)
            = List.filter (owns other) docs) as ->; [| reflexivity].
    apply resolveFirst_unseen. intros x Hx.
    apply selects_spec in Hx. destruct Hx as [_ Hx].
    unfold owns. cbn [fields]. rewrite Hx.
    split; apply String.eqb_neq; congruence. }
  split.
  { intros alertId' other Hdiff.
    assert (List.find (selects alertId' other)
              (resolveFirst (selects alertId userId) docs)
            = List.find (selects alertId' other) docs) as ->;
      [| reflexivity].
    apply resolveFirst_unseen. intros x Hx.
    apply selects_spec in Hx. destruct Hx as [Hid Hx].
    rewrite selects_resolved.
    assert (selects alertId' other x = false) as ->; [| split; reflexivity].
    destruct (selects alertId' other x) eqn:Hsel; [| reflexivity].
    apply selects_spec in Hsel. destruct Hsel as [Hid' Hx'].
    destruct Hdiff as [Hd | Hd]; congruence. }
  apply resolveFirst_twice. apply selects_resolved.
Qed.

Lemma resolving_marks_own_alert_only_on_sample :
  getAlertById everyId "a1" "alice"
    (snd (resolveAlert everyId "a1" "alice" sampleAlerts))
  = Answer (toJson (mkAlertDoc "a1" 10 true (sampleAlert "alice")))
  /\ snd (resolveAlert everyId "a1" "bob" sampleAlerts) = sampleAlerts.
Proof.
  pose proof (resolving_marks_own_alert_only everyId "a1" "alice"
                sampleAlerts eq_refl) as Hmine.
  pose proof (resolving_marks_own_alert_only everyId "a1" "bob"
                sampleAlerts eq_refl) as Hother.
  cbv zeta in Hmine, Hother.
  destruct Hmine as (_ & Hget & _).
  destruct Hother as (_ & _ & Hkeep & _).
  split.
  - rewrite (Hget (toJson (mkAlertDoc "a1" 10 false (sampleAlert "alice"))));
      reflexivity.
  - apply Hkeep. reflexivity.
Defined.

End AlertsApiFacts.
